(** * Hotel room feed ingestion: feed parser and room mapping service

    A shallow embedding of [src/Stays/RoomFeedParser.ts] (the streaming
    feed parser), of [EnterpriseHotelRoomMappingService] (the
    reconciliation engine) and of the middleware and the resolve route of
    [EnterpriseMappingAPI], followed by the properties established for
    them.

    Conventions of the embedding.
    - JavaScript strings are [string]s of 8-bit characters; case mapping
      and white space are the ASCII ones.
    - A JavaScript number that holds an occupancy or a bed count is an
      integer or [NaN] ([jsnumber]); database integer columns are [Z].
    - [x || y], [if (x)] and [!x] follow JavaScript truthiness: the empty
      string, [0], [NaN], [null] and [undefined] are falsy.
    - The XML tokenizer (saxes) and the database client (Prisma) are
      external: the parser is modelled on the stream of SAX events it
      receives, the service on tables of rows.
    - [Math.random], [Date.now] and [new Date] are read from oracles.
    - The listeners of the service's events are external: a listener
      returns or throws ([Subscribers.Listener]). *)

From Stdlib Require Import String Ascii List ZArith Bool Lia QArith.
Import ListNotations.
Local Open Scope string_scope.
Local Open Scope Z_scope.

(* ================================================================== *)
(** ** JavaScript values                                                *)
(* ================================================================== *)

Module Js.

(** A number produced by [parseInt] or stored in a numeric field. *)
Inductive jsnumber : Type :=
| NaN
| Int (z : Z).

(** [n++] *)
Definition incr (n : jsnumber) : jsnumber :=
  match n with
  | NaN => NaN
  | Int z => Int (z + 1)
  end.

Definition truthy_string (s : string) : bool :=
  negb (String.eqb s "").

(** Truthiness of a [string | undefined]. *)
Definition truthy (o : option string) : bool :=
  match o with
  | Some s => truthy_string s
  | None => false
  end.

(** Truthiness of a [number | undefined]. *)
Definition truthy_num (o : option jsnumber) : bool :=
  match o with
  | Some (Int z) => negb (Z.eqb z 0)
  | _ => false
  end.

(** Truthiness of a nullable integer column. *)
Definition truthy_int (o : option Z) : bool :=
  match o with
  | Some z => negb (Z.eqb z 0)
  | None => false
  end.

(** [a || b] on [string | undefined]. *)
Definition or_else (a b : option string) : option string :=
  if truthy a then a else b.

(** [a || ''] *)
Definition or_string (a : option string) (d : string) : string :=
  match a with
  | Some s => if truthy_string s then s else d
  | None => d
  end.

Definition is_upper (c : ascii) : bool :=
  let n := nat_of_ascii c in (Nat.leb 65 n && Nat.leb n 90)%bool.

Definition is_lower (c : ascii) : bool :=
  let n := nat_of_ascii c in (Nat.leb 97 n && Nat.leb n 122)%bool.

Definition is_digit (c : ascii) : bool :=
  let n := nat_of_ascii c in (Nat.leb 48 n && Nat.leb n 57)%bool.

Definition is_space (c : ascii) : bool :=
  let n := nat_of_ascii c in
  (Nat.eqb n 32 || (Nat.leb 9 n && Nat.leb n 13))%bool.

Definition lower_char (c : ascii) : ascii :=
  if is_upper c then ascii_of_nat (nat_of_ascii c + 32) else c.

Definition upper_char (c : ascii) : ascii :=
  if is_lower c then ascii_of_nat (nat_of_ascii c - 32) else c.

Fixpoint map_string (f : ascii -> ascii) (s : string) : string :=
  match s with
  | EmptyString => EmptyString
  | String c r => String (f c) (map_string f r)
  end.

Fixpoint filter_string (p : ascii -> bool) (s : string) : string :=
  match s with
  | EmptyString => EmptyString
  | String c r => if p c then String c (filter_string p r) else filter_string p r
  end.

(** [s.toLowerCase()] and [s.toUpperCase()] on ASCII text, where they map
    the letters A-Z and a-z and nothing else.  Outside ASCII JavaScript
    maps further characters (U+212A to k, U+017F to S), which these do
    not: what is proved of the case mapping is stated for ASCII text. *)
Definition toLowerCase : string -> string := map_string lower_char.
Definition toUpperCase : string -> string := map_string upper_char.

(** [hay.includes(needle)] *)
Fixpoint includes (hay needle : string) : bool :=
  (String.prefix needle hay ||
   match hay with
   | EmptyString => false
   | String _ r => includes r needle
   end)%bool.

Fixpoint trimStart (s : string) : string :=
  match s with
  | EmptyString => EmptyString
  | String c r => if is_space c then trimStart r else s
  end.

(** Drops trailing white space: a character is kept when something
    that is kept follows it, or when it is not white space. *)
Fixpoint trimEnd (s : string) : string :=
  match s with
  | EmptyString => EmptyString
  | String c r =>
      match trimEnd r with
      | EmptyString => if is_space c then EmptyString else String c EmptyString
      | r' => String c r'
      end
  end.

(** [s.trim()] on ASCII text: the white space stripped is the space and
    the characters 9 to 13; JavaScript also strips white space outside
    ASCII (U+00A0 and others). *)
Definition trim (s : string) : string := trimEnd (trimStart s).

Fixpoint digits (s : string) (acc : option Z) : option Z :=
  match s with
  | EmptyString => acc
  | String c r =>
      if is_digit c then
        digits r (Some (10 * match acc with Some a => a | None => 0 end
                        + Z.of_nat (nat_of_ascii c - 48)))
      else acc
  end.

(** [parseInt(s, 10)]: leading white space and one sign are skipped,
    the longest prefix of decimal digits is read, [NaN] without one.
    The value is the exact integer: a JavaScript number is a double and
    is exact up to 2^53, which no count or occupancy of a feed nears. *)
Definition parseInt (s : string) : jsnumber :=
  let t := trimStart s in
  let r :=
    match t with
    | String "-" r => option_map Z.opp (digits r None)
    | String "+" r => digits r None
    | _ => digits t None
    end in
  match r with
  | Some z => Int z
  | None => NaN
  end.

End Js.

(* ================================================================== *)
(** ** The normalized room shape ([StaysTypes])                         *)
(* ================================================================== *)

Module Stays.

Inductive StaysBedType : Type :=
| single | double | full | twin | queen | king | bunk | sofabed | murphy.

Definition StaysBedType_eqb (a b : StaysBedType) : bool :=
  match a, b with
  | single, single | double, double | full, full | twin, twin
  | queen, queen | king, king | bunk, bunk | sofabed, sofabed
  | murphy, murphy => true
  | _, _ => false
  end.

Inductive AmenityType : Type :=
| wifi | pool | parking | gym | spa | restaurant | room_service
| laundry | concierge | pets_allowed | business_centre | lounge
| childcare_service | cash_machine | front_desk_24_hour
| accessibility_mobility | accessibility_hearing | adult_only.

Inductive BoardType : Type :=
| room_only | breakfast | all_inclusive.

Record StaysBed : Type := mkBed {
  bed_type : StaysBedType;
  bed_count : Js.jsnumber
}.

Record StaysPhoto : Type := mkPhoto { url : string }.

Record StaysAmenity : Type := mkAmenity {
  amenity_type : AmenityType;
  amenity_description : string
}.

(** Modelled from the spec: [StaysTypes.ts] is not among the sources;
    the rate has the fields of the data model, which are those the parser
    fills in.  [expires_at] is kept as the instant in milliseconds rather
    than as its ISO rendering. *)
Record StaysRoomRate : Type := mkRate {
  rate_id : string;
  rate_code : option string;
  total_amount : string;
  total_currency : string;
  base_amount : option string;
  base_currency : string;
  tax_amount : option string;
  tax_currency : string;
  fee_amount : option string;
  fee_currency : string;
  due_at_accommodation_amount : option string;
  due_at_accommodation_currency : string;
  payment_type : string;
  board_type : BoardType;
  available_payment_methods : list string;
  conditions : list string;
  cancellation_timeline : list string;
  loyalty_programme_required : bool;
  supported_loyalty_programme : option string;
  rate_source : string;
  expires_at : Z;
  rate_description : option string;
  quantity_available : option Z
}.

Record RoomAttributes : Type := mkAttributes {
  class : option string;
  view : option string
}.

(** Modelled from the spec: [StaysTypes.ts] is not among the sources;
    the room has the fields of the data model, which are those the parser
    and the service read and write.  Every use of an optional array in the
    code treats an absent array like an empty one, and the parser always
    creates them, so arrays are lists; an absent [attributes] object is
    the record with both keys absent. *)
Record StaysRoom : Type := mkRoom {
  name : string;
  max_occupancy : option Js.jsnumber;
  beds : list StaysBed;
  photos : list StaysPhoto;
  amenities : list StaysAmenity;
  attributes : RoomAttributes;
  rates : list StaysRoomRate
}.

End Stays.

(* ================================================================== *)
(** ** The feed parser ([RoomFeedParser.ts])                            *)
(* ================================================================== *)

Module FeedParser.
Import Js Stays.

Definition normalizeBedType (rawType : string) : StaysBedType :=
  let lower := toLowerCase rawType in
  if includes lower "king" then king
  else if includes lower "queen" then queen
  else if includes lower "double" then double
  else if includes lower "twin" then twin
  else if includes lower "sofa" then sofabed
  else if includes lower "murphy" then murphy
  else if includes lower "bunk" then bunk
  else if includes lower "full" then full
  else single.

(** Keys in insertion order, the order [for .. in] visits them. *)
Definition AMENITY_MAPPING : list (string * AmenityType) :=
  [ ("WIFI", wifi); ("INTERNET", wifi); ("POOL", pool); ("SWIMMING", pool);
    ("PARKING", parking); ("VALET", parking); ("GYM", gym);
    ("FITNESS", gym); ("WORKOUT", gym); ("SPA", spa); ("SAUNA", spa);
    ("RESTAURANT", restaurant); ("DINING", restaurant);
    ("ROOMSERVICE", room_service); ("LAUNDRY", laundry);
    ("DRYCLEANING", laundry); ("CONCIERGE", concierge);
    ("PETS", pets_allowed); ("DOG", pets_allowed); ("CAT", pets_allowed);
    ("BUSINESS", business_centre); ("LOUNGE", lounge); ("BAR", lounge);
    ("CHILDCARE", childcare_service); ("BABY", childcare_service);
    ("ATM", cash_machine); ("CASH", cash_machine);
    ("FRONTDESK", front_desk_24_hour); ("RECEPTION", front_desk_24_hour);
    ("ACCESSIB", accessibility_mobility);
    ("HANDICAP", accessibility_mobility);
    ("HEARING", accessibility_hearing); ("ADULT", adult_only) ].

Definition mapAmenity (rawCode : string) : AmenityType :=
  let normalized :=
    filter_string (fun c => (is_upper c || is_digit c)%bool)
                  (toUpperCase rawCode) in
  match find (fun kv => includes normalized (fst kv)) AMENITY_MAPPING with
  | Some kv => snd kv
  | None => wifi
  end.

(** *** SAX events *)

Record SaxesTag : Type := mkTag {
  tag_name : string;
  tag_attributes : list (string * string)
}.

Fixpoint lookup (k : string) (l : list (string * string)) : option string :=
  match l with
  | [] => None
  | (k', v) :: r => if String.eqb k k' then Some v else lookup k r
  end.

Definition attr (tag : SaxesTag) (k : string) : option string :=
  lookup k (tag_attributes tag).

Inductive SaxEvent : Type :=
| opentag (tag : SaxesTag)
| text (s : string)
| closetag (tag : SaxesTag).

(** *** Oracles: [Math.random] for generated rate ids and [Date.now],
    indexed by the number of rates opened before. *)
Record ParserEnv : Type := mkParserEnv {
  randomRateId : nat -> string;
  dateNow : nat -> Z
}.

(** *** The closure state of [parse] *)

Record ParserState : Type := mkState {
  currentHotelId : option string;
  currentRoom : option StaysRoom;
  currentRate : option StaysRoomRate;
  currentSourceId : option string;
  currentTag : option string;
  textBuffer : string;
  ratesOpened : nat;
  (** the calls made to [onRoomFound], oldest first *)
  delivered : list (StaysRoom * option string * option string)
}.

Definition initialState : ParserState :=
  mkState None None None None None "" 0 [].

Definition set_currentHotelId (v : option string) (st : ParserState) :=
  mkState v (currentRoom st) (currentRate st) (currentSourceId st)
          (currentTag st) (textBuffer st) (ratesOpened st) (delivered st).

Definition set_currentRoom (v : option StaysRoom) (st : ParserState) :=
  mkState (currentHotelId st) v (currentRate st) (currentSourceId st)
          (currentTag st) (textBuffer st) (ratesOpened st) (delivered st).

Definition set_currentRate (v : option StaysRoomRate) (st : ParserState) :=
  mkState (currentHotelId st) (currentRoom st) v (currentSourceId st)
          (currentTag st) (textBuffer st) (ratesOpened st) (delivered st).

Definition set_currentSourceId (v : option string) (st : ParserState) :=
  mkState (currentHotelId st) (currentRoom st) (currentRate st) v
          (currentTag st) (textBuffer st) (ratesOpened st) (delivered st).

Definition set_currentTag (v : option string) (st : ParserState) :=
  mkState (currentHotelId st) (currentRoom st) (currentRate st)
          (currentSourceId st) v (textBuffer st) (ratesOpened st)
          (delivered st).

Definition set_textBuffer (v : string) (st : ParserState) :=
  mkState (currentHotelId st) (currentRoom st) (currentRate st)
          (currentSourceId st) (currentTag st) v (ratesOpened st)
          (delivered st).

Definition set_ratesOpened (v : nat) (st : ParserState) :=
  mkState (currentHotelId st) (currentRoom st) (currentRate st)
          (currentSourceId st) (currentTag st) (textBuffer st) v
          (delivered st).

Definition set_delivered
    (v : list (StaysRoom * option string * option string))
    (st : ParserState) :=
  mkState (currentHotelId st) (currentRoom st) (currentRate st)
          (currentSourceId st) (currentTag st) (textBuffer st)
          (ratesOpened st) v.

(** In-place mutation of the room under construction. *)
Definition updRoom (f : StaysRoom -> StaysRoom) (st : ParserState) :=
  set_currentRoom (option_map f (currentRoom st)) st.

Definition set_name (v : string) (r : StaysRoom) :=
  mkRoom v (max_occupancy r) (beds r) (photos r) (amenities r)
         (attributes r) (rates r).

Definition set_max_occupancy (v : option jsnumber) (r : StaysRoom) :=
  mkRoom (name r) v (beds r) (photos r) (amenities r) (attributes r)
         (rates r).

Definition set_beds (v : list StaysBed) (r : StaysRoom) :=
  mkRoom (name r) (max_occupancy r) v (photos r) (amenities r)
         (attributes r) (rates r).

Definition set_photos (v : list StaysPhoto) (r : StaysRoom) :=
  mkRoom (name r) (max_occupancy r) (beds r) v (amenities r)
         (attributes r) (rates r).

Definition set_amenities (v : list StaysAmenity) (r : StaysRoom) :=
  mkRoom (name r) (max_occupancy r) (beds r) (photos r) v (attributes r)
         (rates r).

Definition set_attributes (v : RoomAttributes) (r : StaysRoom) :=
  mkRoom (name r) (max_occupancy r) (beds r) (photos r) (amenities r) v
         (rates r).

Definition set_rates (v : list StaysRoomRate) (r : StaysRoom) :=
  mkRoom (name r) (max_occupancy r) (beds r) (photos r) (amenities r)
         (attributes r) v.

Definition isHotelTag (n : string) : bool :=
  (String.eqb n "Hotel" || String.eqb n "HotelDescriptiveContent"
   || String.eqb n "Property")%bool.

Definition isRoomTag (n : string) : bool :=
  (String.eqb n "Room" || String.eqb n "GuestRoom")%bool.

Definition isRateTag (n : string) : bool :=
  (String.eqb n "Rate" || String.eqb n "RatePlan")%bool.

(** *** [opentag] *)

(** 0. hotel context *)
Definition openHotel (tag : SaxesTag) (st : ParserState) : ParserState :=
  if isHotelTag (tag_name tag) then
    set_currentHotelId
      (or_else (attr tag "HotelCode")
        (or_else (attr tag "HotelID")
          (or_else (attr tag "id") (attr tag "Code")))) st
  else st.

Definition newRoom (tag : SaxesTag) : StaysRoom :=
  let maxOcc := or_else (attr tag "maxOccupancy") (attr tag "MaxOccupancy") in
  {| name := or_string (or_else (attr tag "roomTypeName") (attr tag "name")) "";
     max_occupancy :=
       match maxOcc with
       | Some s => if truthy_string s then Some (parseInt s) else None
       | None => None
       end;
     beds := [];
     photos := [];
     amenities := [];
     attributes := mkAttributes None None;
     rates := [] |}.

(** 1. start of a room definition *)
Definition openRoom (tag : SaxesTag) (st : ParserState) : ParserState :=
  if isRoomTag (tag_name tag) then
    set_currentRoom (Some (newRoom tag))
      (set_currentSourceId
         (or_else (attr tag "id")
           (or_else (attr tag "code")
             (or_else (attr tag "RoomTypeCode") (attr tag "RoomID")))) st)
  else st.

Definition openBed (tag : SaxesTag) (st : ParserState) : ParserState :=
  if String.eqb (tag_name tag) "Bed" then
    let type := normalizeBedType (or_string (attr tag "type") "") in
    let count := parseInt (or_string (attr tag "count") "1") in
    updRoom (fun r => set_beds (beds r ++ [mkBed type count]) r) st
  else st.

Definition openTypeRoom (tag : SaxesTag) (st : ParserState) : ParserState :=
  if String.eqb (tag_name tag) "TypeRoom" then
    let typeName := attr tag "name" in
    let typeCode := or_else (attr tag "RoomTypeCode") (attr tag "code") in
    let st1 :=
      updRoom (fun r =>
                 if (truthy typeName && negb (truthy_string (name r)))%bool
                 then set_name (or_string typeName "") r else r) st in
    if (truthy typeCode && negb (truthy (currentSourceId st1)))%bool
    then set_currentSourceId typeCode st1 else st1
  else st.

Definition openPhoto (tag : SaxesTag) (st : ParserState) : ParserState :=
  if (String.eqb (tag_name tag) "Photo" || String.eqb (tag_name tag) "Image")%bool
  then
    match or_else (attr tag "url") (attr tag "src") with
    | Some u =>
        if truthy_string u
        then updRoom (fun r => set_photos (photos r ++ [mkPhoto u]) r) st
        else st
    | None => st
    end
  else st.

Definition openAmenity (tag : SaxesTag) (st : ParserState) : ParserState :=
  if String.eqb (tag_name tag) "Amenity" then
    let code := or_string (attr tag "code") "" in
    updRoom (fun r =>
               set_amenities (amenities r ++ [mkAmenity (mapAmenity code) ""]) r)
            st
  else st.

Definition defaultRate (env : ParserEnv) (k : nat) (tag : SaxesTag)
  : StaysRoomRate :=
  {| rate_id := or_string (attr tag "id") (randomRateId env k);
     rate_code := if truthy (attr tag "code") then attr tag "code" else None;
     total_amount := "0.00";
     total_currency := "USD";
     base_amount := None;
     base_currency := "USD";
     tax_amount := None;
     tax_currency := "USD";
     fee_amount := None;
     fee_currency := "USD";
     due_at_accommodation_amount := None;
     due_at_accommodation_currency := "USD";
     payment_type := "pay_now";
     board_type := room_only;
     available_payment_methods := ["card"];
     conditions := [];
     cancellation_timeline := [];
     loyalty_programme_required := false;
     supported_loyalty_programme := None;
     rate_source := "duffel_hotel_group";
     expires_at := dateNow env k + 86400000;
     rate_description := None;
     quantity_available := None |}.

(** 3. start of a rate *)
Definition openRate (env : ParserEnv) (tag : SaxesTag) (st : ParserState)
  : ParserState :=
  if isRateTag (tag_name tag) then
    set_ratesOpened (S (ratesOpened st))
      (set_currentRate (Some (defaultRate env (ratesOpened st) tag)) st)
  else st.

Definition onOpenTag (env : ParserEnv) (tag : SaxesTag) (st : ParserState)
  : ParserState :=
  let st0 := set_textBuffer "" (set_currentTag (Some (tag_name tag)) st) in
  let st1 := openRoom tag (openHotel tag st0) in
  match currentRoom st1 with
  | None => st1
  | Some _ =>
      openRate env tag
        (openAmenity tag (openPhoto tag (openTypeRoom tag (openBed tag st1))))
  end.

(** *** [text] *)

Definition onText (s : string) (st : ParserState) : ParserState :=
  match currentRoom st with
  | None => st
  | Some _ => set_textBuffer (textBuffer st ++ s) st
  end.

(** *** [closetag] *)

Definition set_total_amount (v : string) (r : StaysRoomRate) :=
  mkRate (rate_id r) (rate_code r) v (total_currency r) (base_amount r)
         (base_currency r) (tax_amount r) (tax_currency r) (fee_amount r)
         (fee_currency r) (due_at_accommodation_amount r)
         (due_at_accommodation_currency r) (payment_type r) (board_type r)
         (available_payment_methods r) (conditions r)
         (cancellation_timeline r) (loyalty_programme_required r)
         (supported_loyalty_programme r) (rate_source r) (expires_at r)
         (rate_description r) (quantity_available r).

(** The five currency assignments of the [Amount]/[Total] branch. *)
Definition set_currencies (c : string) (r : StaysRoomRate) :=
  mkRate (rate_id r) (rate_code r) (total_amount r) c (base_amount r) c
         (tax_amount r) c (fee_amount r) c (due_at_accommodation_amount r)
         c (payment_type r) (board_type r) (available_payment_methods r)
         (conditions r) (cancellation_timeline r)
         (loyalty_programme_required r) (supported_loyalty_programme r)
         (rate_source r) (expires_at r) (rate_description r)
         (quantity_available r).

Definition set_board_type (b : BoardType) (r : StaysRoomRate) :=
  mkRate (rate_id r) (rate_code r) (total_amount r) (total_currency r)
         (base_amount r) (base_currency r) (tax_amount r) (tax_currency r)
         (fee_amount r) (fee_currency r) (due_at_accommodation_amount r)
         (due_at_accommodation_currency r) (payment_type r) b
         (available_payment_methods r) (conditions r)
         (cancellation_timeline r) (loyalty_programme_required r)
         (supported_loyalty_programme r) (rate_source r) (expires_at r)
         (rate_description r) (quantity_available r).

(** Fields of the open rate filled from a closing tag. *)
Definition closeRateField (tag : SaxesTag) (content : string)
    (rate : StaysRoomRate) : StaysRoomRate :=
  if (String.eqb (tag_name tag) "Amount" || String.eqb (tag_name tag) "Total")%bool
  then
    let rate1 := set_total_amount content rate in
    match attr tag "currency" with
    | Some c => if truthy_string c then set_currencies c rate1 else rate1
    | None => rate1
    end
  else if (String.eqb (tag_name tag) "Meals" || String.eqb (tag_name tag) "Board")%bool
  then
    let lower := toLowerCase content in
    if includes lower "breakfast" then set_board_type breakfast rate
    else if includes lower "all" then set_board_type all_inclusive rate
    else rate
  else rate.

(** [beds.find(b => b.type === type)] followed by [existingBed.count++]:
    the first bed of that type has its count incremented in place;
    [None] when there is no such bed. *)
Fixpoint bumpFirst (type : StaysBedType) (bs : list StaysBed)
  : option (list StaysBed) :=
  match bs with
  | [] => None
  | b :: rest =>
      if StaysBedType_eqb (bed_type b) type
      then Some (mkBed (bed_type b) (incr (bed_count b)) :: rest)
      else option_map (cons b) (bumpFirst type rest)
  end.

Definition addBedType (type : StaysBedType) (bs : list StaysBed)
  : list StaysBed :=
  match bumpFirst type bs with
  | Some bs' => bs'
  | None => bs ++ [mkBed type (Int 1)]
  end.

(** [amenities[amenities.length - 1].description = content] *)
Fixpoint describeLast (content : string) (l : list StaysAmenity)
  : list StaysAmenity :=
  match l with
  | [] => []
  | [a] => [mkAmenity (amenity_type a) content]
  | a :: r => a :: describeLast content r
  end.

(** 3. text content mapped to room fields (the [else if] chain). *)
Definition closeRoomField (n : string) (content : string) (r : StaysRoom)
  : StaysRoom :=
  if (String.eqb n "Name" || String.eqb n "RoomName")%bool then
    set_name content r
  else if String.eqb n "MaxOccupancy" then
    set_max_occupancy (Some (parseInt content)) r
  else if String.eqb n "Description" then r
  else if String.eqb n "BedType" then
    set_beds (addBedType (normalizeBedType content) (beds r)) r
  else if String.eqb n "RoomCategory" then
    set_attributes (mkAttributes (Some content) (view (attributes r))) r
  else if String.eqb n "RoomView" then
    set_attributes (mkAttributes (class (attributes r)) (Some content)) r
  else if String.eqb n "RoomAmenity" then
    if truthy_string content
    then set_amenities (amenities r ++ [mkAmenity (mapAmenity content) content]) r
    else r
  else if String.eqb n "Amenity" then
    set_amenities (describeLast content (amenities r)) r
  else r.

(** 4. end of a room definition: emit and reset. *)
Definition closeRoom (tag : SaxesTag) (st : ParserState) : ParserState :=
  if isRoomTag (tag_name tag) then
    let st1 :=
      match currentRoom st with
      | Some r =>
          if truthy_string (name r)
          then set_delivered
                 (delivered st ++ [(r, currentSourceId st, currentHotelId st)])
                 st
          else st
      | None => st
      end in
    set_currentSourceId None (set_currentRoom None st1)
  else st.

Definition closeRoomPart (tag : SaxesTag) (content : string)
    (st : ParserState) : ParserState :=
  set_currentTag None
    (closeRoom tag (updRoom (closeRoomField (tag_name tag) content) st)).

Definition onCloseTag (tag : SaxesTag) (st : ParserState) : ParserState :=
  match currentRoom st with
  | None => st                                  (* if (!currentRoom) return *)
  | Some _ =>
      let content := trim (textBuffer st) in
      let st1 :=
        if isHotelTag (tag_name tag) then set_currentHotelId None st else st in
      match currentRate st1 with
      | Some rate =>
          if isRateTag (tag_name tag) then
            set_currentTag None
              (set_currentRate None
                 (updRoom (fun r => set_rates (rates r ++ [rate]) r) st1))
          else
            closeRoomPart tag content
              (set_currentRate (Some (closeRateField tag content rate)) st1)
      | None => closeRoomPart tag content st1
      end
  end.

Definition step (env : ParserEnv) (st : ParserState) (e : SaxEvent)
  : ParserState :=
  match e with
  | opentag tag => onOpenTag env tag st
  | text s => onText s st
  | closetag tag => onCloseTag tag st
  end.

Definition run (env : ParserEnv) (st : ParserState) (events : list SaxEvent)
  : ParserState :=
  fold_left (step env) events st.

(** [parse]: the sequence of [onRoomFound] calls for a stream of events. *)
Definition parse (env : ParserEnv) (events : list SaxEvent)
  : list (StaysRoom * option string * option string) :=
  delivered (run env initialState events).

(** An element [<n a..>body</n>] as its events. *)
Definition element (n : string) (a : list (string * string))
    (body : list SaxEvent) : list SaxEvent :=
  opentag (mkTag n a) :: body ++ [closetag (mkTag n a)].

End FeedParser.

(* ================================================================== *)
(** ** The room mapping service ([EnterpriseHotelRoomMappingService])   *)
(* ================================================================== *)

Module MappingService.
Import Js Stays.

(** *** Rows of the datastore

    Modelled from the spec: the database schema is not among the sources;
    a row carries the columns of the data model, which are those the
    service reads and writes. *)

(** Row identifiers are opaque strings issued by the datastore. *)
Definition Id : Type := string.

Inductive MappingType : Type := automatic | manual | verified.

Definition MappingType_eqb (a b : MappingType) : bool :=
  match a, b with
  | automatic, automatic | manual, manual | verified, verified => true
  | _, _ => false
  end.

(** [confidence] is only stored and passed on; it is kept as a rational. *)
Record RoomMappingOptions : Type := mkOptions {
  confidence : option Q;
  mappingType : option MappingType;
  isPrimary : option bool
}.

Definition noOptions : RoomMappingOptions := mkOptions None None None.

Record HotelMapping : Type := mkHotelMapping {
  hm_id : Id;
  hm_source : string;
  hm_sourceId : string;
  hm_hotelId : Id
}.

Record Room : Type := mkRoomRow {
  room_id : Id;
  room_hotelId : Id;
  room_name : string;
  room_description : option string;
  room_maxOccupancy : option Z
}.

Record RoomMapping : Type := mkRoomMapping {
  rm_id : Id;
  rm_roomId : Id;
  rm_hotelMappingId : Id;
  rm_source : string;
  rm_sourceId : string;
  rm_sourceData : StaysRoom;
  rm_confidence : Q;
  rm_mappingType : MappingType;
  rm_isPrimary : bool;
  rm_lastSyncedAt : Z;
  rm_qualityScore : Z
}.

(** The [content] blob of an enrichment row. *)
Inductive Content : Type :=
| PhotosContent (ps : list StaysPhoto)
| AmenitiesContent (l : list StaysAmenity)
| OtherContent (json : string).

Record RoomContentEnrichment : Type := mkEnrichment {
  en_id : Id;
  en_roomId : Id;
  en_source : string;
  en_fieldName : string;
  en_content : Content;
  en_quality : string;
  (** set by [update] only; [create] leaves it to the column default *)
  en_enrichedAt : option Z
}.

(** The [value] of a conflict entry, a JSON scalar. *)
Inductive JsonValue : Type :=
| JNull
| JNumber (z : Z)
| JString (s : string).

Record ConflictEntry : Type := mkEntry {
  ce_source : string;
  ce_value : JsonValue;
  ce_detectedAt : Z
}.

Inductive ConflictStatus : Type := open | resolved.

Definition ConflictStatus_eqb (a b : ConflictStatus) : bool :=
  match a, b with
  | open, open | resolved, resolved => true
  | _, _ => false
  end.

Inductive ResolutionStrategy : Type := keep_internal | apply_source.

Record MappingConflict : Type := mkConflict {
  mc_id : Id;
  mc_entityType : string;
  mc_entityId : Id;
  mc_fieldName : string;
  mc_conflictingSources : list ConflictEntry;
  mc_status : ConflictStatus;
  mc_resolution : option ResolutionStrategy;
  mc_resolvedAt : option Z
}.

(** *** The world the service runs in *)

(** The tables, in row order; the number of identifiers issued and of
    clock readings taken so far; the [console.warn] lines; and the
    ['conflict:resolved'] events emitted, oldest first. *)
Record World : Type := mkWorld {
  hotelMappings : list HotelMapping;
  roomMappings : list RoomMapping;
  rooms : list Room;
  roomContentEnrichments : list RoomContentEnrichment;
  mappingConflicts : list MappingConflict;
  idsIssued : nat;
  clockReads : nat;
  warnings : list string;
  emitted : list MappingConflict
}.

(** Oracles: the identifier the datastore gives its n-th new row and
    the n-th reading of [new Date()]. *)
Record ServiceEnv : Type := mkServiceEnv {
  newId : nat -> Id;
  clock : nat -> Z
}.

Inductive Error : Type :=
| JsError (message : string)         (* throw new Error(message) *)
| PrismaError (code : string).       (* raised by the database client *)

Inductive Result (A : Type) : Type :=
| Ok (a : A)
| Throw (e : Error).
Arguments Ok {A} a.
Arguments Throw {A} e.

(** State and exception monad of the service. *)
Definition M (A : Type) : Type := World -> Result A * World.

Definition ret {A} (a : A) : M A := fun w => (Ok a, w).

Definition bind {A B} (m : M A) (k : A -> M B) : M B :=
  fun w =>
    match m w with
    | (Ok a, w1) => k a w1
    | (Throw e, w1) => (Throw e, w1)
    end.

Definition throw {A} (e : Error) : M A := fun w => (Throw e, w).

Declare Scope service_scope.
Delimit Scope service_scope with service.
Notation "x <- m ;; k" := (bind m (fun x => k))
  (at level 61, m at next level, right associativity) : service_scope.
Notation "m ;; k" := (bind m (fun _ => k))
  (at level 61, right associativity) : service_scope.
Local Open Scope service_scope.

Definition exec {A} (m : M A) (w : World) : World := snd (m w).
Definition result {A} (m : M A) (w : World) : Result A := fst (m w).

Definition set_roomMappings (v : list RoomMapping) (w : World) : World :=
  mkWorld (hotelMappings w) v (rooms w) (roomContentEnrichments w)
          (mappingConflicts w) (idsIssued w) (clockReads w) (warnings w)
          (emitted w).

Definition set_rooms (v : list Room) (w : World) : World :=
  mkWorld (hotelMappings w) (roomMappings w) v (roomContentEnrichments w)
          (mappingConflicts w) (idsIssued w) (clockReads w) (warnings w)
          (emitted w).

Definition set_roomContentEnrichments (v : list RoomContentEnrichment)
    (w : World) : World :=
  mkWorld (hotelMappings w) (roomMappings w) (rooms w) v
          (mappingConflicts w) (idsIssued w) (clockReads w) (warnings w)
          (emitted w).

Definition set_mappingConflicts (v : list MappingConflict) (w : World)
  : World :=
  mkWorld (hotelMappings w) (roomMappings w) (rooms w)
          (roomContentEnrichments w) v (idsIssued w) (clockReads w)
          (warnings w) (emitted w).

(** [new Date()] *)
Definition newDate (env : ServiceEnv) : M Z :=
  fun w =>
    (Ok (clock env (clockReads w)),
     mkWorld (hotelMappings w) (roomMappings w) (rooms w)
             (roomContentEnrichments w) (mappingConflicts w) (idsIssued w)
             (S (clockReads w)) (warnings w) (emitted w)).

(** The identifier of the next created row. *)
Definition freshId (env : ServiceEnv) : M Id :=
  fun w =>
    (Ok (newId env (idsIssued w)),
     mkWorld (hotelMappings w) (roomMappings w) (rooms w)
             (roomContentEnrichments w) (mappingConflicts w)
             (S (idsIssued w)) (clockReads w) (warnings w) (emitted w)).

Definition console_warn (line : string) : M unit :=
  fun w =>
    (Ok tt,
     mkWorld (hotelMappings w) (roomMappings w) (rooms w)
             (roomContentEnrichments w) (mappingConflicts w) (idsIssued w)
             (clockReads w) (warnings w ++ [line]) (emitted w)).

(** [this.emit('conflict:resolved', c)] of a service whose listeners
    return: the event is recorded and the call goes on.  Listeners that
    may throw are in [Subscribers.emit]. *)
Definition emit (c : MappingConflict) : M unit :=
  fun w =>
    (Ok tt,
     mkWorld (hotelMappings w) (roomMappings w) (rooms w)
             (roomContentEnrichments w) (mappingConflicts w) (idsIssued w)
             (clockReads w) (warnings w) (emitted w ++ [c])).

(** [prisma.$transaction]: a throw inside the callback discards the
    writes made to the tables. *)
Definition transaction {A} (body : M A) : M A :=
  fun w =>
    match body w with
    | (Ok a, w1) => (Ok a, w1)
    | (Throw e, w1) =>
        (Throw e,
         mkWorld (hotelMappings w) (roomMappings w) (rooms w)
                 (roomContentEnrichments w) (mappingConflicts w)
                 (idsIssued w1) (clockReads w1) (warnings w1) (emitted w1))
    end.

(** *** Table operations of the database client *)

(** [findFirst]/[findUnique]: the first row, in row order, that
    satisfies the [where] clause. *)
Definition findFirst {R} (table : World -> list R) (where_ : R -> bool)
  : M (option R) :=
  fun w => (Ok (find where_ (table w)), w).

(** [update({ where: { id }, data })]: the rows with that identifier
    (identifiers are unique in a table) are rewritten and the new row is
    returned; the client raises P2025 when there is none. *)
Definition updateRows {R} (id_of : R -> Id) (id : Id) (data : R -> R)
    (rows : list R) : list R :=
  map (fun r => if String.eqb (id_of r) id then data r else r) rows.

Definition update {R} (table : World -> list R)
    (set_table : list R -> World -> World) (id_of : R -> Id) (id : Id)
    (data : R -> R) : M R :=
  fun w =>
    match find (fun r => String.eqb (id_of r) id) (table w) with
    | Some r => (Ok (data r), set_table (updateRows id_of id data (table w)) w)
    | None => (Throw (PrismaError "P2025"), w)
    end.

(** [create({ data })]: the row, given its fresh identifier, is appended
    to the table and returned. *)
Definition create {R} (env : ServiceEnv) (table : World -> list R)
    (set_table : list R -> World -> World) (data : Id -> R) : M R :=
  id <- freshId env ;;
  (fun w => (Ok (data id), set_table (table w ++ [data id])%list w)).

(** *** [calculateQualityScore] *)

Definition nonEmpty {A} (l : list A) : bool :=
  match l with
  | [] => false
  | _ :: _ => true
  end.

Definition calculateQualityScore (room : StaysRoom) : Z :=
  let score := 0 in
  let score := if truthy_string (name room) then score + 10 else score in
  let score := if truthy_num (max_occupancy room) then score + 10 else score in
  let score := if nonEmpty (beds room) then score + 20 else score in
  let score := if nonEmpty (photos room) then score + 20 else score in
  let score := if nonEmpty (amenities room) then score + 20 else score in
  let score :=
    if (truthy (class (attributes room)) || truthy (view (attributes room)))%bool
    then score + 10 else score in
  let score := if nonEmpty (rates room) then score + 10 else score in
  Z.min score 100.

(** *** [upsertRoomEnrichment] and [enrichRoomContent] *)

Definition upsertRoomEnrichment (env : ServiceEnv) (roomId : Id)
    (source fieldName : string) (content : Content) (quality : string)
  : M unit :=
  existing <- findFirst roomContentEnrichments
                (fun e => (String.eqb (en_roomId e) roomId
                           && String.eqb (en_source e) source
                           && String.eqb (en_fieldName e) fieldName)%bool) ;;
  match existing with
  | Some ex =>
      now <- newDate env ;;
      update roomContentEnrichments set_roomContentEnrichments en_id
             (en_id ex)
             (fun row =>
                mkEnrichment (en_id row) (en_roomId row) (en_source row)
                             (en_fieldName row) content quality (Some now)) ;;
      ret tt
  | None =>
      create env roomContentEnrichments set_roomContentEnrichments
             (fun id =>
                mkEnrichment id roomId source fieldName content quality None) ;;
      ret tt
  end.

Record EnrichmentItem : Type := mkItem {
  item_fieldName : string;
  item_content : Content;
  item_source : string;
  item_quality : option string
}.

Fixpoint enrichItems (env : ServiceEnv) (roomId : Id)
    (items : list EnrichmentItem) : M unit :=
  match items with
  | [] => ret tt
  | item :: rest =>
      upsertRoomEnrichment env roomId (item_source item)
        (item_fieldName item) (item_content item)
        (match item_quality item with Some q => q | None => "pending" end) ;;
      enrichItems env roomId rest
  end.

Definition enrichRoomContent (env : ServiceEnv) (roomId : Id)
    (items : list EnrichmentItem) : M unit :=
  transaction (enrichItems env roomId items).

(** *** [upsertConflict] *)

(** [sources.findIndex(s => s.source === source)] followed by
    [sources[sourceIndex] = conflictEntry]; [None] for index -1. *)
Fixpoint replaceFirst (conflictEntry : ConflictEntry)
    (sources : list ConflictEntry) : option (list ConflictEntry) :=
  match sources with
  | [] => None
  | s :: rest =>
      if String.eqb (ce_source s) (ce_source conflictEntry)
      then Some (conflictEntry :: rest)
      else option_map (cons s) (replaceFirst conflictEntry rest)
  end.

Definition upsertEntry (conflictEntry : ConflictEntry)
    (sources : list ConflictEntry) : list ConflictEntry :=
  match replaceFirst conflictEntry sources with
  | Some sources' => sources'
  | None => sources ++ [conflictEntry]
  end.

Definition set_conflictingSources (v : list ConflictEntry)
    (c : MappingConflict) : MappingConflict :=
  mkConflict (mc_id c) (mc_entityType c) (mc_entityId c) (mc_fieldName c) v
             (mc_status c) (mc_resolution c) (mc_resolvedAt c).

Definition openConflictFor (entityType : string) (entityId : Id)
    (fieldName : string) (c : MappingConflict) : bool :=
  (String.eqb (mc_entityType c) entityType
   && String.eqb (mc_entityId c) entityId
   && String.eqb (mc_fieldName c) fieldName
   && ConflictStatus_eqb (mc_status c) open)%bool.

Definition upsertConflict (env : ServiceEnv) (entityType : string)
    (entityId : Id) (fieldName source : string)
    (newValue currentValue : JsonValue) : M unit :=
  existing <- findFirst mappingConflicts
                (openConflictFor entityType entityId fieldName) ;;
  detectedAt <- newDate env ;;
  let conflictEntry := mkEntry source newValue detectedAt in
  match existing with
  | Some ex =>
      let sources := upsertEntry conflictEntry (mc_conflictingSources ex) in
      update mappingConflicts set_mappingConflicts mc_id (mc_id ex)
             (set_conflictingSources sources) ;;
      ret tt
  | None =>
      internalAt <- newDate env ;;
      create env mappingConflicts set_mappingConflicts
             (fun id =>
                mkConflict id entityType entityId fieldName
                           [mkEntry "internal" currentValue internalAt;
                            conflictEntry]
                           open None None) ;;
      ret tt
  end.

(** *** [detectAndRecordConflicts] *)

Definition detectAndRecordConflicts (env : ServiceEnv) (internalRoom : Room)
    (source : string) (incomingData : StaysRoom) : M unit :=
  match room_maxOccupancy internalRoom, max_occupancy incomingData with
  | Some internal, Some (Int incoming) =>
      if (negb (Z.eqb internal 0) && negb (Z.eqb incoming 0)
          && negb (Z.eqb internal incoming))%bool
      then upsertConflict env "room" (room_id internalRoom) "maxOccupancy"
                          source (JNumber incoming) (JNumber internal)
      else ret tt
  | _, _ => ret tt      (* null, undefined or NaN on one side: falsy *)
  end.

(** *** [mapRoom] *)

(** [[class, view].filter(Boolean).join(', ') || null] *)
Definition describe (a : RoomAttributes) : option string :=
  let parts :=
    filter truthy_string
      ((match class a with Some s => [s] | None => [] end)
       ++ (match view a with Some s => [s] | None => [] end))%list in
  let joined := String.concat ", " parts in
  if truthy_string joined then Some joined else None.

(** [roomData.max_occupancy || 2] *)
Definition occupancyOrDefault (o : option jsnumber) : Z :=
  match o with
  | Some (Int z) => if Z.eqb z 0 then 2 else z
  | _ => 2
  end.

Definition sameMappingKey (source roomSourceId : string) (hotelMappingId : Id)
    (m : RoomMapping) : bool :=
  (String.eqb (rm_source m) source
   && String.eqb (rm_sourceId m) roomSourceId
   && String.eqb (rm_hotelMappingId m) hotelMappingId)%bool.

(** The [data] of the update of an existing mapping. *)
Definition refreshMapping (existingMapping : RoomMapping)
    (roomData : StaysRoom) (now : Z) (qualityScore : Z) (confidence : Q)
    (mappingType : MappingType) (row : RoomMapping) : RoomMapping :=
  let keep := MappingType_eqb (rm_mappingType existingMapping) verified in
  mkRoomMapping (rm_id row) (rm_roomId row) (rm_hotelMappingId row)
                (rm_source row) (rm_sourceId row) roomData
                (if keep then rm_confidence row else confidence)
                (if keep then rm_mappingType row else mappingType)
                (rm_isPrimary row) now qualityScore.

Definition mapRoom (env : ServiceEnv)
    (hotelSourceId roomSourceId source : string) (roomData : StaysRoom)
    (options : RoomMappingOptions) : M unit :=
  let confidence :=
    match confidence options with Some c => c | None => (8 # 10)%Q end in
  let mappingType :=
    match mappingType options with Some t => t | None => automatic end in
  let isPrimary :=
    match isPrimary options with Some b => b | None => false end in
  let qualityScore := calculateQualityScore roomData in
  transaction (
    (* 1. parent hotel mapping *)
    hotelMapping <- findFirst hotelMappings
                      (fun h => (String.eqb (hm_source h) source
                                 && String.eqb (hm_sourceId h) hotelSourceId)%bool) ;;
    match hotelMapping with
    | None =>
        console_warn
          ("[RoomMapping] Parent hotel mapping not found for source="
           ++ source ++ " hotelId=" ++ hotelSourceId ++ ". Skipping room "
           ++ roomSourceId ++ ".")
    | Some hotelMapping =>
        (* 2. existing room mapping, with its room joined in *)
        existingMapping <- findFirst roomMappings
                             (sameMappingKey source roomSourceId
                                             (hm_id hotelMapping)) ;;
        found <-
          match existingMapping with
          | Some existingMapping =>
              joined <- findFirst rooms
                          (fun r => String.eqb (room_id r)
                                               (rm_roomId existingMapping)) ;;
              now <- newDate env ;;
              update roomMappings set_roomMappings rm_id
                     (rm_id existingMapping)
                     (refreshMapping existingMapping roomData now
                                     qualityScore confidence mappingType) ;;
              ret (rm_roomId existingMapping, joined)
          | None =>
              (* 3. find or create the internal room *)
              existingRoom <- findFirst rooms
                                (fun r => (String.eqb (room_hotelId r)
                                                      (hm_hotelId hotelMapping)
                                           && String.eqb (room_name r)
                                                         (name roomData))%bool) ;;
              currentRoom <-
                match existingRoom with
                | Some existingRoom => ret existingRoom
                | None =>
                    create env rooms set_rooms
                           (fun id =>
                              mkRoomRow id (hm_hotelId hotelMapping)
                                        (name roomData)
                                        (describe (attributes roomData))
                                        (Some (occupancyOrDefault
                                                 (max_occupancy roomData))))
                end ;;
              now <- newDate env ;;
              create env roomMappings set_roomMappings
                     (fun id =>
                        mkRoomMapping id (room_id currentRoom)
                                      (hm_id hotelMapping) source roomSourceId
                                      roomData confidence mappingType
                                      isPrimary now qualityScore) ;;
              ret (room_id currentRoom, Some currentRoom)
          end ;;
        let roomId := fst found in
        (* 3.5 conflict detection *)
        match snd found with
        | Some currentRoom =>
            detectAndRecordConflicts env currentRoom source roomData
        | None => ret tt
        end ;;
        (* 4. content enrichment *)
        (if nonEmpty (photos roomData)
         then upsertRoomEnrichment env roomId source "images"
                                   (PhotosContent (photos roomData)) "pending"
         else ret tt) ;;
        (if nonEmpty (amenities roomData)
         then upsertRoomEnrichment env roomId source "amenities"
                                   (AmenitiesContent (amenities roomData))
                                   "pending"
         else ret tt)
    end).

(** *** [resolveConflict] *)

(** Modelled from the spec: the database schema of the Room table is not
    among the sources; the data model gives a room the columns id,
    hotelId, name, description and maxOccupancy.  A write of
    [{ [fieldName]: value }] is accepted for a column of the table and a
    value of its type, and refused by the client otherwise. *)
Definition assignRoomField (fieldName : string) (value : JsonValue)
    (r : Room) : option Room :=
  if String.eqb fieldName "maxOccupancy" then
    match value with
    | JNumber z =>
        Some (mkRoomRow (room_id r) (room_hotelId r) (room_name r)
                        (room_description r) (Some z))
    | JNull =>
        Some (mkRoomRow (room_id r) (room_hotelId r) (room_name r)
                        (room_description r) None)
    | JString _ => None
    end
  else if String.eqb fieldName "name" then
    match value with
    | JString s =>
        Some (mkRoomRow (room_id r) (room_hotelId r) s (room_description r)
                        (room_maxOccupancy r))
    | _ => None
    end
  else if String.eqb fieldName "description" then
    match value with
    | JString s =>
        Some (mkRoomRow (room_id r) (room_hotelId r) (room_name r) (Some s)
                        (room_maxOccupancy r))
    | JNull =>
        Some (mkRoomRow (room_id r) (room_hotelId r) (room_name r) None
                        (room_maxOccupancy r))
    | JNumber _ => None
    end
  else if String.eqb fieldName "hotelId" then
    match value with
    | JString s =>
        Some (mkRoomRow (room_id r) s (room_name r) (room_description r)
                        (room_maxOccupancy r))
    | _ => None
    end
  else None.

(** [tx.room.update({ where: { id }, data: { [fieldName]: value } })] *)
Definition updateRoomField (id : Id) (fieldName : string)
    (value : JsonValue) : M unit :=
  fun w =>
    match find (fun r => String.eqb (room_id r) id) (rooms w) with
    | None => (Throw (PrismaError "P2025"), w)
    | Some r =>
        match assignRoomField fieldName value r with
        | None => (Throw (PrismaError "validation"), w)
        | Some _ =>
            (Ok tt,
             set_rooms
               (updateRows room_id id
                  (fun row =>
                     match assignRoomField fieldName value row with
                     | Some row' => row'
                     | None => row
                     end) (rooms w)) w)
        end
    end.

Definition markResolved (resolutionStrategy : ResolutionStrategy) (now : Z)
    (c : MappingConflict) : MappingConflict :=
  mkConflict (mc_id c) (mc_entityType c) (mc_entityId c) (mc_fieldName c)
             (mc_conflictingSources c) resolved (Some resolutionStrategy)
             (Some now).

Definition isApplySource (s : ResolutionStrategy) : bool :=
  match s with
  | apply_source => true
  | keep_internal => false
  end.

Definition resolveConflict (env : ServiceEnv) (conflictId : Id)
    (resolutionStrategy : ResolutionStrategy) (sourceToApply : option string)
  : M unit :=
  resolvedConflict <-
    transaction (
      conflict <- findFirst mappingConflicts
                    (fun c => String.eqb (mc_id c) conflictId) ;;
      match conflict with
      | None => throw (JsError "Conflict not found")
      | Some conflict =>
          (if (isApplySource resolutionStrategy && truthy sourceToApply)%bool
           then
             let sourceToApply := or_string sourceToApply "" in
             match find (fun s => String.eqb (ce_source s) sourceToApply)
                        (mc_conflictingSources conflict) with
             | None =>
                 throw (JsError ("Source " ++ sourceToApply
                                 ++ " not found in conflict"))
             | Some sourceEntry =>
                 if String.eqb (mc_entityType conflict) "room"
                 then updateRoomField (mc_entityId conflict)
                                      (mc_fieldName conflict)
                                      (ce_value sourceEntry)
                 else ret tt
             end
           else ret tt) ;;
          now <- newDate env ;;
          update mappingConflicts set_mappingConflicts mc_id conflictId
                 (markResolved resolutionStrategy now)
      end) ;;
  emit resolvedConflict.

End MappingService.

(* ================================================================== *)
(** ** Vocabulary of the properties                                     *)
(* ================================================================== *)

Module ParserSpec.
Import Js Stays FeedParser.

(** The beds of one type in a bed list. *)
Definition bedsOfType (t : StaysBedType) (bs : list StaysBed)
  : list StaysBed :=
  filter (fun b => StaysBedType_eqb (bed_type b) t) bs.

(** What a room element contains: [<BedType>] elements with text
    content, given as the chunks the tokenizer delivers it in, and any
    other event. *)
Inductive RoomItem : Type :=
| BedTypeElement (a : list (string * string)) (chunks : list string)
| OtherEvent (e : SaxEvent).

Definition itemEvents (i : RoomItem) : list SaxEvent :=
  match i with
  | BedTypeElement a chunks =>
      element "BedType" a (map text chunks)
  | OtherEvent e => [e]
  end.

(** The text content delivered in several chunks. *)
Definition textOf (chunks : list string) : string :=
  fold_right String.append "" chunks.

(** The beds of type [t] a room should hold after [k] BedType elements
    of that type. *)
Definition expectedBeds (t : StaysBedType) (k : nat) : list StaysBed :=
  match k with
  | O => []
  | S _ => [mkBed t (Int (Z.of_nat k))]
  end.

Definition isBedTypeElement (i : RoomItem) : bool :=
  match i with
  | BedTypeElement _ _ => true
  | OtherEvent _ => false
  end.

Definition countBedTypes (items : list RoomItem) : nat :=
  length (filter isBedTypeElement items).

(** An event inside a room that neither starts nor ends a room, is not
    the end of a BedType element, and is not a [Bed] tag of type [t]. *)
Definition otherOk (t : StaysBedType) (e : SaxEvent) : bool :=
  match e with
  | opentag tag =>
      (negb (isRoomTag (tag_name tag))
       && negb (String.eqb (tag_name tag) "Bed"
                && StaysBedType_eqb
                     (normalizeBedType (or_string (attr tag "type") "")) t))%bool
  | text _ => true
  | closetag tag =>
      (negb (isRoomTag (tag_name tag))
       && negb (String.eqb (tag_name tag) "BedType"))%bool
  end.

(** The content of every BedType element normalizes to [t]. *)
Definition itemOk (t : StaysBedType) (i : RoomItem) : bool :=
  match i with
  | BedTypeElement _ chunks =>
      StaysBedType_eqb (normalizeBedType (trim (textOf chunks))) t
  | OtherEvent e => otherOk t e
  end.

(** [st'] has delivered nothing more than [st], and a room under
    construction in [st] is still under construction in [st'], the view
    [f] of the room having moved along [R]. *)
Definition evolves {X : Type} (R : X -> X -> Prop) (f : StaysRoom -> X)
    (st st' : ParserState) : Prop :=
  delivered st' = delivered st /\
  forall r, currentRoom st = Some r ->
    exists r', currentRoom st' = Some r' /\ R (f r) (f r').

(** The room keeps its beds of type [t]. *)
Definition keepsBeds (t : StaysBedType) : ParserState -> ParserState -> Prop :=
  evolves eq (fun r => bedsOfType t (beds r)).

(** The room keeps its rates. *)
Definition keepsRates : ParserState -> ParserState -> Prop :=
  evolves eq rates.

Definition extends {A : Type} (l l' : list A) : Prop :=
  exists more, l' = (l ++ more)%list.

(** The room keeps its rates and may add some at the end. *)
Definition growsRates : ParserState -> ParserState -> Prop :=
  evolves extends rates.

(** An event inside a room element: no room tag opens or closes. *)
Definition insideRoom (e : SaxEvent) : bool :=
  match e with
  | opentag tag => negb (isRoomTag (tag_name tag))
  | text _ => true
  | closetag tag => negb (isRoomTag (tag_name tag))
  end.

(** The five amount and currency pairs of a rate. *)
Definition money (r : StaysRoomRate)
  : (string * string) * (option string * string) * (option string * string)
    * (option string * string) * (option string * string) :=
  ((total_amount r, total_currency r),
   (base_amount r, base_currency r),
   (tax_amount r, tax_currency r),
   (fee_amount r, fee_currency r),
   (due_at_accommodation_amount r, due_at_accommodation_currency r)).

(** The pairs a rate starts with. *)
Definition moneyDefaults
  : (string * string) * (option string * string) * (option string * string)
    * (option string * string) * (option string * string) :=
  (("0.00", "USD"), (None, "USD"), (None, "USD"), (None, "USD"),
   (None, "USD")).

Definition isAmountTag (n : string) : bool :=
  (String.eqb n "Amount" || String.eqb n "Total")%bool.

(** An event inside a rate element that does not touch its monetary
    fields: no room or rate boundary and no end of an amount tag. *)
Definition rateBodyEvent (e : SaxEvent) : bool :=
  match e with
  | opentag tag =>
      (negb (isRoomTag (tag_name tag)) && negb (isRateTag (tag_name tag)))%bool
  | text _ => true
  | closetag tag =>
      (negb (isRoomTag (tag_name tag)) && negb (isRateTag (tag_name tag))
       && negb (isAmountTag (tag_name tag)))%bool
  end.

(** A room holding one rate element without content. *)
Definition roomWithBareRate : list SaxEvent :=
  element "Room" [("name", "A")] (element "Rate" [("id", "r1")] []).

(** A room with two BedType elements, the second delivered in two
    chunks, and white space between them. *)
Definition twoQueens : list RoomItem :=
  [ BedTypeElement [] ["Queen"];
    OtherEvent (text " ");
    BedTypeElement [] ["Qu"; "een"] ].

(** A rate element holding a board tag. *)
Definition boardOnly : list SaxEvent :=
  element "Board" [] [text "Breakfast"].

(** A feed with a room inside a hotel wrapper, then a room after the
    wrapper, then a room after the wrapper has closed. *)
Definition roomAfterHotelClosed : list SaxEvent :=
  element "Hotels" []
    (element "Hotel" [("HotelCode", "H1")]
       (element "Room" [("name", "A")] [])
     ++ element "Room" [("name", "B")] []).

Definition sampleEnv : ParserEnv :=
  mkParserEnv (fun _ => "rate_generated") (fun _ => 0).

End ParserSpec.

Module ServiceSpec.
Import Js Stays MappingService.
Local Open Scope service_scope.

(** Steps 2 and 3 of [mapRoom] as one computation: the room mapping is
    refreshed or created, and the identifier of its room is returned
    with the room row that conflict detection will read. *)
Definition upsertMapping (env : ServiceEnv) (hotelMapping : HotelMapping)
    (roomSourceId source : string) (roomData : StaysRoom)
    (confidence : Q) (mappingType : MappingType) (isPrimary : bool)
  : M (Id * option Room) :=
  existingMapping <- findFirst roomMappings
                       (sameMappingKey source roomSourceId
                                       (hm_id hotelMapping)) ;;
  match existingMapping with
  | Some existingMapping =>
      joined <- findFirst rooms
                  (fun r => String.eqb (room_id r)
                                       (rm_roomId existingMapping)) ;;
      now <- newDate env ;;
      update roomMappings set_roomMappings rm_id
             (rm_id existingMapping)
             (refreshMapping existingMapping roomData now
                             (calculateQualityScore roomData) confidence
                             mappingType) ;;
      ret (rm_roomId existingMapping, joined)
  | None =>
      existingRoom <- findFirst rooms
                        (fun r => (String.eqb (room_hotelId r)
                                              (hm_hotelId hotelMapping)
                                   && String.eqb (room_name r)
                                                 (name roomData))%bool) ;;
      currentRoom <-
        match existingRoom with
        | Some existingRoom => ret existingRoom
        | None =>
            create env rooms set_rooms
                   (fun id =>
                      mkRoomRow id (hm_hotelId hotelMapping)
                                (name roomData)
                                (describe (attributes roomData))
                                (Some (occupancyOrDefault
                                         (max_occupancy roomData))))
        end ;;
      now <- newDate env ;;
      create env roomMappings set_roomMappings
             (fun id =>
                mkRoomMapping id (room_id currentRoom)
                              (hm_id hotelMapping) source roomSourceId
                              roomData confidence mappingType
                              isPrimary now
                              (calculateQualityScore roomData)) ;;
      ret (room_id currentRoom, Some currentRoom)
  end.

(** Steps 3.5 and 4 of [mapRoom]. *)
Definition afterMapping (env : ServiceEnv) (source : string)
    (roomData : StaysRoom) (found : Id * option Room) : M unit :=
  match snd found with
  | Some currentRoom =>
      detectAndRecordConflicts env currentRoom source roomData
  | None => ret tt
  end ;;
  (if nonEmpty (photos roomData)
   then upsertRoomEnrichment env (fst found) source "images"
                             (PhotosContent (photos roomData)) "pending"
   else ret tt) ;;
  (if nonEmpty (amenities roomData)
   then upsertRoomEnrichment env (fst found) source "amenities"
                             (AmenitiesContent (amenities roomData))
                             "pending"
   else ret tt).

Definition confidenceOf (options : RoomMappingOptions) : Q :=
  match confidence options with Some c => c | None => (8 # 10)%Q end.

Definition mappingTypeOf (options : RoomMappingOptions) : MappingType :=
  match mappingType options with Some t => t | None => automatic end.

Definition isPrimaryOf (options : RoomMappingOptions) : bool :=
  match isPrimary options with Some b => b | None => false end.

(** The [where] clause of the hotel mapping lookup. *)
Definition hotelKey (source hotelSourceId : string) (h : HotelMapping)
  : bool :=
  (String.eqb (hm_source h) source
   && String.eqb (hm_sourceId h) hotelSourceId)%bool.

(** The two sides of the occupancy comparison disagree: both are
    present and not zero, and they differ. *)
Definition disagree (internalRoom : Room) (incomingData : StaysRoom)
    (internal incoming : Z) : Prop :=
  room_maxOccupancy internalRoom = Some internal /\
  max_occupancy incomingData = Some (Int incoming) /\
  internal <> 0 /\ incoming <> 0 /\ internal <> incoming.

(** At most one open conflict for every (entityType, entityId,
    fieldName). *)
Definition oneOpenConflictPerKey (l : list MappingConflict) : Prop :=
  forall entityType entityId fieldName,
    (length (filter (openConflictFor entityType entityId fieldName) l)
     <= 1)%nat.

(** The conflict table after a disagreement is recorded: the open
    conflict of the key has the entry of the incoming source replaced
    or appended; without an open conflict one is created, seeded with
    the internal value and the incoming entry. *)
Definition upsertedConflicts (detectedAt internalAt : Z) (id : Id)
    (entityType : string) (entityId : Id) (fieldName source : string)
    (newValue currentValue : JsonValue) (l : list MappingConflict)
  : list MappingConflict :=
  match find (openConflictFor entityType entityId fieldName) l with
  | Some ex =>
      updateRows mc_id (mc_id ex)
        (set_conflictingSources
           (upsertEntry (mkEntry source newValue detectedAt)
                        (mc_conflictingSources ex))) l
  | None =>
      (l ++ [mkConflict id entityType entityId fieldName
                        [mkEntry "internal" currentValue internalAt;
                         mkEntry source newValue detectedAt]
                        open None None])%list
  end.

Definition fromSource (source : string) (e : ConflictEntry) : bool :=
  String.eqb (ce_source e) source.

(** The tables a computation leaves alone. *)
Definition keepsMappings (w w' : World) : Prop :=
  hotelMappings w' = hotelMappings w /\
  roomMappings w' = roomMappings w /\
  rooms w' = rooms w.

Definition keepsConflicts (w w' : World) : Prop :=
  hotelMappings w' = hotelMappings w /\
  mappingConflicts w' = mappingConflicts w.

(** The world after a conflict is marked resolved: the rows with the
    identifier are rewritten, the clock has been read once, and the
    resolved conflict has been emitted. *)
Definition resolvedWorld (env : ServiceEnv)
    (resolutionStrategy : ResolutionStrategy) (conflictId : Id)
    (conflict : MappingConflict) (w : World) : World :=
  mkWorld (hotelMappings w) (roomMappings w) (rooms w)
          (roomContentEnrichments w)
          (updateRows mc_id conflictId
             (markResolved resolutionStrategy (clock env (clockReads w)))
             (mappingConflicts w))
          (idsIssued w) (S (clockReads w)) (warnings w)
          (emitted w
           ++ [markResolved resolutionStrategy (clock env (clockReads w))
                            conflict])%list.

(** The rooms after [{ [fieldName]: value }] is written to the rows
    with identifier [id]. *)
Definition roomsWithField (id : Id) (fieldName : string)
    (value : JsonValue) (l : list Room) : list Room :=
  updateRows room_id id
    (fun row =>
       match assignRoomField fieldName value row with
       | Some row' => row'
       | None => row
       end) l.

Definition byConflictId (conflictId : Id) (c : MappingConflict) : bool :=
  String.eqb (mc_id c) conflictId.

Definition byRoomId (roomId : Id) (r : Room) : bool :=
  String.eqb (room_id r) roomId.

(** Sample data. *)
Definition sampleService : ServiceEnv :=
  mkServiceEnv
    (fun n => String (ascii_of_nat (97 + n)) "_new")
    (fun n => 1000 + Z.of_nat n).

Definition noAttributes : RoomAttributes := mkAttributes None None.

Definition nameAndPhotos : StaysRoom :=
  mkRoom "Standard Room" None [] [mkPhoto "http://example.com/2.jpg"] []
         noAttributes [].

Definition sampleRate : StaysRoomRate :=
  FeedParser.defaultRate ParserSpec.sampleEnv 0 (FeedParser.mkTag "Rate" []).

Definition completeRoom : StaysRoom :=
  mkRoom "Deluxe King" (Some (Int 2)) [mkBed king (Int 1)]
         [mkPhoto "http://example.com/room.jpg"]
         [mkAmenity wifi "Free High Speed Wi-Fi"]
         (mkAttributes (Some "Deluxe") None) [sampleRate].

Definition hotel1 : HotelMapping :=
  mkHotelMapping "hm_1" "provider_b" "h_src_1" "h_1".

Definition room1 : Room :=
  mkRoomRow "r_1" "h_1" "Standard Room" None (Some 2).

Definition incoming (occupancy : Z) : StaysRoom :=
  mkRoom "Standard Room" (Some (Int occupancy)) [] [] [] noAttributes [].

Definition verifiedMapping : RoomMapping :=
  mkRoomMapping "rm_1" "r_1" "hm_1" "provider_b" "r_src_1" nameAndPhotos
                (1 # 1)%Q verified true 5 30.

(** A store with a hand-verified mapping of room r_1. *)
Definition verifiedWorld : World :=
  mkWorld [hotel1] [verifiedMapping] [room1] [] [] 0 0 [] [].

Definition conflict1 : MappingConflict :=
  mkConflict "conf_1" "room" "r_1" "maxOccupancy"
             [mkEntry "internal" (JNumber 2) 10;
              mkEntry "provider_b" (JNumber 4) 11]
             open None None.

(** A store with an open conflict on the occupancy of room r_1, with
    entries internal = 2 and provider_b = 4. *)
Definition conflictWorld : World :=
  mkWorld [hotel1] [] [room1] [] [conflict1] 0 0 [] [].

(** The room a call reconciles against is [r]: the room of the existing
    mapping, or, without a mapping, the room of the hotel with the
    incoming name (found again under its own identifier). *)
Definition canonicalRoom (source roomSourceId : string)
    (hotelMapping : HotelMapping) (roomData : StaysRoom) (w : World)
    (r : Room) : Prop :=
  match find (sameMappingKey source roomSourceId (hm_id hotelMapping))
             (roomMappings w) with
  | Some m => find (byRoomId (rm_roomId m)) (rooms w) = Some r
  | None =>
      find (fun r => (String.eqb (room_hotelId r) (hm_hotelId hotelMapping)
                      && String.eqb (room_name r) (name roomData))%bool)
           (rooms w) = Some r /\
      find (byRoomId (room_id r)) (rooms w) = Some r
  end.

(** The open conflict on the occupancy of a room. *)
Definition occupancyConflictOf (r : Room) : MappingConflict -> bool :=
  openConflictFor "room" (room_id r) "maxOccupancy".

Definition hotelInternal : HotelMapping :=
  mkHotelMapping "hm_i" "internal" "h_src_1" "h_1".

(** A store in which a supplier is itself named "internal". *)
Definition internalSourceWorld : World :=
  mkWorld [hotelInternal] [] [room1] [] [] 0 0 [] [].

(** A store with room r_1 and the hotel mapping of provider_b, without
    room mappings or conflicts. *)
Definition freshWorld : World :=
  mkWorld [hotel1] [] [room1] [] [] 0 0 [] [].

(** A store without any hotel mapping. *)
Definition emptyWorld : World := mkWorld [] [] [] [] [] 0 0 [] [].

(** An open conflict on the occupancy of room r_1 with entries of three
    sources. *)
Definition conflict3 : MappingConflict :=
  mkConflict "conf_3" "room" "r_1" "maxOccupancy"
             [mkEntry "internal" (JNumber 2) 10;
              mkEntry "provider_b" (JNumber 4) 11;
              mkEntry "provider_c" (JNumber 3) 12]
             open None None.

(** A store with the mapping of room r_1 and that open conflict. *)
Definition mergeWorld : World :=
  mkWorld [hotel1] [verifiedMapping] [room1] [] [conflict3] 0 0 [] [].



End ServiceSpec.

(* ================================================================== *)
(** ** Further operations of the service                                *)
(* ================================================================== *)

Module ServiceQueries.
Import Js Stays MappingService.
Local Open Scope service_scope.

(** *** [getUnifiedRoomData] *)

(** The object returned for a room: a copy of the room row, with its
    mappings and its enrichment rows (the two [include]s), and the
    [photos] key.

    Modelled from the spec: the schema of the Room table is not among
    the sources, and the data model gives a room no photos column, while
    the merge policy and the repository's test speak of the room's own
    photos.  [rowPhotos r] stands for the [photos] key of the row [r] as
    the database client returns it, [None] when the row has none. *)
Record UnifiedRoom : Type := mkUnified {
  unified_room : Room;
  unified_mappings : list RoomMapping;
  unified_contentEnrichment : list RoomContentEnrichment;
  unified_photos : option Content
}.

Definition isApprovedImages (e : RoomContentEnrichment) : bool :=
  (String.eqb (en_fieldName e) "images"
   && String.eqb (en_quality e) "approved")%bool.

(** A read outside any transaction; [None] is the [null] returned for an
    unknown room.  [{ ...room }] keeps the photos of the row, which the
    content of the first approved images row overrides. *)
Definition getUnifiedRoomData (rowPhotos : Room -> option Content)
    (roomId : Id) (w : World) : option UnifiedRoom :=
  match find (fun r => String.eqb (room_id r) roomId) (rooms w) with
  | None => None
  | Some room =>
      let mappings :=
        filter (fun m => String.eqb (rm_roomId m) (room_id room))
               (roomMappings w) in
      let contentEnrichment :=
        filter (fun e => String.eqb (en_roomId e) (room_id room))
               (roomContentEnrichments w) in
      let imageEnrichment := find isApprovedImages contentEnrichment in
      let photos :=
        match imageEnrichment with
        | Some e => Some (en_content e)
        | None => rowPhotos room
        end in
      Some (mkUnified room mappings contentEnrichment photos)
  end.

(** *** [bulkRecalculateQualityScores] *)

Definition set_qualityScore (v : Z) (m : RoomMapping) : RoomMapping :=
  mkRoomMapping (rm_id m) (rm_roomId m) (rm_hotelMappingId m) (rm_source m)
                (rm_sourceId m) (rm_sourceData m) (rm_confidence m)
                (rm_mappingType m) (rm_isPrimary m) (rm_lastSyncedAt m) v.

(** The loop over the rows read at the start; a row always carries its
    [sourceData] snapshot, so the test [if (mapping.sourceData)] passes.
    The updates run outside any transaction. *)
Fixpoint recalculate (mappings : list RoomMapping) (updatedCount : nat)
  : M nat :=
  match mappings with
  | [] => ret updatedCount
  | mapping :: rest =>
      let newScore := calculateQualityScore (rm_sourceData mapping) in
      if Z.eqb newScore (rm_qualityScore mapping)
      then recalculate rest updatedCount
      else
        update roomMappings set_roomMappings rm_id (rm_id mapping)
               (set_qualityScore newScore) ;;
        recalculate rest (S updatedCount)
  end.

Definition bulkRecalculateQualityScores : M nat :=
  fun w => recalculate (roomMappings w) 0 w.

End ServiceQueries.

(* ================================================================== *)
(** ** The service with its listeners                                   *)
(* ================================================================== *)

Module Subscribers.
Import Js Stays MappingService.
Local Open Scope service_scope.

(** A listener registered with [service.on('conflict:resolved', ...)]:
    called with the resolved conflict it returns ([None]) or throws. *)
Definition Listener : Type := MappingConflict -> option Error.

(** The listeners are called one after the other, in the order of their
    registration; the exception of one of them is not caught, so the
    listeners after it are not called. *)
Fixpoint callListeners (listeners : list Listener) (c : MappingConflict)
  : option Error :=
  match listeners with
  | [] => None
  | listener :: rest =>
      match listener c with
      | Some e => Some e
      | None => callListeners rest c
      end
  end.

(** [this.emit('conflict:resolved', c)]: [EventEmitter.emit] rethrows
    what a listener throws. *)
Definition emit (listeners : list Listener) (c : MappingConflict) : M unit :=
  fun w =>
    let w' :=
      mkWorld (hotelMappings w) (roomMappings w) (rooms w)
              (roomContentEnrichments w) (mappingConflicts w) (idsIssued w)
              (clockReads w) (warnings w) (emitted w ++ [c])%list in
    match callListeners listeners c with
    | None => (Ok tt, w')
    | Some e => (Throw e, w')
    end.

(** [resolveConflict] of a service with the given listeners.  The event
    is emitted after the transaction has committed. *)
Definition resolveConflict (env : ServiceEnv) (listeners : list Listener)
    (conflictId : Id) (resolutionStrategy : ResolutionStrategy)
    (sourceToApply : option string) : M unit :=
  resolvedConflict <-
    transaction (
      conflict <- findFirst mappingConflicts
                    (fun c => String.eqb (mc_id c) conflictId) ;;
      match conflict with
      | None => throw (JsError "Conflict not found")
      | Some conflict =>
          (if (isApplySource resolutionStrategy && truthy sourceToApply)%bool
           then
             let sourceToApply := or_string sourceToApply "" in
             match find (fun s => String.eqb (ce_source s) sourceToApply)
                        (mc_conflictingSources conflict) with
             | None =>
                 throw (JsError ("Source " ++ sourceToApply
                                 ++ " not found in conflict"))
             | Some sourceEntry =>
                 if String.eqb (mc_entityType conflict) "room"
                 then updateRoomField (mc_entityId conflict)
                                      (mc_fieldName conflict)
                                      (ce_value sourceEntry)
                 else ret tt
             end
           else ret tt) ;;
          now <- newDate env ;;
          update mappingConflicts set_mappingConflicts mc_id conflictId
                 (markResolved resolutionStrategy now)
      end) ;;
  emit listeners resolvedConflict.

End Subscribers.

(* ================================================================== *)
(** ** The HTTP surface ([EnterpriseMappingAPI])                        *)
(* ================================================================== *)

Module Api.
Import Js Stays MappingService ServiceQueries.

(** *** The in-memory rate limiter *)

Record RateRecord : Type := mkRateRecord {
  count : Z;
  startTime : Z
}.

Definition rateLimitWindowMs : Z := 15 * 60 * 1000.
Definition rateLimitMax : Z := 100.

(** [requestCounts], a [Map] from IP to its record, in insertion order. *)
Definition RequestCounts : Type := list (string * RateRecord).

Fixpoint getRecord (ip : string) (m : RequestCounts) : option RateRecord :=
  match m with
  | [] => None
  | (k, r) :: rest => if String.eqb k ip then Some r else getRecord ip rest
  end.

(** [Map.set], and the in-place mutation of a record held by the map. *)
Fixpoint setRecord (ip : string) (r : RateRecord) (m : RequestCounts)
  : RequestCounts :=
  match m with
  | [] => [(ip, r)]
  | (k, r0) :: rest =>
      if String.eqb k ip then (k, r) :: rest
      else (k, r0) :: setRecord ip r rest
  end.

Inductive Response : Type :=
| Ok200                          (* res.json(...) *)
| BadRequest400 (error : string)
| Unauthorized401
| NotFound404
| TooManyRequests429
| ServerError500 (error : Error).

(** What a middleware does: answer, or call [next()]. *)
Inductive Verdict : Type :=
| Answer (r : Response)
| Next.

Record Request : Type := mkRequest {
  req_ip : option string;
  req_remoteAddress : option string;
  (** the [x-api-key] header, when it is present once *)
  req_apiKey : option string
}.

Definition clientIp (req : Request) : string :=
  or_string (or_else (req_ip req) (req_remoteAddress req)) "unknown".

Definition rateLimiter (req : Request) (now : Z) (requestCounts : RequestCounts)
  : Verdict * RequestCounts :=
  let ip := clientIp req in
  let record :=
    match getRecord ip requestCounts with
    | Some record => record
    | None => mkRateRecord 0 now
    end in
  (* reset window if expired *)
  let record :=
    if Z.ltb rateLimitWindowMs (now - startTime record)
    then mkRateRecord 0 now else record in
  if Z.leb rateLimitMax (count record)
  then (Answer TooManyRequests429, setRecord ip record requestCounts)
  else (Next, setRecord ip (mkRateRecord (count record + 1) (startTime record))
                        requestCounts).

(** *** Authentication *)

(** [envKey] is [process.env.ENTERPRISE_API_KEY]. *)
Definition authenticate (envKey : option string) (req : Request) : Verdict :=
  let validKey := or_string envKey "dev_secret_key" in
  match req_apiKey req with
  | Some apiKey =>
      if (truthy_string apiKey && String.eqb apiKey validKey)%bool
      then Next else Answer Unauthorized401
  | None => Answer Unauthorized401
  end.

(** *** Routes *)

(** [['keep_internal', 'apply_source'].includes(strategy)] *)
Definition parseStrategy (strategy : string) : option ResolutionStrategy :=
  if String.eqb strategy "keep_internal" then Some keep_internal
  else if String.eqb strategy "apply_source" then Some apply_source
  else None.

(** POST /conflicts/:id/resolve, with [strategy] and [source] read from
    the body.  [listeners] are the listeners of the service, among them
    the one [attachWebSocketServer] registers; whatever
    [resolveConflict] throws, a listener's exception included, is
    answered with 500. *)
Definition postResolve (env : ServiceEnv)
    (listeners : list Subscribers.Listener) (conflictId : Id)
    (strategy : string) (source : option string) (w : World)
  : Response * World :=
  match parseStrategy strategy with
  | None => (BadRequest400 "Invalid resolution strategy", w)
  | Some resolutionStrategy =>
      match Subscribers.resolveConflict env listeners conflictId
                                        resolutionStrategy source w with
      | (Ok _, w') => (Ok200, w')
      | (Throw e, w') => (ServerError500 e, w')
      end
  end.

(** GET /rooms/:id/unified *)
Definition getUnified (rowPhotos : Room -> option Content) (roomId : Id)
    (w : World) : Response * option UnifiedRoom :=
  match getUnifiedRoomData rowPhotos roomId w with
  | None => (NotFound404, None)
  | Some data => (Ok200, Some data)
  end.

(** The state of the server: the limiter's map and the datastore. *)
Record Server : Type := mkServer {
  requestCounts : RequestCounts;
  world : World
}.

(** A request to POST /conflicts/:id/resolve through the router: the
    rate limiter, then authentication, then the route. *)
Definition handleResolve (env : ServiceEnv)
    (listeners : list Subscribers.Listener) (envKey : option string)
    (now : Z) (req : Request) (conflictId : Id) (strategy : string)
    (source : option string) (srv : Server) : Response * Server :=
  match rateLimiter req now (requestCounts srv) with
  | (Answer r, counts) => (r, mkServer counts (world srv))
  | (Next, counts) =>
      match authenticate envKey req with
      | Answer r => (r, mkServer counts (world srv))
      | Next =>
          let (r, w') :=
            postResolve env listeners conflictId strategy source
                        (world srv) in
          (r, mkServer counts w')
      end
  end.

End Api.

(* ================================================================== *)
(** ** Vocabulary of the further properties                             *)
(* ================================================================== *)

Module ExtraSpec.
Import Js Stays FeedParser ParserSpec MappingService ServiceSpec
       ServiceQueries Api.

Definition isLetter (c : ascii) : bool := (is_upper c || is_lower c)%bool.

Definition isAlnum (c : ascii) : bool :=
  (is_upper c || is_lower c || is_digit c)%bool.

(** Every character of a string satisfies [p]. *)
Fixpoint allChars (p : ascii -> bool) (s : string) : bool :=
  match s with
  | EmptyString => true
  | String c r => (p c && allChars p r)%bool
  end.

(** The text is ASCII. *)
Definition isAscii (s : string) : bool :=
  allChars (fun c => Nat.ltb (nat_of_ascii c) 128) s.

(** A delivery carries a room with a non-empty name. *)
Definition named (d : StaysRoom * option string * option string) : bool :=
  truthy_string (name (fst (fst d))).

Definition isRoomClose (e : SaxEvent) : bool :=
  match e with
  | closetag tag => isRoomTag (tag_name tag)
  | _ => false
  end.

Definition isRoomOpen (e : SaxEvent) : bool :=
  match e with
  | opentag tag => isRoomTag (tag_name tag)
  | _ => false
  end.

Definition isHotelEvent (e : SaxEvent) : bool :=
  match e with
  | opentag tag => isHotelTag (tag_name tag)
  | closetag tag => isHotelTag (tag_name tag)
  | text _ => false
  end.

(** At most one mapping row for every (source, sourceId,
    hotelMappingId). *)
Definition oneMappingPerKey (l : list RoomMapping) : Prop :=
  forall source roomSourceId hotelMappingId,
    (length (filter (sameMappingKey source roomSourceId hotelMappingId) l)
     <= 1)%nat.

(** The [where] clause of the enrichment lookup. *)
Definition enrichmentKey (roomId : Id) (source fieldName : string)
    (e : RoomContentEnrichment) : bool :=
  (String.eqb (en_roomId e) roomId
   && String.eqb (en_source e) source
   && String.eqb (en_fieldName e) fieldName)%bool.

(** At most one enrichment row for every (roomId, source, fieldName). *)
Definition oneEnrichmentPerKey (l : list RoomContentEnrichment) : Prop :=
  forall roomId source fieldName,
    (length (filter (enrichmentKey roomId source fieldName) l) <= 1)%nat.

(** The [where] clause of the room lookup by hotel and name. *)
Definition roomByName (hotelMapping : HotelMapping) (roomData : StaysRoom)
    (r : Room) : bool :=
  (String.eqb (room_hotelId r) (hm_hotelId hotelMapping)
   && String.eqb (room_name r) (name roomData))%bool.

(** The stored score of a mapping differs from the score of its
    snapshot. *)
Definition stale (m : RoomMapping) : bool :=
  negb (Z.eqb (calculateQualityScore (rm_sourceData m)) (rm_qualityScore m)).

(** A mapping with the score of its snapshot. *)
Definition rescored (m : RoomMapping) : RoomMapping :=
  set_qualityScore (calculateQualityScore (rm_sourceData m)) m.

(** The [data] of the update of an existing enrichment row. *)
Definition refreshEnrichment (content : Content) (quality : string) (now : Z)
    (row : RoomContentEnrichment) : RoomContentEnrichment :=
  mkEnrichment (en_id row) (en_roomId row) (en_source row) (en_fieldName row)
               content quality (Some now).

(** The enrichment table after an upsert: the rows with the identifier
    of the first row of the key are rewritten; without a row of the key
    one is appended. *)
Definition upsertedEnrichments (now : Z) (id roomId : Id)
    (source fieldName : string) (content : Content) (quality : string)
    (l : list RoomContentEnrichment) : list RoomContentEnrichment :=
  match find (enrichmentKey roomId source fieldName) l with
  | Some ex =>
      updateRows en_id (en_id ex) (refreshEnrichment content quality now) l
  | None =>
      (l ++ [mkEnrichment id roomId source fieldName content quality None])%list
  end.

(** The quality an item is stored with. *)
Definition qualityOf (item : EnrichmentItem) : string :=
  match item_quality item with Some q => q | None => "pending" end.

(** An approved images row of a room. *)
Definition approvedImagesOf (roomId : Id) (e : RoomContentEnrichment) : bool :=
  (String.eqb (en_roomId e) roomId && isApprovedImages e)%bool.

(** The enrichment table after step 4 of [mapRoom] for the room
    [roomId]: images, then amenities, each stored as "pending" and only
    when the incoming list is not empty. *)
Definition enrichedBy (roomId : Id) (source : string) (roomData : StaysRoom)
    (imagesAt : Z) (imagesId : Id) (amenitiesAt : Z) (amenitiesId : Id)
    (l : list RoomContentEnrichment) : list RoomContentEnrichment :=
  let l1 :=
    if nonEmpty (photos roomData)
    then upsertedEnrichments imagesAt imagesId roomId source "images"
           (PhotosContent (photos roomData)) "pending" l
    else l in
  if nonEmpty (amenities roomData)
  then upsertedEnrichments amenitiesAt amenitiesId roomId source "amenities"
         (AmenitiesContent (amenities roomData)) "pending" l1
  else l1.

(** A mapping without its score: what a rescoring leaves alone. *)
Definition scoreless (m : RoomMapping) : RoomMapping := set_qualityScore 0 m.

(** A store with a fresh and a stale mapping. *)
Definition staleMapping : RoomMapping :=
  mkRoomMapping "rm_2" "r_1" "hm_1" "provider_b" "r_src_2" completeRoom
                (8 # 10)%Q automatic false 5 0.

Definition scoredWorld : World :=
  mkWorld [hotel1] [verifiedMapping; staleMapping] [room1] [] [] 0 0 [] [].

(** The verdicts the rate limiter gives a client that sends one
    request at each of the given times, and the limiter's map
    afterwards. *)
Fixpoint serve (req : Request) (times : list Z) (m : RequestCounts)
  : list Verdict * RequestCounts :=
  match times with
  | [] => ([], m)
  | now :: rest =>
      let (v, m1) := rateLimiter req now m in
      let (vs, m2) := serve req rest m1 in
      (v :: vs, m2)
  end.

(** A request carrying the development key. *)
Definition devRequest : Request :=
  mkRequest (Some "10.0.0.1") None (Some "dev_secret_key").

(** A request without a key. *)
Definition anonymousRequest : Request :=
  mkRequest (Some "10.0.0.1") None None.

(** A room with a class, a view and an occupancy. *)
Definition oceanSuite : StaysRoom :=
  mkRoom "Ocean Suite" (Some (Int 4)) [] [] []
         (mkAttributes (Some "Deluxe") (Some "Ocean")) [].

(** A room whose view is the empty string and whose occupancy is 0. *)
Definition plainRoom : StaysRoom :=
  mkRoom "Plain Room" (Some (Int 0)) [] [] []
         (mkAttributes (Some "Standard") (Some "")) [].

End ExtraSpec.

(* ================================================================== *)
(** ** Properties of the feed parser                                    *)
(* ================================================================== *)

Module ParserProofs.
Import Js Stays FeedParser ParserSpec.
Local Open Scope list_scope.

Lemma run_app env st a b :
  run env st (a ++ b) = run env (run env st a) b.
Proof. apply fold_left_app. Qed.

Lemma StaysBedType_eqb_eq a b : StaysBedType_eqb a b = true <-> a = b.
Proof. destruct a, b; simpl; split; congruence. Qed.

Lemma StaysBedType_eqb_refl a : StaysBedType_eqb a a = true.
Proof. destruct a; reflexivity. Qed.

Lemma isRoomTag_cases n :
  isRoomTag n = true -> n = "Room" \/ n = "GuestRoom".
Proof.
  unfold isRoomTag. intros H. apply orb_true_iff in H.
  destruct H as [H | H]; apply String.eqb_eq in H; auto.
Qed.

Lemma isRateTag_cases n :
  isRateTag n = true -> n = "Rate" \/ n = "RatePlan".
Proof.
  unfold isRateTag. intros H. apply orb_true_iff in H.
  destruct H as [H | H]; apply String.eqb_eq in H; auto.
Qed.

(** *** How one view of the room under construction evolves

    The handlers are followed once, for any view [f] of the room and any
    preorder [R] on it that the writes to the name, the occupancy, the
    photos, the amenities and the attributes respect.  What the writes to
    the beds and to the rates do to the view is left to each use. *)

Section Frame.
Variable env : ParserEnv.
Variable X : Type.
Variable R : X -> X -> Prop.
Variable f : StaysRoom -> X.
Hypothesis R_refl : forall x, R x x.
Hypothesis R_trans : forall x y z, R x y -> R y z -> R x z.
Hypothesis f_name : forall v r, R (f r) (f (set_name v r)).
Hypothesis f_max_occupancy : forall v r, R (f r) (f (set_max_occupancy v r)).
Hypothesis f_photos : forall v r, R (f r) (f (set_photos v r)).
Hypothesis f_amenities : forall v r, R (f r) (f (set_amenities v r)).
Hypothesis f_attributes : forall v r, R (f r) (f (set_attributes v r)).

Lemma evolves_refl st : evolves R f st st.
Proof. split; [reflexivity | intros r Hr; exists r; auto]. Qed.

Lemma evolves_trans st1 st2 st3 :
  evolves R f st1 st2 -> evolves R f st2 st3 -> evolves R f st1 st3.
Proof.
  intros [D1 R1] [D2 R2]. split; [congruence |].
  intros r Hr. destruct (R1 r Hr) as (r1 & H1 & B1).
  destruct (R2 r1 H1) as (r2 & H2 & B2).
  exists r2. split; [assumption | eauto].
Qed.

Lemma evolves_same st st' :
  currentRoom st' = currentRoom st -> delivered st' = delivered st ->
  evolves R f st st'.
Proof.
  intros HR HD. split; [assumption |].
  intros r Hr. exists r. rewrite HR. auto.
Qed.

Lemma evolves_updRoom u st :
  (forall r, R (f r) (f (u r))) -> evolves R f st (updRoom u st).
Proof.
  intros Hu. split; [reflexivity |].
  intros r Hr. exists (u r). unfold updRoom. simpl. rewrite Hr. auto.
Qed.

Lemma evolves_openHotel tag st : evolves R f st (openHotel tag st).
Proof.
  unfold openHotel. destruct (isHotelTag _); apply evolves_same; reflexivity.
Qed.

Lemma evolves_openBed tag st :
  (String.eqb (tag_name tag) "Bed" = true ->
   forall r,
     R (f r)
       (f (set_beds
             (beds r
              ++ [mkBed (normalizeBedType (or_string (attr tag "type") ""))
                        (parseInt (or_string (attr tag "count") "1"))]) r))) ->
  evolves R f st (openBed tag st).
Proof.
  intros H. unfold openBed.
  destruct (String.eqb (tag_name tag) "Bed"); [| apply evolves_refl].
  apply evolves_updRoom. now apply H.
Qed.

Lemma evolves_openTypeRoom tag st : evolves R f st (openTypeRoom tag st).
Proof.
  unfold openTypeRoom.
  destruct (String.eqb (tag_name tag) "TypeRoom"); [| apply evolves_refl].
  match goal with
  | |- evolves _ _ _ (if _ then set_currentSourceId _ ?s else ?s) =>
      apply evolves_trans with (st2 := s)
  end.
  - apply evolves_updRoom. intros r.
    destruct (truthy (attr tag "name") && negb (truthy_string (name r)))%bool;
      auto.
  - match goal with |- context [if ?b then _ else _] => destruct b end;
      apply evolves_same; reflexivity.
Qed.

Lemma evolves_openPhoto tag st : evolves R f st (openPhoto tag st).
Proof.
  unfold openPhoto.
  destruct (String.eqb (tag_name tag) "Photo" || String.eqb (tag_name tag) "Image")%bool;
    [| apply evolves_refl].
  destruct (or_else (attr tag "url") (attr tag "src")) as [u |];
    [| apply evolves_refl].
  destruct (truthy_string u); [| apply evolves_refl].
  apply evolves_updRoom. auto.
Qed.

Lemma evolves_openAmenity tag st : evolves R f st (openAmenity tag st).
Proof.
  unfold openAmenity.
  destruct (String.eqb (tag_name tag) "Amenity"); [| apply evolves_refl].
  apply evolves_updRoom. auto.
Qed.

Lemma evolves_openRate tag st : evolves R f st (openRate env tag st).
Proof.
  unfold openRate. destruct (isRateTag _); apply evolves_same; reflexivity.
Qed.

(** An opening tag other than a room tag. *)
Lemma evolves_onOpenTag tag st :
  isRoomTag (tag_name tag) = false ->
  (String.eqb (tag_name tag) "Bed" = true ->
   forall r,
     R (f r)
       (f (set_beds
             (beds r
              ++ [mkBed (normalizeBedType (or_string (attr tag "type") ""))
                        (parseInt (or_string (attr tag "count") "1"))]) r))) ->
  evolves R f st (onOpenTag env tag st).
Proof.
  intros Hroom Hbed. unfold onOpenTag.
  set (st0 := set_textBuffer "" (set_currentTag (Some (tag_name tag)) st)).
  assert (K1 : evolves R f st (openRoom tag (openHotel tag st0))).
  { unfold openRoom. rewrite Hroom.
    apply evolves_trans with (st2 := st0).
    - apply evolves_same; reflexivity.
    - apply evolves_openHotel. }
  destruct (currentRoom (openRoom tag (openHotel tag st0))); [| exact K1].
  eapply evolves_trans; [exact K1 |].
  eapply evolves_trans; [apply evolves_openBed; exact Hbed |].
  eapply evolves_trans; [apply evolves_openTypeRoom |].
  eapply evolves_trans; [apply evolves_openPhoto |].
  eapply evolves_trans; [apply evolves_openAmenity |].
  apply evolves_openRate.
Qed.

Lemma evolves_onText s st : evolves R f st (onText s st).
Proof.
  unfold onText. destruct (currentRoom st);
    [apply evolves_same; reflexivity | apply evolves_refl].
Qed.

Lemma view_closeRoomField n content r :
  (String.eqb n "BedType" = true ->
   R (f r) (f (set_beds (addBedType (normalizeBedType content) (beds r)) r))) ->
  R (f r) (f (closeRoomField n content r)).
Proof.
  intros H. unfold closeRoomField.
  repeat match goal with
         | |- context [if ?b then _ else _] => destruct b
         end; auto.
Qed.

(** A closing tag other than a room tag. *)
Lemma evolves_onCloseTag tag st :
  isRoomTag (tag_name tag) = false ->
  (String.eqb (tag_name tag) "BedType" = true ->
   forall content r,
     R (f r) (f (set_beds (addBedType (normalizeBedType content) (beds r)) r))) ->
  (isRateTag (tag_name tag) = true ->
   forall rate r, R (f r) (f (set_rates (rates r ++ [rate]) r))) ->
  evolves R f st (onCloseTag tag st).
Proof.
  intros Hroom Hbed Hrate. unfold onCloseTag.
  destruct (currentRoom st) eqn:E; [| apply evolves_refl].
  set (st1 := if isHotelTag (tag_name tag)
              then set_currentHotelId None st else st).
  assert (K1 : evolves R f st st1).
  { unfold st1. destruct (isHotelTag _);
      [apply evolves_same; reflexivity | apply evolves_refl]. }
  assert (K2 : forall c s0, evolves R f s0 (closeRoomPart tag c s0)).
  { intros c s0. unfold closeRoomPart, closeRoom. rewrite Hroom.
    apply evolves_trans
      with (st2 := updRoom (closeRoomField (tag_name tag) c) s0).
    - apply evolves_updRoom. intros r. apply view_closeRoomField.
      intros Hn. now apply Hbed.
    - apply evolves_same; reflexivity. }
  destruct (currentRate st1) as [rate |].
  - destruct (isRateTag (tag_name tag)).
    + eapply evolves_trans; [exact K1 |].
      apply evolves_trans
        with (st2 := updRoom (fun r => set_rates (rates r ++ [rate]) r) st1).
      * apply evolves_updRoom. intros r. now apply Hrate.
      * apply evolves_same; reflexivity.
    + eapply evolves_trans; [exact K1 |].
      eapply evolves_trans; [| apply K2].
      apply evolves_same; reflexivity.
  - eapply evolves_trans; [exact K1 | apply K2].
Qed.

End Frame.

(** *** Beds of one type *)

Section Beds.
Variable env : ParserEnv.
Variable t : StaysBedType.

(** An event that is neither a room boundary, nor the end of a BedType
    element, nor a [Bed] tag of type [t], leaves the beds of type [t]
    alone and delivers nothing. *)
Lemma keepsBeds_step e st :
  otherOk t e = true -> keepsBeds t st (step env st e).
Proof.
  intros H. unfold keepsBeds. destruct e as [tag | s | tag]; simpl in *.
  - apply andb_true_iff in H. destruct H as [Hroom Hbed].
    apply negb_true_iff in Hroom. apply negb_true_iff in Hbed.
    apply evolves_onOpenTag; try (intros; reflexivity);
      [intros; congruence | exact Hroom |].
    intros Hname r. rewrite Hname in Hbed. simpl in Hbed.
    simpl. unfold bedsOfType. rewrite filter_app. simpl.
    rewrite Hbed. symmetry. apply app_nil_r.
  - apply evolves_onText; intros; reflexivity.
  - apply andb_true_iff in H. destruct H as [Hroom Hbed].
    apply negb_true_iff in Hroom. apply negb_true_iff in Hbed.
    apply evolves_onCloseTag; try (intros; reflexivity);
      [intros; congruence | exact Hroom |].
    intros Hname. congruence.
Qed.

Lemma append_nil_r s : (s ++ "")%string = s.
Proof. induction s; simpl; congruence. Qed.

Lemma append_assoc a b c : ((a ++ b) ++ c)%string = (a ++ (b ++ c))%string.
Proof. induction a; simpl; congruence. Qed.

Lemma run_texts chunks : forall st r,
  currentRoom st = Some r ->
  run env st (map text chunks)
  = set_textBuffer (textBuffer st ++ textOf chunks) st.
Proof.
  induction chunks as [| c cs IH]; intros st r Hr; simpl.
  - rewrite append_nil_r. destruct st; reflexivity.
  - unfold onText at 1. rewrite Hr.
    change (fold_left (step env) (map text cs) ?s)
      with (run env s (map text cs)).
    rewrite (IH _ r) by exact Hr. simpl.
    rewrite append_assoc. reflexivity.
Qed.

Lemma bumpFirst_spec bs :
  match bumpFirst t bs with
  | None => bedsOfType t bs = []
  | Some bs' =>
      exists b rest,
        bedsOfType t bs = b :: rest /\
        bedsOfType t bs' = mkBed (bed_type b) (incr (bed_count b)) :: rest
  end.
Proof.
  induction bs as [| b bs IH]; simpl; [reflexivity |].
  destruct (StaysBedType_eqb (bed_type b) t) eqn:E.
  - exists b, (bedsOfType t bs). simpl. rewrite E. auto.
  - destruct (bumpFirst t bs) as [bs' |]; simpl.
    + destruct IH as (b0 & rest & H1 & H2). exists b0, rest.
      rewrite E. auto.
    + exact IH.
Qed.

Lemma bedsOfType_addBedType bs :
  bedsOfType t (addBedType t bs)
  = match bedsOfType t bs with
    | [] => [mkBed t (Int 1)]
    | b :: rest => mkBed (bed_type b) (incr (bed_count b)) :: rest
    end.
Proof.
  unfold addBedType. pose proof (bumpFirst_spec bs) as H.
  destruct (bumpFirst t bs) as [bs' |].
  - destruct H as (b & rest & H1 & H2). rewrite H1. exact H2.
  - unfold bedsOfType in *. rewrite filter_app, H. simpl.
    rewrite StaysBedType_eqb_refl. reflexivity.
Qed.

Lemma expectedBeds_next k bs :
  bedsOfType t bs = expectedBeds t k ->
  bedsOfType t (addBedType t bs) = expectedBeds t (S k).
Proof.
  intros H. rewrite bedsOfType_addBedType, H.
  destruct k; [reflexivity |].
  cbn [expectedBeds bed_type bed_count incr]. do 3 f_equal. lia.
Qed.

(** One [<BedType>text</BedType>] element inside a room adds its
    normalized type to the bed list by [addBedType]. *)
Lemma run_bedTypeElement a chunks st r :
  currentRoom st = Some r ->
  let st' := run env st (itemEvents (BedTypeElement a chunks)) in
  delivered st' = delivered st /\
  exists r',
    currentRoom st' = Some r' /\
    beds r' = addBedType (normalizeBedType (trim (textOf chunks))) (beds r).
Proof.
  intros Hr. unfold itemEvents, element, run.
  cbn [fold_left step].
  change (fold_left (step env) ?l ?s) with (run env s l).
  rewrite run_app.
  assert (Hopen : onOpenTag env (mkTag "BedType" a) st
                  = set_textBuffer "" (set_currentTag (Some "BedType") st)).
  { unfold onOpenTag. simpl. rewrite Hr. reflexivity. }
  rewrite Hopen.
  rewrite (run_texts chunks _ r) by exact Hr.
  cbn [run fold_left step]. unfold onCloseTag. simpl. rewrite Hr.
  destruct (currentRate st); simpl; rewrite Hr; simpl; eauto.
Qed.

Lemma run_items items : forall st r k,
  currentRoom st = Some r ->
  bedsOfType t (beds r) = expectedBeds t k ->
  forallb (itemOk t) items = true ->
  let st' := run env st (flat_map itemEvents items) in
  delivered st' = delivered st /\
  exists r',
    currentRoom st' = Some r' /\
    bedsOfType t (beds r') = expectedBeds t (k + countBedTypes items).
Proof.
  induction items as [| i items IH]; intros st r k Hr Hb Hok.
  - simpl. split; [reflexivity |]. exists r.
    unfold countBedTypes. simpl. rewrite Nat.add_0_r. auto.
  - simpl in Hok. apply andb_true_iff in Hok. destruct Hok as [Hi Hok].
    cbn [flat_map]. rewrite run_app.
    destruct i as [a chunks | e].
    + destruct (run_bedTypeElement a chunks st r Hr) as (D & r1 & H1 & B1).
      simpl in Hi. apply StaysBedType_eqb_eq in Hi. rewrite Hi in B1.
      assert (Hb1 : bedsOfType t (beds r1) = expectedBeds t (S k)).
      { rewrite B1. now apply expectedBeds_next. }
      destruct (IH _ r1 (S k) H1 Hb1 Hok) as (D' & r' & H' & B').
      split; [cbn zeta in *; congruence |].
      exists r'. split; [exact H' |].
      unfold countBedTypes in *. simpl.
      rewrite B'. f_equal. lia.
    + simpl in Hi.
      destruct (keepsBeds_step e st Hi) as (D & K).
      destruct (K r Hr) as (r1 & H1 & B1).
      assert (Hb1 : bedsOfType t (beds r1) = expectedBeds t k)
        by congruence.
      cbn [itemEvents run fold_left].
      destruct (IH _ r1 k H1 Hb1 Hok) as (D' & r' & H' & B').
      split; [cbn zeta in *; congruence |].
      exists r'. split; [exact H' |].
      unfold countBedTypes in *. simpl. exact B'.
Qed.

End Beds.

(** Opening a room tag starts a room with no beds and delivers
    nothing. *)
Lemma open_room_tag env tag st :
  isRoomTag (tag_name tag) = true ->
  currentRoom (onOpenTag env tag st) = Some (newRoom tag) /\
  delivered (onOpenTag env tag st) = delivered st.
Proof.
  intros H. destruct tag as [n a]. simpl in H.
  destruct (isRoomTag_cases n H) as [-> | ->]; split; reflexivity.
Qed.

(** Closing a room tag delivers the room under construction when it has
    a name. *)
Lemma close_room_tag tag st r :
  isRoomTag (tag_name tag) = true ->
  currentRoom st = Some r ->
  delivered (onCloseTag tag st)
  = delivered st
    ++ (if truthy_string (name r)
        then [(r, currentSourceId st, currentHotelId st)] else []).
Proof.
  intros H Hr. destruct tag as [n a]. simpl in H.
  assert (Hf : forall c, closeRoomField n c r = r)
    by (intros c; destruct (isRoomTag_cases n H) as [-> | ->]; reflexivity).
  assert (Hh : isHotelTag n = false)
    by (destruct (isRoomTag_cases n H) as [-> | ->]; reflexivity).
  assert (Hrt : isRateTag n = false)
    by (destruct (isRoomTag_cases n H) as [-> | ->]; reflexivity).
  unfold onCloseTag. rewrite Hr. cbn [tag_name]. rewrite Hh.
  destruct (currentRate st) eqn:ER; rewrite ?Hrt;
    unfold closeRoomPart, closeRoom, updRoom; cbn [tag_name]; rewrite H;
    simpl; rewrite Hr; simpl; rewrite Hf;
    destruct (truthy_string (name r)); simpl;
    rewrite ?app_nil_r; reflexivity.
Qed.

(** C7. A room element whose BedType elements all have content that
    normalizes to the bed type [t], and that holds no [Bed] tag of type
    [t], is finished with exactly one bed of type [t], counted as many
    times as there are BedType elements; that room is what [onRoomFound]
    receives when the element closes (a room without a name is not
    delivered). *)
Theorem bedtype_elements_aggregate :
  forall env st (openT closeT : SaxesTag) (items : list RoomItem)
         (t : StaysBedType),
    isRoomTag (tag_name openT) = true ->
    isRoomTag (tag_name closeT) = true ->
    forallb (itemOk t) items = true ->
    (1 <= countBedTypes items)%nat ->
    let st' := run env st (opentag openT :: flat_map itemEvents items) in
    exists room,
      currentRoom st' = Some room /\
      bedsOfType t (beds room)
      = [mkBed t (Int (Z.of_nat (countBedTypes items)))] /\
      delivered (run env st' [closetag closeT])
      = delivered st
        ++ (if truthy_string (name room)
            then [(room, currentSourceId st', currentHotelId st')]
            else []).
Proof.
  intros env st openT closeT items t Ho Hc Hok Hn st'.
  destruct (open_room_tag env openT st Ho) as (Hr0 & D0).
  assert (Hb0 : bedsOfType t (beds (newRoom openT)) = expectedBeds t 0)
    by reflexivity.
  destruct (run_items env t items _ _ 0%nat Hr0 Hb0 Hok)
    as (D & room & Hroom & Hbeds).
  exists room. subst st'. cbn [run fold_left step] in *.
  change (fold_left (step env) ?l ?s) with (run env s l) in *.
  split; [exact Hroom |]. split.
  - rewrite Hbeds. simpl.
    destruct (countBedTypes items); [lia | reflexivity].
  - rewrite (close_room_tag closeT _ room Hc Hroom). congruence.
Qed.

Lemma bedtype_elements_aggregate_witness :
  let st' := run sampleEnv initialState
               (opentag (mkTag "Room" [("name", "Suite")])
                :: flat_map itemEvents twoQueens) in
  exists room,
    currentRoom st' = Some room /\
    bedsOfType queen (beds room) = [mkBed queen (Int 2)] /\
    delivered (run sampleEnv st' [closetag (mkTag "Room" [("name", "Suite")])])
    = [] ++ (if truthy_string (name room)
             then [(room, currentSourceId st', currentHotelId st')]
             else []).
Proof.
  apply (bedtype_elements_aggregate sampleEnv initialState
           (mkTag "Room" [("name", "Suite")])
           (mkTag "Room" [("name", "Suite")]) twoQueens queen);
    [reflexivity | reflexivity | reflexivity | vm_compute; lia].
Defined.

(** *** Rates *)

Section Rates.
Variable env : ParserEnv.

Lemma extends_refl {A} (l : list A) : extends l l.
Proof. exists []. symmetry. apply app_nil_r. Qed.

Lemma extends_trans {A} (a b c : list A) :
  extends a b -> extends b c -> extends a c.
Proof.
  intros [m1 ->] [m2 ->]. exists (m1 ++ m2). symmetry. apply app_assoc.
Qed.

(** An event inside a rate element that is no room or rate boundary
    leaves the rates of the room alone. *)
Lemma keepsRates_step e st :
  rateBodyEvent e = true -> keepsRates st (step env st e).
Proof.
  intros H. unfold keepsRates. destruct e as [tag | s | tag]; simpl in *.
  - apply andb_true_iff in H. destruct H as [Hroom _].
    apply negb_true_iff in Hroom.
    apply evolves_onOpenTag; try (intros; reflexivity);
      [intros; congruence | exact Hroom].
  - apply evolves_onText; intros; reflexivity.
  - apply andb_true_iff in H. destruct H as [H _].
    apply andb_true_iff in H. destruct H as [Hroom Hrate].
    apply negb_true_iff in Hroom. apply negb_true_iff in Hrate.
    apply evolves_onCloseTag; try (intros; reflexivity);
      [intros; congruence | exact Hroom |].
    intros Hr. congruence.
Qed.

(** An event inside a room delivers nothing and only adds rates at the
    end of the room's rate list. *)
Lemma growsRates_step e st :
  insideRoom e = true -> growsRates st (step env st e).
Proof.
  intros H. unfold growsRates. destruct e as [tag | s | tag]; simpl in *.
  - apply negb_true_iff in H.
    apply evolves_onOpenTag;
      try (intros; apply extends_refl);
      [apply extends_trans | exact H].
  - apply evolves_onText. intros; apply extends_refl.
  - apply negb_true_iff in H.
    apply evolves_onCloseTag;
      try (intros; apply extends_refl);
      [apply extends_trans | exact H |].
    intros _ rate r. exists [rate]. reflexivity.
Qed.

Lemma growsRates_run events : forall st,
  forallb insideRoom events = true -> growsRates st (run env st events).
Proof.
  induction events as [| e events IH]; intros st H; simpl.
  - apply evolves_refl. apply extends_refl.
  - simpl in H. apply andb_true_iff in H. destruct H as [He H].
    eapply evolves_trans;
      [apply extends_trans | apply growsRates_step; exact He |].
    apply IH. exact H.
Qed.

Lemma currentRate_nested tag st :
  isRateTag (tag_name tag) = false ->
  currentRate
    (openRate env tag
       (openAmenity tag (openPhoto tag (openTypeRoom tag (openBed tag st)))))
  = currentRate st.
Proof.
  intros Hrate. unfold openRate. rewrite Hrate.
  unfold openAmenity, openPhoto, openTypeRoom, openBed.
  repeat match goal with
         | |- context [if ?b then _ else _] => destruct b; simpl
         | |- context [match ?o with Some _ => _ | None => _ end] =>
             destruct o; simpl
         end; reflexivity.
Qed.

Lemma money_closeRateField tag content rate :
  isAmountTag (tag_name tag) = false ->
  money (closeRateField tag content rate) = money rate.
Proof.
  unfold closeRateField, isAmountTag. intros ->.
  repeat match goal with
         | |- context [if ?b then _ else _] => destruct b
         end; reflexivity.
Qed.

Lemma currentRate_closeRoomPart tag content st :
  currentRate (closeRoomPart tag content st) = currentRate st.
Proof.
  unfold closeRoomPart, closeRoom.
  destruct (isRoomTag _); [| reflexivity].
  simpl. destruct (currentRoom st) as [r |]; simpl; [| reflexivity].
  destruct (truthy_string _); reflexivity.
Qed.

(** An event inside a rate element that is no room or rate boundary and
    no end of an amount tag leaves the monetary fields of the open rate
    alone. *)
Lemma money_step e st :
  rateBodyEvent e = true ->
  option_map money (currentRate (step env st e))
  = option_map money (currentRate st).
Proof.
  intros H. destruct e as [tag | s | tag]; simpl in *.
  - apply andb_true_iff in H. destruct H as [Hroom Hrate].
    apply negb_true_iff in Hroom. apply negb_true_iff in Hrate.
    unfold onOpenTag.
    set (st0 := set_textBuffer "" (set_currentTag (Some (tag_name tag)) st)).
    assert (K1 : currentRate (openRoom tag (openHotel tag st0))
                 = currentRate st).
    { unfold openRoom, openHotel. rewrite Hroom.
      destruct (isHotelTag _); reflexivity. }
    destruct (currentRoom (openRoom tag (openHotel tag st0)));
      [| now rewrite K1].
    now rewrite currentRate_nested, K1.
  - unfold onText. destruct (currentRoom st); reflexivity.
  - apply andb_true_iff in H. destruct H as [H Hamount].
    apply andb_true_iff in H. destruct H as [Hroom Hrate].
    apply negb_true_iff in Hrate. apply negb_true_iff in Hamount.
    unfold onCloseTag.
    destruct (currentRoom st); [| reflexivity].
    assert (K1 : currentRate (if isHotelTag (tag_name tag)
                              then set_currentHotelId None st else st)
                 = currentRate st)
      by (destruct (isHotelTag _); reflexivity).
    rewrite K1. destruct (currentRate st) as [rate |] eqn:ER.
    + rewrite Hrate, currentRate_closeRoomPart. simpl.
      now rewrite money_closeRateField.
    + now rewrite currentRate_closeRoomPart, K1.
Qed.

Lemma money_run body : forall st,
  forallb rateBodyEvent body = true ->
  option_map money (currentRate (run env st body))
  = option_map money (currentRate st).
Proof.
  induction body as [| e body IH]; intros st H; simpl; [reflexivity |].
  simpl in H. apply andb_true_iff in H. destruct H as [He H].
  change (fold_left (step env) body ?s) with (run env s body).
  rewrite (IH _ H). now apply money_step.
Qed.

Lemma keepsRates_run body : forall st,
  forallb rateBodyEvent body = true -> keepsRates st (run env st body).
Proof.
  induction body as [| e body IH]; intros st H; simpl.
  - apply evolves_refl. reflexivity.
  - simpl in H. apply andb_true_iff in H. destruct H as [He H].
    eapply evolves_trans;
      [intros; congruence | apply keepsRates_step; exact He |].
    apply IH. exact H.
Qed.

Lemma insideRoom_rateBodyEvent e : rateBodyEvent e = true -> insideRoom e = true.
Proof.
  destruct e as [tag | s | tag]; simpl; [| reflexivity |];
    rewrite !andb_true_iff; tauto.
Qed.

(** Opening a rate tag inside a room starts the default rate. *)
Lemma open_rate_tag tag st room :
  isRateTag (tag_name tag) = true ->
  currentRoom st = Some room ->
  currentRoom (onOpenTag env tag st) = Some room /\
  currentRate (onOpenTag env tag st)
  = Some (defaultRate env (ratesOpened st) tag).
Proof.
  intros H Hr. destruct tag as [n a]. simpl in H.
  destruct (isRateTag_cases n H) as [-> | ->];
    unfold onOpenTag; simpl; rewrite Hr; simpl; auto.
Qed.

(** Closing a rate tag appends the open rate to the room's rates. *)
Lemma close_rate_tag tag st room rate :
  isRateTag (tag_name tag) = true ->
  currentRoom st = Some room ->
  currentRate st = Some rate ->
  currentRoom (onCloseTag tag st)
  = Some (set_rates (rates room ++ [rate]) room).
Proof.
  intros H Hr Hrate. destruct tag as [n a]. simpl in H.
  destruct (isRateTag_cases n H) as [-> | ->];
    unfold onCloseTag; simpl; rewrite Hr, Hrate; simpl;
    rewrite Hr; reflexivity.
Qed.

(** A rate element inside a room whose content holds no room or rate
    boundary and no end of an [Amount] or [Total] tag adds one rate to
    the room, with the monetary fields every rate starts with. *)
Lemma rate_element_defaults st room (openT closeT : SaxesTag) body :
  currentRoom st = Some room ->
  isRateTag (tag_name openT) = true ->
  isRateTag (tag_name closeT) = true ->
  forallb rateBodyEvent body = true ->
  exists room' rate,
    currentRoom (run env st (opentag openT :: body ++ [closetag closeT]))
    = Some room' /\
    rates room' = rates room ++ [rate] /\
    money rate = moneyDefaults.
Proof.
  intros Hr Ho Hc Hbody.
  destruct (open_rate_tag openT st room Ho Hr) as (R1 & T1).
  destruct (keepsRates_run body (onOpenTag env openT st) Hbody) as (_ & KR).
  pose proof (money_run body (onOpenTag env openT st) Hbody) as KT.
  destruct (KR room R1) as (room1 & E1 & Rates1).
  rewrite T1 in KT. simpl in KT.
  cbn [run fold_left step].
  change (fold_left (step env) ?l ?s) with (run env s l).
  rewrite run_app. cbn [run fold_left step].
  change (fold_left (step env) ?l ?s) with (run env s l) in *.
  destruct (currentRate (run env (onOpenTag env openT st) body))
    as [rate1 |] eqn:E2; [| discriminate].
  exists (set_rates (rates room1 ++ [rate1]) room1), rate1.
  split; [now apply close_rate_tag |].
  cbn [option_map] in KT. split.
  - simpl. congruence.
  - transitivity (money (defaultRate env (ratesOpened st) openT));
      [congruence | reflexivity].
Qed.

End Rates.

(** C5 (as amended). A rate element inside a room whose content holds
    no room or rate boundary and no end of an [Amount] or [Total] tag
    adds one rate to the room, with total amount "0.00", the other four
    amounts absent ([null]), and all five currencies "USD"; and the room
    element that holds it is delivered, when it has a name, with that
    rate among its rates. *)
Theorem rate_keeps_numeric_defaults :
  (forall env st room (openT closeT : SaxesTag) (body : list SaxEvent),
      currentRoom st = Some room ->
      isRateTag (tag_name openT) = true ->
      isRateTag (tag_name closeT) = true ->
      forallb rateBodyEvent body = true ->
      exists room' rate,
        currentRoom (run env st (opentag openT :: body ++ [closetag closeT]))
        = Some room' /\
        rates room' = rates room ++ [rate] /\
        money rate = moneyDefaults) /\
  (forall env st (roomOpen roomClose rateOpen rateClose : SaxesTag)
          (before body after : list SaxEvent),
      isRoomTag (tag_name roomOpen) = true ->
      isRoomTag (tag_name roomClose) = true ->
      isRateTag (tag_name rateOpen) = true ->
      isRateTag (tag_name rateClose) = true ->
      forallb insideRoom before = true ->
      forallb rateBodyEvent body = true ->
      forallb insideRoom after = true ->
      exists room sourceId hotelId rate,
        delivered
          (run env st
               (opentag roomOpen
                :: before
                   ++ (opentag rateOpen :: body ++ [closetag rateClose])
                   ++ after ++ [closetag roomClose]))
        = delivered st
          ++ (if truthy_string (name room)
              then [(room, sourceId, hotelId)] else []) /\
        In rate (rates room) /\
        money rate = moneyDefaults).
Proof.
  split; [intros; now apply rate_element_defaults |].
  intros env st roomOpen roomClose rateOpen rateClose before body after
         Hro Hrc Hto Htc Hbefore Hbody Hafter.
  destruct (open_room_tag env roomOpen st Hro) as (R0 & D0).
  set (s1 := onOpenTag env roomOpen st) in *.
  destruct (growsRates_run env before s1 Hbefore) as (D1 & G1).
  destruct (G1 _ R0) as (room1 & R1 & _).
  set (s2 := run env s1 before) in *.
  destruct (rate_element_defaults env s2 room1 rateOpen rateClose body
              R1 Hto Htc Hbody) as (room2 & rate & R2 & Rates2 & M).
  assert (Hel : forallb insideRoom
                  (opentag rateOpen :: body ++ [closetag rateClose]) = true).
  { simpl. rewrite forallb_app. simpl.
    destruct (isRateTag_cases _ Hto) as [-> | ->];
      destruct (isRateTag_cases _ Htc) as [-> | ->]; simpl;
      rewrite andb_true_r; apply forallb_forall; intros e He;
      apply insideRoom_rateBodyEvent;
      exact (proj1 (forallb_forall _ _) Hbody e He). }
  destruct (growsRates_run env _ s2 Hel) as (D2 & _).
  set (s3 := run env s2 (opentag rateOpen :: body ++ [closetag rateClose]))
    in *.
  destruct (growsRates_run env after s3 Hafter) as (D3 & G3).
  destruct (G3 _ R2) as (room3 & R3 & (more & Rates3)).
  set (s4 := run env s3 after) in *.
  exists room3, (currentSourceId s4), (currentHotelId s4), rate.
  split; [| split; [| exact M]].
  - cbn [run fold_left step].
    change (fold_left (step env) ?l ?s) with (run env s l).
    fold s1. rewrite !run_app. fold s2. fold s3. fold s4.
    cbn [run fold_left step].
    rewrite (close_room_tag roomClose s4 room3 Hrc R3). congruence.
  - rewrite Rates3, Rates2. apply in_or_app. left.
    apply in_or_app. right. now left.
Qed.

Lemma rate_keeps_numeric_defaults_witness :
  exists room' rate,
    currentRoom
      (run sampleEnv
           (run sampleEnv initialState [opentag (mkTag "Room" [("name", "A")])])
           (opentag (mkTag "RatePlan" [("code", "BAR")])
            :: boardOnly ++ [closetag (mkTag "RatePlan" [("code", "BAR")])]))
    = Some room' /\
    rates room' = rates (newRoom (mkTag "Room" [("name", "A")])) ++ [rate] /\
    money rate = moneyDefaults.
Proof.
  apply (proj1 rate_keeps_numeric_defaults sampleEnv
           (run sampleEnv initialState [opentag (mkTag "Room" [("name", "A")])])
           (newRoom (mkTag "Room" [("name", "A")]))
           (mkTag "RatePlan" [("code", "BAR")])
           (mkTag "RatePlan" [("code", "BAR")]) boardOnly);
    reflexivity.
Defined.

(** C5, the claim as stated fails: a rate element without content is
    delivered with its base, tax, fee and due-at-accommodation amounts
    absent, not "0.00". *)
Lemma rate_amounts_not_all_zero :
  let amounts :=
    map (fun d =>
           map (fun r => (total_amount r, base_amount r, tax_amount r,
                          fee_amount r, due_at_accommodation_amount r))
               (rates (fst (fst d))))
        (parse sampleEnv roomWithBareRate) in
  amounts = [[("0.00", None, None, None, None)]] /\
  amounts <> [[("0.00", Some "0.00", Some "0.00", Some "0.00", Some "0.00")]].
Proof.
  vm_compute. split; [reflexivity | discriminate].
Qed.

(** *** Hotel context *)

(** Outside a room the [closetag] handler returns at once. *)
Lemma onCloseTag_outside_room tag st :
  currentRoom st = None -> onCloseTag tag st = st.
Proof. intros H. unfold onCloseTag. now rewrite H. Qed.

(** C6. The wrapper [Hotel] closes outside any room, where the handler
    has already returned: the hotel id set by the wrapper is kept, and
    the room that closes after the wrapper is delivered with it. *)
Theorem hotel_id_survives_wrapper_close :
  forall env,
    map (fun d => (name (fst (fst d)), snd d)) (parse env roomAfterHotelClosed)
    = [("A", Some "H1"); ("B", Some "H1")].
Proof. intros env. vm_compute. reflexivity. Qed.

End ParserProofs.

(* ================================================================== *)
(** ** Properties of the room mapping service                           *)
(* ================================================================== *)

Module ServiceProofs.
Import Js Stays MappingService ServiceSpec.
Local Open Scope list_scope.
Local Open Scope service_scope.

(** *** Quality score *)




(** *** The monad and the table operations *)

Lemma bind_ok {A B} (m : M A) (k : A -> M B) w a w1 :
  m w = (Ok a, w1) -> bind m k w = k a w1.
Proof. intros H. unfold bind. now rewrite H. Qed.

Lemma transaction_ok {A} (m : M A) w a w1 :
  m w = (Ok a, w1) -> transaction m w = (Ok a, w1).
Proof. intros H. unfold transaction. now rewrite H. Qed.

Lemma find_by_id {R} (id_of : R -> Id) p (l : list R) x :
  find p l = Some x ->
  exists y, find (fun r => String.eqb (id_of r) (id_of x)) l = Some y /\
            id_of y = id_of x.
Proof.
  intros H. apply find_some in H. destruct H as [Hin _].
  destruct (find (fun r => String.eqb (id_of r) (id_of x)) l) as [y |] eqn:E.
  - exists y. split; [reflexivity |].
    apply find_some in E. destruct E as [_ E]. now apply String.eqb_eq in E.
  - exfalso. apply (find_none _ _ E) in Hin.
    now rewrite String.eqb_refl in Hin.
Qed.

Lemma update_found {R} (table : World -> list R) set_table id_of data p w x :
  find p (table w) = Some x ->
  exists y,
    update table set_table id_of (id_of x) data w
    = (Ok (data y),
       set_table (updateRows id_of (id_of x) data (table w)) w) /\
    id_of y = id_of x.
Proof.
  intros H. destruct (find_by_id id_of p _ x H) as (y & Hy & Hid).
  exists y. unfold update. rewrite Hy. auto.
Qed.

(** Rewriting rows leaves the rows selected by a predicate the data
    preserves selected, in place. *)
Lemma filter_updateRows {R} (id_of : R -> Id) id (data : R -> R) p l :
  (forall r, p (data r) = p r) ->
  filter p (updateRows id_of id data l)
  = updateRows id_of id data (filter p l).
Proof.
  intros Hp. unfold updateRows. induction l as [| r l IH]; simpl; [reflexivity |].
  destruct (String.eqb (id_of r) id) eqn:E.
  - rewrite Hp. destruct (p r); simpl; rewrite ?E, IH; reflexivity.
  - destruct (p r); simpl; rewrite ?E, IH; reflexivity.
Qed.

Lemma length_updateRows {R} (id_of : R -> Id) id (data : R -> R) l :
  length (updateRows id_of id data l) = length l.
Proof. apply length_map. Qed.

Lemma find_filter_head {R} (p : R -> bool) l :
  find p l = hd_error (filter p l).
Proof.
  induction l as [| r l IH]; simpl; [reflexivity |].
  destruct (p r); simpl; auto.
Qed.

(** *** Enrichment leaves the other tables alone *)

Lemma upsertRoomEnrichment_effect env roomId source fieldName content quality w :
  exists w',
    upsertRoomEnrichment env roomId source fieldName content quality w
    = (Ok tt, w') /\
    keepsMappings w w' /\ keepsConflicts w w'.
Proof.
  unfold upsertRoomEnrichment, bind at 1, findFirst.
  destruct (find _ (roomContentEnrichments w)) as [ex |] eqn:E.
  - unfold bind at 1, newDate.
    match goal with
    | |- context [update ?t ?s ?i ?k ?d] =>
        match goal with
        | |- context [bind _ _ ?w0] =>
            destruct (update_found t s i d _ w0 ex E) as (y & Hy & _)
        end
    end.
    eexists. rewrite (bind_ok _ _ _ _ _ Hy). unfold ret.
    split; [reflexivity |]. split; repeat split; reflexivity.
  - unfold create, freshId, bind, ret. eexists.
    split; [reflexivity |]. split; repeat split; reflexivity.
Qed.

(** *** Conflict recording *)

(** [upsertConflict] always succeeds, and rewrites the conflict table
    as [upsertedConflicts] describes. *)
Lemma upsertConflict_effect env entityType entityId fieldName source
      newValue currentValue w :
  exists w',
    upsertConflict env entityType entityId fieldName source newValue
                   currentValue w = (Ok tt, w') /\
    keepsMappings w w' /\
    mappingConflicts w'
    = upsertedConflicts (clock env (clockReads w))
                        (clock env (S (clockReads w)))
                        (newId env (idsIssued w))
                        entityType entityId fieldName source newValue
                        currentValue (mappingConflicts w).
Proof.
  unfold upsertConflict, upsertedConflicts, bind at 1, findFirst.
  destruct (find _ (mappingConflicts w)) as [ex |] eqn:E.
  - unfold bind at 1, newDate.
    match goal with
    | |- context [update ?t ?s ?i ?k ?d] =>
        match goal with
        | |- context [bind _ _ ?w0] =>
            destruct (update_found t s i d _ w0 ex E) as (y & Hy & _)
        end
    end.
    eexists. rewrite (bind_ok _ _ _ _ _ Hy). unfold ret.
    split; [reflexivity |]. split; [repeat split |]; reflexivity.
  - unfold create, freshId, newDate, bind, ret. eexists.
    split; [reflexivity |]. split; [repeat split |]; reflexivity.
Qed.

Lemma disagree_dec internalRoom incomingData :
  (exists internal incoming,
      disagree internalRoom incomingData internal incoming) \/
  (forall internal incoming,
      ~ disagree internalRoom incomingData internal incoming).
Proof.
  unfold disagree.
  destruct (room_maxOccupancy internalRoom) as [c |];
    [| right; intros c v (H & _); discriminate].
  destruct (max_occupancy incomingData) as [[| v] |];
    [right; intros c' v' (_ & H & _); discriminate | |
     right; intros c' v' (_ & H & _); discriminate].
  destruct (Z.eq_dec c 0) as [-> | Hc];
    [right; intros c' v' (H & _ & H0 & _); congruence |].
  destruct (Z.eq_dec v 0) as [-> | Hv];
    [right; intros c' v' (_ & H & _ & H0 & _); congruence |].
  destruct (Z.eq_dec c v) as [-> | Hcv];
    [right; intros c' v' (H1 & H2 & _ & _ & H0); congruence |].
  left. exists c, v. auto.
Qed.

(** With a disagreement, detection records it. *)
Lemma detect_disagree env internalRoom source incomingData internal incoming w :
  disagree internalRoom incomingData internal incoming ->
  detectAndRecordConflicts env internalRoom source incomingData w
  = upsertConflict env "room" (room_id internalRoom) "maxOccupancy" source
                   (JNumber incoming) (JNumber internal) w.
Proof.
  intros (H1 & H2 & H3 & H4 & H5). unfold detectAndRecordConflicts.
  rewrite H1, H2.
  apply Z.eqb_neq in H3. apply Z.eqb_neq in H4. apply Z.eqb_neq in H5.
  rewrite H3, H4, H5. reflexivity.
Qed.

(** Without one, detection does nothing at all. *)
Lemma detect_agree env internalRoom source incomingData w :
  (forall internal incoming,
      ~ disagree internalRoom incomingData internal incoming) ->
  detectAndRecordConflicts env internalRoom source incomingData w = (Ok tt, w).
Proof.
  intros H. unfold detectAndRecordConflicts, disagree in *.
  destruct (room_maxOccupancy internalRoom) as [c |]; [| reflexivity].
  destruct (max_occupancy incomingData) as [[| v] |]; try reflexivity.
  destruct (Z.eqb_spec c 0); [reflexivity |].
  destruct (Z.eqb_spec v 0); [reflexivity |].
  destruct (Z.eqb_spec c v); [reflexivity |].
  exfalso. apply (H c v). auto.
Qed.

(** *** The phases of [mapRoom] *)

Lemma mapRoom_phases env hotelSourceId roomSourceId source roomData options
      hotelMapping w :
  find (hotelKey source hotelSourceId) (hotelMappings w) = Some hotelMapping ->
  mapRoom env hotelSourceId roomSourceId source roomData options w
  = transaction
      (found <- upsertMapping env hotelMapping roomSourceId source roomData
                              (confidenceOf options) (mappingTypeOf options)
                              (isPrimaryOf options) ;;
       afterMapping env source roomData found) w.
Proof.
  intros H. unfold mapRoom, transaction, bind at 1, findFirst.
  unfold hotelKey in H. rewrite H. reflexivity.
Qed.

(** Without a parent hotel mapping the call only logs a warning. *)
Lemma mapRoom_without_hotel env hotelSourceId roomSourceId source roomData
      options w :
  find (hotelKey source hotelSourceId) (hotelMappings w) = None ->
  exists w',
    mapRoom env hotelSourceId roomSourceId source roomData options w
    = (Ok tt, w') /\
    keepsMappings w w' /\ keepsConflicts w w'.
Proof.
  intros H. unfold mapRoom, transaction, bind at 1, findFirst.
  unfold hotelKey in H. rewrite H. unfold console_warn. eexists.
  split; [reflexivity |]. split; repeat split; reflexivity.
Qed.

(** The mapping phase: an existing mapping is refreshed in place, a new
    one is appended, with its room found by name or created. *)
Lemma upsertMapping_effect env hotelMapping roomSourceId source roomData
      confidence mappingType isPrimary w :
  exists found w1,
    upsertMapping env hotelMapping roomSourceId source roomData confidence
                  mappingType isPrimary w = (Ok found, w1) /\
    keepsConflicts w w1 /\
    match find (sameMappingKey source roomSourceId (hm_id hotelMapping))
               (roomMappings w) with
    | Some m =>
        roomMappings w1
        = updateRows rm_id (rm_id m)
            (refreshMapping m roomData (clock env (clockReads w))
                            (calculateQualityScore roomData) confidence
                            mappingType)
            (roomMappings w) /\
        rooms w1 = rooms w /\
        found = (rm_roomId m,
                 find (fun r => String.eqb (room_id r) (rm_roomId m))
                      (rooms w))
    | None =>
        exists r id now,
          roomMappings w1
          = roomMappings w
            ++ [mkRoomMapping id (room_id r) (hm_id hotelMapping) source
                              roomSourceId roomData confidence mappingType
                              isPrimary now
                              (calculateQualityScore roomData)] /\
          found = (room_id r, Some r) /\
          match find (fun r => (String.eqb (room_hotelId r)
                                           (hm_hotelId hotelMapping)
                                && String.eqb (room_name r)
                                              (name roomData))%bool)
                     (rooms w) with
          | Some r0 => r = r0 /\ rooms w1 = rooms w
          | None =>
              r = mkRoomRow (newId env (idsIssued w))
                            (hm_hotelId hotelMapping) (name roomData)
                            (describe (attributes roomData))
                            (Some (occupancyOrDefault
                                     (max_occupancy roomData))) /\
              rooms w1 = rooms w ++ [r]
          end
    end.
Proof.
  unfold upsertMapping, bind at 1, findFirst.
  destruct (find _ (roomMappings w)) as [m |] eqn:E.
  - unfold bind at 1. unfold bind at 1, newDate.
    match goal with
    | |- context [update ?t ?s ?i ?k ?d] =>
        match goal with
        | |- context [bind _ _ ?w0] =>
            destruct (update_found t s i d _ w0 m E) as (y & Hy & _)
        end
    end.
    do 2 eexists. rewrite (bind_ok _ _ _ _ _ Hy). unfold ret.
    split; [reflexivity |]. split; [split; reflexivity |].
    repeat split; reflexivity.
  - unfold bind at 1.
    destruct (find _ (rooms w)) as [r0 |] eqn:ER.
    + unfold create, freshId, newDate, bind, ret. do 2 eexists.
      split; [reflexivity |]. split; [split; reflexivity |].
      simpl. do 3 eexists. split; [reflexivity |]. split; [reflexivity |].
      split; reflexivity.
    + unfold create, freshId, newDate, bind, ret. do 2 eexists.
      split; [reflexivity |]. split; [split; reflexivity |].
      simpl.
      exists (mkRoomRow (newId env (idsIssued w)) (hm_hotelId hotelMapping)
                        (name roomData) (describe (attributes roomData))
                        (Some (occupancyOrDefault (max_occupancy roomData)))).
      do 2 eexists. split; [reflexivity |]. split; [reflexivity |].
      split; reflexivity.
Qed.

(** The conflict table after the second phase: untouched, or rewritten
    by one recorded disagreement with the room handed over. *)
Lemma afterMapping_effect env source roomData found w1 :
  exists w2,
    afterMapping env source roomData found w1 = (Ok tt, w2) /\
    keepsMappings w1 w2 /\
    match snd found with
    | None => mappingConflicts w2 = mappingConflicts w1
    | Some r =>
        (forall internal incoming,
            disagree r roomData internal incoming ->
            mappingConflicts w2
            = upsertedConflicts (clock env (clockReads w1))
                                (clock env (S (clockReads w1)))
                                (newId env (idsIssued w1))
                                "room" (room_id r) "maxOccupancy" source
                                (JNumber incoming) (JNumber internal)
                                (mappingConflicts w1)) /\
        ((forall internal incoming,
             ~ disagree r roomData internal incoming) ->
         mappingConflicts w2 = mappingConflicts w1)
    end.
Proof.
  unfold afterMapping.
  assert (Hdetect :
    exists wa,
      (match snd found with
       | Some currentRoom =>
           detectAndRecordConflicts env currentRoom source roomData
       | None => ret tt
       end) w1 = (Ok tt, wa) /\
      keepsMappings w1 wa /\
      match snd found with
      | None => mappingConflicts wa = mappingConflicts w1
      | Some r =>
          (forall internal incoming,
              disagree r roomData internal incoming ->
              mappingConflicts wa
              = upsertedConflicts (clock env (clockReads w1))
                                  (clock env (S (clockReads w1)))
                                  (newId env (idsIssued w1))
                                  "room" (room_id r) "maxOccupancy" source
                                  (JNumber incoming) (JNumber internal)
                                  (mappingConflicts w1)) /\
          ((forall internal incoming,
               ~ disagree r roomData internal incoming) ->
           mappingConflicts wa = mappingConflicts w1)
      end).
  { destruct (snd found) as [r |].
    - destruct (disagree_dec r roomData) as [(c & v & Hd) | Hn].
      + destruct (upsertConflict_effect env "room" (room_id r) "maxOccupancy"
                    source (JNumber v) (JNumber c) w1) as (wa & Ha & Ka & Ca).
        exists wa. rewrite (detect_disagree _ _ _ _ _ _ _ Hd).
        split; [exact Ha |]. split; [exact Ka |]. split.
        * intros c' v' Hd'. destruct Hd as (A1 & A2 & _).
          destruct Hd' as (B1 & B2 & _).
          assert (c' = c) by congruence. assert (v' = v) by congruence.
          subst. exact Ca.
        * intros Hn. exfalso. exact (Hn c v Hd).
      + exists w1. rewrite (detect_agree _ _ _ _ _ Hn).
        split; [reflexivity |]. split; [repeat split |].
        split; [| reflexivity].
        intros c v Hd. exfalso. exact (Hn c v Hd).
    - exists w1. split; [reflexivity |]. split; [repeat split | reflexivity]. }
  destruct Hdetect as (wa & Ha & Ka & Ca).
  rewrite (bind_ok _ _ _ _ _ Ha).
  assert (Hphotos :
    exists wb,
      (if nonEmpty (photos roomData)
       then upsertRoomEnrichment env (fst found) source "images"
              (PhotosContent (photos roomData)) "pending"
       else ret tt) wa = (Ok tt, wb) /\
      keepsMappings wa wb /\ keepsConflicts wa wb).
  { destruct (nonEmpty (photos roomData)).
    - apply upsertRoomEnrichment_effect.
    - exists wa. split; [reflexivity |]. split; repeat split. }
  destruct Hphotos as (wb & Hb & Kb & Cb).
  rewrite (bind_ok _ _ _ _ _ Hb).
  assert (Hamen :
    exists wc,
      (if nonEmpty (amenities roomData)
       then upsertRoomEnrichment env (fst found) source "amenities"
              (AmenitiesContent (amenities roomData)) "pending"
       else ret tt) wb = (Ok tt, wc) /\
      keepsMappings wb wc /\ keepsConflicts wb wc).
  { destruct (nonEmpty (amenities roomData)).
    - apply upsertRoomEnrichment_effect.
    - exists wb. split; [reflexivity |]. split; repeat split. }
  destruct Hamen as (wc & Hc & Kc & Cc).
  exists wc. split; [exact Hc |].
  destruct Ka as (K1 & K2 & K3), Kb as (K4 & K5 & K6), Kc as (K7 & K8 & K9).
  destruct Cb as (_ & C1), Cc as (_ & C2).
  split; [repeat split; congruence |].
  destruct (snd found) as [r |].
  - destruct Ca as (P & Q0). split.
    + intros c v Hd. rewrite C2, C1. now apply P.
    + intros Hn. rewrite C2, C1. now apply Q0.
  - congruence.
Qed.

Lemma mapRoom_effect env hotelSourceId roomSourceId source roomData options
      hotelMapping w :
  find (hotelKey source hotelSourceId) (hotelMappings w) = Some hotelMapping ->
  exists found w1 w2,
    upsertMapping env hotelMapping roomSourceId source roomData
                  (confidenceOf options) (mappingTypeOf options)
                  (isPrimaryOf options) w = (Ok found, w1) /\
    afterMapping env source roomData found w1 = (Ok tt, w2) /\
    mapRoom env hotelSourceId roomSourceId source roomData options w
    = (Ok tt, w2).
Proof.
  intros H.
  destruct (upsertMapping_effect env hotelMapping roomSourceId source
              roomData (confidenceOf options) (mappingTypeOf options)
              (isPrimaryOf options) w) as (found & w1 & H1 & _).
  destruct (afterMapping_effect env source roomData found w1)
    as (w2 & H2 & _).
  exists found, w1, w2. split; [exact H1 |]. split; [exact H2 |].
  rewrite (mapRoom_phases _ _ _ _ _ _ _ _ H).
  apply transaction_ok. rewrite (bind_ok _ _ _ _ _ H1). exact H2.
Qed.

Lemma find_updateRows {R} (id_of : R -> Id) (data : R -> R) p l m :
  (forall r, p (data r) = p r) ->
  find p l = Some m ->
  find p (updateRows id_of (id_of m) data l) = Some (data m).
Proof.
  intros Hp. induction l as [| r l IH]; simpl; [discriminate |].
  destruct (p r) eqn:E.
  - intros H. injection H as ->. rewrite String.eqb_refl, Hp, E. reflexivity.
  - intros H. destruct (String.eqb (id_of r) (id_of m));
      rewrite ?Hp, E; auto.
Qed.

Lemma sameMappingKey_refreshMapping source roomSourceId hotelMappingId
      m roomData now score confidence mappingType r :
  sameMappingKey source roomSourceId hotelMappingId
    (refreshMapping m roomData now score confidence mappingType r)
  = sameMappingKey source roomSourceId hotelMappingId r.
Proof. reflexivity. Qed.

(** *** Existing mappings *)

(** C1. A call for the key of an existing mapping refreshes its
    sourceData, qualityScore and lastSyncedAt; confidence and
    mappingType are kept when the mapping is verified and overwritten
    with the supplied or default values otherwise. *)
Theorem mapRoom_refreshes_existing_mapping :
  forall env hotelSourceId roomSourceId source roomData options w
         hotelMapping m,
    find (hotelKey source hotelSourceId) (hotelMappings w)
    = Some hotelMapping ->
    find (sameMappingKey source roomSourceId (hm_id hotelMapping))
         (roomMappings w) = Some m ->
    let call :=
      mapRoom env hotelSourceId roomSourceId source roomData options in
    result call w = Ok tt /\
    exists m',
      find (sameMappingKey source roomSourceId (hm_id hotelMapping))
           (roomMappings (exec call w)) = Some m' /\
      rm_id m' = rm_id m /\
      rm_sourceData m' = roomData /\
      rm_qualityScore m' = calculateQualityScore roomData /\
      rm_lastSyncedAt m' = clock env (clockReads w) /\
      (rm_mappingType m = verified ->
       rm_confidence m' = rm_confidence m /\ rm_mappingType m' = verified) /\
      (rm_mappingType m <> verified ->
       rm_confidence m' = confidenceOf options /\
       rm_mappingType m' = mappingTypeOf options).
Proof.
  intros env hotelSourceId roomSourceId source roomData options w
         hotelMapping m Hh Hm call.
  destruct (mapRoom_effect env hotelSourceId roomSourceId source roomData
              options hotelMapping w Hh) as (found & w1 & w2 & H1 & H2 & H3).
  destruct (upsertMapping_effect env hotelMapping roomSourceId source
              roomData (confidenceOf options) (mappingTypeOf options)
              (isPrimaryOf options) w) as (found' & w1' & H1' & _ & E).
  rewrite H1 in H1'. injection H1' as <- <-.
  rewrite Hm in E. destruct E as (ER & _ & _).
  destruct (afterMapping_effect env source roomData found w1)
    as (w2' & H2' & (_ & K & _) & _).
  rewrite H2 in H2'. injection H2' as <-.
  unfold result, exec, call. rewrite H3. simpl.
  split; [reflexivity |].
  exists (refreshMapping m roomData (clock env (clockReads w))
                         (calculateQualityScore roomData)
                         (confidenceOf options) (mappingTypeOf options) m).
  split.
  - rewrite K, ER. apply find_updateRows; [| exact Hm].
    intros r. apply sameMappingKey_refreshMapping.
  - simpl. repeat split; try reflexivity.
    + now rewrite H.
    + now rewrite H.
    + destruct (rm_mappingType m); try reflexivity. congruence.
    + destruct (rm_mappingType m); try reflexivity. congruence.
Qed.

Lemma mapRoom_refreshes_existing_mapping_witness :
  let call :=
    mapRoom sampleService "h_src_1" "r_src_1" "provider_b" (incoming 4)
            noOptions in
  result call verifiedWorld = Ok tt /\
  exists m',
    find (sameMappingKey "provider_b" "r_src_1" (hm_id hotel1))
         (roomMappings (exec call verifiedWorld)) = Some m' /\
    rm_id m' = rm_id verifiedMapping /\
    rm_sourceData m' = incoming 4 /\
    rm_qualityScore m' = calculateQualityScore (incoming 4) /\
    rm_lastSyncedAt m' = clock sampleService (clockReads verifiedWorld) /\
    (rm_mappingType verifiedMapping = verified ->
     rm_confidence m' = rm_confidence verifiedMapping /\
     rm_mappingType m' = verified) /\
    (rm_mappingType verifiedMapping <> verified ->
     rm_confidence m' = confidenceOf noOptions /\
     rm_mappingType m' = mappingTypeOf noOptions).
Proof.
  apply (mapRoom_refreshes_existing_mapping sampleService "h_src_1"
           "r_src_1" "provider_b" (incoming 4) noOptions verifiedWorld
           hotel1 verifiedMapping); reflexivity.
Defined.

(** *** Conflict detection in [mapRoom] *)

(** The conflict table after [mapRoom]: as before, or rewritten by one
    recorded disagreement with the room the mapping points to. *)
Lemma mapRoom_conflicts_cases :
  forall env hotelSourceId roomSourceId source roomData options w,
    let w' :=
      exec (mapRoom env hotelSourceId roomSourceId source roomData options)
           w in
    mappingConflicts w' = mappingConflicts w \/
    exists hotelMapping m r internal incoming detectedAt internalAt id,
      find (hotelKey source hotelSourceId) (hotelMappings w)
      = Some hotelMapping /\
      find (sameMappingKey source roomSourceId (hm_id hotelMapping))
           (roomMappings w') = Some m /\
      rm_roomId m = room_id r /\
      In r (rooms w') /\
      disagree r roomData internal incoming /\
      mappingConflicts w'
      = upsertedConflicts detectedAt internalAt id "room" (room_id r)
                          "maxOccupancy" source (JNumber incoming)
                          (JNumber internal) (mappingConflicts w).
Proof.
  intros env hotelSourceId roomSourceId source roomData options w w'.
  subst w'. unfold exec.
    destruct (find (hotelKey source hotelSourceId) (hotelMappings w))
      as [hm |] eqn:Hh.
    - destruct (mapRoom_effect env hotelSourceId roomSourceId source
                  roomData options hm w Hh)
        as (found & w1 & w2 & H1 & H2 & H3).
      rewrite H3. simpl.
      destruct (upsertMapping_effect env hm roomSourceId source roomData
                  (confidenceOf options) (mappingTypeOf options)
                  (isPrimaryOf options) w)
        as (found' & w1' & H1' & (_ & KC) & E).
      rewrite H1 in H1'. injection H1' as <- <-.
      destruct (afterMapping_effect env source roomData found w1)
        as (w2' & H2' & (_ & KM & KR) & C).
      rewrite H2 in H2'. injection H2' as <-.
      destruct (snd found) as [r |] eqn:Ef; [| left; congruence].
      destruct C as (Cd & Ca).
      destruct (disagree_dec r roomData) as [(c & v & Hd) | Hn];
        [| left; rewrite (Ca Hn); exact KC].
      right. rewrite (Cd c v Hd), KC.
      destruct (find (sameMappingKey source roomSourceId (hm_id hm))
                     (roomMappings w)) as [m |] eqn:Em.
      + destruct E as (ER & ERooms & Efound).
        exists hm,
          (refreshMapping m roomData (clock env (clockReads w))
             (calculateQualityScore roomData) (confidenceOf options)
             (mappingTypeOf options) m), r, c, v.
        do 3 eexists. split; [reflexivity |].
        rewrite Efound in Ef. simpl in Ef.
        split; [| split; [| split; [| split; [exact Hd | reflexivity]]]].
        * rewrite KM, ER. apply find_updateRows; [| exact Em].
          intros r0. apply sameMappingKey_refreshMapping.
        * simpl. apply find_some in Ef. destruct Ef as [_ Ef].
          apply String.eqb_eq in Ef. congruence.
        * rewrite KR, ERooms. apply find_some in Ef. tauto.
      + destruct E as (r0 & id & now & ER & Efound & ERooms).
        rewrite Efound in Ef. simpl in Ef. injection Ef as ->.
        exists hm,
          (mkRoomMapping id (room_id r) (hm_id hm) source roomSourceId
             roomData (confidenceOf options) (mappingTypeOf options)
             (isPrimaryOf options) now (calculateQualityScore roomData)),
          r, c, v.
        do 3 eexists. split; [reflexivity |].
        split; [| split; [| split; [| split; [exact Hd | reflexivity]]]].
        * rewrite KM, ER. rewrite find_filter_head, filter_app.
          rewrite find_filter_head in Em.
          destruct (filter _ (roomMappings w)); [| discriminate].
          simpl. unfold sameMappingKey. simpl.
          now rewrite !String.eqb_refl.
        * reflexivity.
        * rewrite KR.
          destruct (find _ (rooms w)) as [rx |] eqn:Er.
          -- destruct ERooms as (-> & ->). apply find_some in Er. tauto.
          -- destruct ERooms as (_ & ->). apply in_or_app. right.
             now left.
    - destruct (mapRoom_without_hotel env hotelSourceId roomSourceId source
                  roomData options w Hh) as (wx & Hx & _ & (_ & K)).
      rewrite Hx. left. exact K.
Qed.

(** C9. [mapRoom] leaves the conflict table as it is, unless the room
    its mapping points to and the incoming record both carry an
    occupancy that is present and not zero and the two differ, in which
    case that one disagreement is recorded.  In particular the table is
    untouched when the incoming occupancy is missing, [NaN] or zero,
    and when every room the mapping points to has a missing or zero
    occupancy. *)
Theorem mapRoom_conflict_only_on_disagreement :
  forall env hotelSourceId roomSourceId source roomData options w,
    let w' :=
      exec (mapRoom env hotelSourceId roomSourceId source roomData options)
           w in
    (mappingConflicts w' = mappingConflicts w \/
     exists hotelMapping m r internal incoming detectedAt internalAt id,
       find (hotelKey source hotelSourceId) (hotelMappings w)
       = Some hotelMapping /\
       find (sameMappingKey source roomSourceId (hm_id hotelMapping))
            (roomMappings w') = Some m /\
       rm_roomId m = room_id r /\
       In r (rooms w') /\
       disagree r roomData internal incoming /\
       mappingConflicts w'
       = upsertedConflicts detectedAt internalAt id "room" (room_id r)
                           "maxOccupancy" source (JNumber incoming)
                           (JNumber internal) (mappingConflicts w)) /\
    (truthy_num (max_occupancy roomData) = false ->
     mappingConflicts w' = mappingConflicts w) /\
    ((forall hotelMapping m r,
         find (hotelKey source hotelSourceId) (hotelMappings w)
         = Some hotelMapping ->
         find (sameMappingKey source roomSourceId (hm_id hotelMapping))
              (roomMappings w') = Some m ->
         rm_roomId m = room_id r ->
         In r (rooms w') ->
         truthy_int (room_maxOccupancy r) = false) ->
     mappingConflicts w' = mappingConflicts w).
Proof.
  intros env hotelSourceId roomSourceId source roomData options w w'.
  pose proof (mapRoom_conflicts_cases env hotelSourceId roomSourceId source
                roomData options w) as Main.
  cbv zeta in Main. fold w' in Main.
  split; [exact Main |]. split.
  - intros Hf. destruct Main as [M | M]; [exact M |].
    destruct M as (hm & m & r & c & v & _ & _ & _ & _ & _ & _ & _ & Hd & _).
    destruct Hd as (_ & Hv & _ & Hv0 & _). rewrite Hv in Hf. simpl in Hf.
    apply negb_false_iff, Z.eqb_eq in Hf. contradiction.
  - intros Hall. destruct Main as [M | M]; [exact M |].
    destruct M as (hm & m & r & c & v & _ & _ & _ & Hh & Hm & Hid & Hin & Hd & _).
    specialize (Hall hm m r Hh Hm Hid Hin).
    destruct Hd as (Hc & _ & Hc0 & _). rewrite Hc in Hall. simpl in Hall.
    apply negb_false_iff, Z.eqb_eq in Hall. contradiction.
Qed.

Lemma mapRoom_conflict_only_on_disagreement_witness :
  truthy_num (max_occupancy nameAndPhotos) = false /\
  mappingConflicts
    (exec (mapRoom sampleService "h_src_1" "r_src_1" "provider_b"
                   nameAndPhotos noOptions) verifiedWorld)
  = mappingConflicts verifiedWorld.
Proof.
  split; [reflexivity |].
  apply (proj1 (proj2 (mapRoom_conflict_only_on_disagreement sampleService
                         "h_src_1" "r_src_1" "provider_b" nameAndPhotos
                         noOptions verifiedWorld))).
  reflexivity.
Defined.

(** *** Resolving conflicts *)

Lemma world_eta w :
  mkWorld (hotelMappings w) (roomMappings w) (rooms w)
          (roomContentEnrichments w) (mappingConflicts w) (idsIssued w)
          (clockReads w) (warnings w) (emitted w) = w.
Proof. destruct w; reflexivity. Qed.

(** Marking resolved, the common end of every successful call. *)
Lemma markResolved_run env conflictId resolutionStrategy conflict w :
  find (byConflictId conflictId) (mappingConflicts w) = Some conflict ->
  (now <- newDate env ;;
   update mappingConflicts set_mappingConflicts mc_id conflictId
          (markResolved resolutionStrategy now)) w
  = (Ok (markResolved resolutionStrategy (clock env (clockReads w)) conflict),
     mkWorld (hotelMappings w) (roomMappings w) (rooms w)
             (roomContentEnrichments w)
             (updateRows mc_id conflictId
                (markResolved resolutionStrategy (clock env (clockReads w)))
                (mappingConflicts w))
             (idsIssued w) (S (clockReads w)) (warnings w) (emitted w)).
Proof.
  intros H. unfold bind, newDate, update. simpl.
  unfold byConflictId in H. rewrite H. reflexivity.
Qed.

(** A call that applies no source: [keep_internal], or [apply_source]
    with a missing or empty [sourceToApply]. *)
Lemma resolveConflict_plain env conflictId resolutionStrategy sourceToApply
      conflict w :
  find (byConflictId conflictId) (mappingConflicts w) = Some conflict ->
  (isApplySource resolutionStrategy && truthy sourceToApply)%bool = false ->
  resolveConflict env conflictId resolutionStrategy sourceToApply w
  = (Ok tt, resolvedWorld env resolutionStrategy conflictId conflict w).
Proof.
  intros H Hs. unfold resolveConflict, bind at 1, transaction, bind at 1,
    findFirst.
  pose proof H as H'. unfold byConflictId in H'. rewrite H'. rewrite Hs.
  unfold bind at 1, ret.
  rewrite (markResolved_run env conflictId resolutionStrategy conflict w H).
  reflexivity.
Qed.

Lemma find_byConflictId_resolved conflictId resolutionStrategy now conflict l :
  find (byConflictId conflictId) l = Some conflict ->
  find (byConflictId conflictId)
       (updateRows mc_id conflictId (markResolved resolutionStrategy now) l)
  = Some (markResolved resolutionStrategy now conflict).
Proof.
  intros H. pose proof H as Hid. apply find_some in Hid.
  destruct Hid as [_ Hid]. apply String.eqb_eq in Hid. rewrite <- Hid.
  apply find_updateRows; [| rewrite Hid; exact H].
  intros r. reflexivity.
Qed.

(** C10. [apply_source] without a [sourceToApply] on an existing
    conflict succeeds, writes to no table but the conflict table, and
    marks the conflict resolved with resolution [apply_source] and the
    time read; the world it leaves is the one [keep_internal] leaves,
    with the other resolution recorded. *)
Theorem resolveConflict_apply_source_without_source :
  forall env conflictId conflict w,
    find (byConflictId conflictId) (mappingConflicts w) = Some conflict ->
    let now := clock env (clockReads w) in
    let w' := exec (resolveConflict env conflictId apply_source None) w in
    resolveConflict env conflictId apply_source None w
    = (Ok tt, resolvedWorld env apply_source conflictId conflict w) /\
    resolveConflict env conflictId keep_internal None w
    = (Ok tt, resolvedWorld env keep_internal conflictId conflict w) /\
    rooms w' = rooms w /\
    roomMappings w' = roomMappings w /\
    hotelMappings w' = hotelMappings w /\
    roomContentEnrichments w' = roomContentEnrichments w /\
    find (byConflictId conflictId) (mappingConflicts w')
    = Some (mkConflict (mc_id conflict) (mc_entityType conflict)
                       (mc_entityId conflict) (mc_fieldName conflict)
                       (mc_conflictingSources conflict) resolved
                       (Some apply_source) (Some now)).
Proof.
  intros env conflictId conflict w H now w'.
  assert (Ha : resolveConflict env conflictId apply_source None w
               = (Ok tt, resolvedWorld env apply_source conflictId conflict w))
    by (now apply resolveConflict_plain).
  split; [exact Ha |].
  split; [now apply resolveConflict_plain |].
  subst w'. unfold exec. rewrite Ha. simpl.
  repeat split; try reflexivity.
  now apply find_byConflictId_resolved.
Qed.

Lemma resolveConflict_apply_source_without_source_witness :
  let w' := exec (resolveConflict sampleService "conf_1" apply_source None)
                 conflictWorld in
  result (resolveConflict sampleService "conf_1" apply_source None)
         conflictWorld = Ok tt /\
  rooms w' = [room1] /\
  find (byConflictId "conf_1") (mappingConflicts w')
  = Some (mkConflict "conf_1" "room" "r_1" "maxOccupancy"
                     (mc_conflictingSources conflict1) resolved
                     (Some apply_source) (Some 1000)).
Proof.
  destruct (resolveConflict_apply_source_without_source sampleService
              "conf_1" conflict1 conflictWorld eq_refl)
    as (H1 & _ & H3 & _ & _ & _ & H7).
  unfold result. rewrite H1. split; [reflexivity |].
  split; [exact H3 | exact H7].
Defined.

Lemma assignRoomField_id fieldName value r r' :
  assignRoomField fieldName value r = Some r' -> room_id r' = room_id r.
Proof.
  unfold assignRoomField.
  repeat match goal with
         | |- context [if ?b then _ else _] => destruct b
         end;
    destruct value; intros H; try discriminate; injection H as <-;
    reflexivity.
Qed.

Lemma find_roomsWithField id fieldName value l r r' :
  find (byRoomId id) l = Some r ->
  assignRoomField fieldName value r = Some r' ->
  find (byRoomId id) (roomsWithField id fieldName value l) = Some r'.
Proof.
  intros Hr Ha. pose proof Hr as Hid. apply find_some in Hid.
  destruct Hid as [_ Hid]. apply String.eqb_eq in Hid.
  unfold roomsWithField. rewrite <- Hid at 2.
  rewrite (find_updateRows room_id _ (byRoomId id) l r); [| | exact Hr].
  - now rewrite Ha.
  - intros r0. destruct (assignRoomField fieldName value r0) as [r1 |] eqn:E;
      [| reflexivity].
    unfold byRoomId. now rewrite (assignRoomField_id _ _ _ _ E).
Qed.

(** C3 (as amended). On an existing conflict, [apply_source] with a
    non-empty [sourceToApply]: when the first entry of that source is
    found, the conflict is about a room that exists, and the field is a
    column of the room taking the recorded value, the room's field is
    set to that value and the conflict is marked resolved with
    resolution [apply_source] and the time read; when there is no entry
    of that source, the call throws and the world is as before. *)
Theorem resolveConflict_apply_named_source :
  forall env conflictId sourceToApply conflict w,
    find (byConflictId conflictId) (mappingConflicts w) = Some conflict ->
    sourceToApply <> "" ->
    let call :=
      resolveConflict env conflictId apply_source (Some sourceToApply) in
    (forall entry r r',
        find (fromSource sourceToApply) (mc_conflictingSources conflict)
        = Some entry ->
        mc_entityType conflict = "room" ->
        find (byRoomId (mc_entityId conflict)) (rooms w) = Some r ->
        assignRoomField (mc_fieldName conflict) (ce_value entry) r
        = Some r' ->
        call w
        = (Ok tt,
           resolvedWorld env apply_source conflictId conflict
             (set_rooms
                (roomsWithField (mc_entityId conflict)
                                (mc_fieldName conflict) (ce_value entry)
                                (rooms w)) w)) /\
        find (byRoomId (mc_entityId conflict)) (rooms (exec call w))
        = Some r' /\
        find (byConflictId conflictId) (mappingConflicts (exec call w))
        = Some (mkConflict (mc_id conflict) (mc_entityType conflict)
                           (mc_entityId conflict) (mc_fieldName conflict)
                           (mc_conflictingSources conflict) resolved
                           (Some apply_source)
                           (Some (clock env (clockReads w))))) /\
    (find (fromSource sourceToApply) (mc_conflictingSources conflict)
     = None ->
     call w
     = (Throw (JsError ("Source " ++ sourceToApply
                        ++ " not found in conflict")%string), w)).
Proof.
  intros env conflictId sourceToApply conflict w H Hne call.
  assert (Ht : truthy_string sourceToApply = true).
  { unfold truthy_string. apply negb_true_iff.
    now apply String.eqb_neq. }
  pose proof H as H'. unfold byConflictId in H'.
  split.
  - intros entry r r' He Htype Hr Ha.
    assert (Hcall :
      call w
      = (Ok tt,
         resolvedWorld env apply_source conflictId conflict
           (set_rooms
              (roomsWithField (mc_entityId conflict)
                              (mc_fieldName conflict) (ce_value entry)
                              (rooms w)) w))).
    { unfold call, resolveConflict, bind at 1, transaction, bind at 1,
        findFirst.
      rewrite H'. simpl. rewrite Ht.
      unfold fromSource in He. rewrite He, Htype. simpl.
      unfold bind at 1, updateRoomField.
      unfold byRoomId in Hr. rewrite Hr, Ha.
      erewrite (markResolved_run env conflictId apply_source conflict)
        by exact H.
      reflexivity. }
    split; [exact Hcall |]. unfold exec. rewrite Hcall. simpl. split.
    + eapply find_roomsWithField; eassumption.
    + now apply find_byConflictId_resolved.
  - intros He.
    unfold call, resolveConflict, bind at 1, transaction, bind at 1,
      findFirst.
    rewrite H'. simpl. rewrite Ht.
    unfold fromSource in He. rewrite He. simpl.
    now rewrite world_eta.
Qed.

Lemma resolveConflict_apply_named_source_witness :
  let call :=
    resolveConflict sampleService "conf_1" apply_source (Some "provider_b") in
  call conflictWorld
  = (Ok tt,
     resolvedWorld sampleService apply_source "conf_1" conflict1
       (set_rooms (roomsWithField "r_1" "maxOccupancy" (JNumber 4) [room1])
                  conflictWorld)) /\
  find (byRoomId "r_1") (rooms (exec call conflictWorld))
  = Some (mkRoomRow "r_1" "h_1" "Standard Room" None (Some 4)) /\
  find (byConflictId "conf_1") (mappingConflicts (exec call conflictWorld))
  = Some (mkConflict "conf_1" "room" "r_1" "maxOccupancy"
                     (mc_conflictingSources conflict1) resolved
                     (Some apply_source) (Some 1000)).
Proof.
  assert (Hne : "provider_b" <> "") by discriminate.
  exact (proj1 (resolveConflict_apply_named_source sampleService "conf_1"
                  "provider_b" conflict1 conflictWorld eq_refl Hne)
               (mkEntry "provider_b" (JNumber 4) 11) room1
               (mkRoomRow "r_1" "h_1" "Standard Room" None (Some 4))
               eq_refl eq_refl eq_refl eq_refl).
Defined.

(** C3, the claim as stated fails: with the empty string as
    [sourceToApply], a source that has no entry in the conflict, the
    call does not fail; it marks the conflict resolved. *)
Lemma resolveConflict_empty_source_not_rejected :
  let call := resolveConflict sampleService "conf_1" apply_source (Some "") in
  find (fromSource "") (mc_conflictingSources conflict1) = None /\
  result call conflictWorld = Ok tt /\
  map mc_status (mappingConflicts conflictWorld) = [open] /\
  map mc_status (mappingConflicts (exec call conflictWorld)) = [resolved] /\
  rooms (exec call conflictWorld) = rooms conflictWorld.
Proof. vm_compute. repeat split; reflexivity. Qed.

(** *** Idempotence of the mapping rows *)

Lemma filter_single_of_find {R} (p : R -> bool) l m :
  find p l = Some m -> (length (filter p l) <= 1)%nat -> filter p l = [m].
Proof.
  rewrite find_filter_head. destruct (filter p l) as [| x [| y rest]];
    simpl; intros H Hl; try discriminate; [congruence | lia].
Qed.

Lemma filter_nil_of_find {R} (p : R -> bool) l :
  find p l = None -> filter p l = [].
Proof.
  rewrite find_filter_head. destruct (filter p l); simpl;
    [reflexivity | discriminate].
Qed.

Lemma find_of_filter_single {R} (p : R -> bool) l m :
  filter p l = [m] -> find p l = Some m.
Proof. intros H. rewrite find_filter_head, H. reflexivity. Qed.

(** One call, with the parent hotel mapped and at most one row for the
    key: exactly one row for the key afterwards, carrying the score of
    the incoming record and the identifier of the row found before. *)
Lemma mapRoom_mapping_rows env hotelSourceId roomSourceId source roomData
      options hotelMapping w :
  find (hotelKey source hotelSourceId) (hotelMappings w) = Some hotelMapping ->
  (length (filter (sameMappingKey source roomSourceId (hm_id hotelMapping))
                  (roomMappings w)) <= 1)%nat ->
  let w' :=
    exec (mapRoom env hotelSourceId roomSourceId source roomData options) w in
  hotelMappings w' = hotelMappings w /\
  exists m',
    filter (sameMappingKey source roomSourceId (hm_id hotelMapping))
           (roomMappings w') = [m'] /\
    rm_qualityScore m' = calculateQualityScore roomData /\
    (forall m,
        find (sameMappingKey source roomSourceId (hm_id hotelMapping))
             (roomMappings w) = Some m -> rm_id m' = rm_id m).
Proof.
  intros Hh Hl w'.
  destruct (mapRoom_effect env hotelSourceId roomSourceId source roomData
              options hotelMapping w Hh) as (found & w1 & w2 & H1 & H2 & H3).
  destruct (upsertMapping_effect env hotelMapping roomSourceId source
              roomData (confidenceOf options) (mappingTypeOf options)
              (isPrimaryOf options) w) as (found' & w1' & H1' & (KH & _) & E).
  rewrite H1 in H1'. injection H1' as <- <-.
  destruct (afterMapping_effect env source roomData found w1)
    as (w2' & H2' & (KH2 & KM & _) & _).
  rewrite H2 in H2'. injection H2' as <-.
  subst w'. unfold exec. rewrite H3. simpl.
  split; [congruence |]. rewrite KM.
  destruct (find (sameMappingKey source roomSourceId (hm_id hotelMapping))
                 (roomMappings w)) as [m |] eqn:Em.
  - destruct E as (ER & _ & _). rewrite ER.
    rewrite filter_updateRows
      by (intros r; apply sameMappingKey_refreshMapping).
    rewrite (filter_single_of_find _ _ m Em Hl). simpl.
    rewrite String.eqb_refl. eexists. split; [reflexivity |].
    split; [reflexivity |]. intros m0 Hm0. injection Hm0 as <-. reflexivity.
  - destruct E as (r & id & now & ER & _ & _). rewrite ER.
    rewrite filter_app, (filter_nil_of_find _ _ Em). simpl.
    unfold sameMappingKey at 1. simpl. rewrite !String.eqb_refl. simpl.
    eexists. split; [reflexivity |]. split; [reflexivity |].
    intros m0 Hm0. discriminate.
Qed.

(** C4 (as amended). When the parent hotel is mapped and the store
    holds at most one mapping row for the key, two calls with the same
    arguments leave exactly one row for the key, the same row after
    both, and the second call leaves its qualityScore as the first
    call set it. *)
Theorem mapRoom_twice_one_mapping :
  forall env hotelSourceId roomSourceId source roomData options w
         hotelMapping,
    find (hotelKey source hotelSourceId) (hotelMappings w)
    = Some hotelMapping ->
    (length (filter (sameMappingKey source roomSourceId (hm_id hotelMapping))
                    (roomMappings w)) <= 1)%nat ->
    let call :=
      mapRoom env hotelSourceId roomSourceId source roomData options in
    let w1 := exec call w in
    let w2 := exec call w1 in
    exists m1 m2,
      filter (sameMappingKey source roomSourceId (hm_id hotelMapping))
             (roomMappings w1) = [m1] /\
      filter (sameMappingKey source roomSourceId (hm_id hotelMapping))
             (roomMappings w2) = [m2] /\
      rm_id m2 = rm_id m1 /\
      rm_qualityScore m1 = calculateQualityScore roomData /\
      rm_qualityScore m2 = rm_qualityScore m1.
Proof.
  intros env hotelSourceId roomSourceId source roomData options w
         hotelMapping Hh Hl call w1 w2.
  destruct (mapRoom_mapping_rows env hotelSourceId roomSourceId source
              roomData options hotelMapping w Hh Hl)
    as (KH & m1 & F1 & Q1 & _).
  fold call in KH, F1. fold w1 in KH, F1.
  assert (Hh1 : find (hotelKey source hotelSourceId) (hotelMappings w1)
                = Some hotelMapping) by (rewrite KH; exact Hh).
  assert (Hl1 : (length (filter (sameMappingKey source roomSourceId
                                    (hm_id hotelMapping))
                                (roomMappings w1)) <= 1)%nat)
    by (rewrite F1; simpl; lia).
  destruct (mapRoom_mapping_rows env hotelSourceId roomSourceId source
              roomData options hotelMapping w1 Hh1 Hl1)
    as (_ & m2 & F2 & Q2 & I2).
  fold call in F2, I2. fold w2 in F2.
  exists m1, m2. split; [exact F1 |]. split; [exact F2 |].
  split; [apply I2; now apply find_of_filter_single |].
  split; [exact Q1 | congruence].
Qed.

Lemma mapRoom_twice_one_mapping_witness :
  let call :=
    mapRoom sampleService "h_src_1" "r_src_1" "provider_b" (incoming 4)
            noOptions in
  let w1 := exec call freshWorld in
  let w2 := exec call w1 in
  exists m1 m2,
    filter (sameMappingKey "provider_b" "r_src_1" (hm_id hotel1))
           (roomMappings w1) = [m1] /\
    filter (sameMappingKey "provider_b" "r_src_1" (hm_id hotel1))
           (roomMappings w2) = [m2] /\
    rm_id m2 = rm_id m1 /\
    rm_qualityScore m1 = calculateQualityScore (incoming 4) /\
    rm_qualityScore m2 = rm_qualityScore m1.
Proof.
  apply (mapRoom_twice_one_mapping sampleService "h_src_1" "r_src_1"
           "provider_b" (incoming 4) noOptions freshWorld hotel1);
    [reflexivity | vm_compute; lia].
Defined.

(** C4, the claim as stated fails: in a store without the parent hotel
    mapping both calls return without writing, and no mapping row
    exists for the key afterwards. *)
Lemma mapRoom_twice_without_hotel_no_mapping :
  let call :=
    mapRoom sampleService "h_src_1" "r_src_1" "provider_b" (incoming 4)
            noOptions in
  let w2 := exec call (exec call emptyWorld) in
  result call emptyWorld = Ok tt /\
  roomMappings w2 = [] /\
  length (filter (fun m => (String.eqb (rm_source m) "provider_b"
                            && String.eqb (rm_sourceId m) "r_src_1")%bool)
                 (roomMappings w2)) <> 1%nat.
Proof. vm_compute. repeat split; try reflexivity. discriminate. Qed.

(** *** Conflict merge *)

Lemma upsertedConflicts_invariant detectedAt internalAt id entityType
      entityId fieldName source newValue currentValue l :
  oneOpenConflictPerKey l ->
  oneOpenConflictPerKey
    (upsertedConflicts detectedAt internalAt id entityType entityId
                       fieldName source newValue currentValue l).
Proof.
  intros Hinv et eid fn. unfold upsertedConflicts.
  destruct (find (openConflictFor entityType entityId fieldName) l)
    as [ex |] eqn:E.
  - rewrite filter_updateRows by (intros r; reflexivity).
    rewrite length_updateRows. apply Hinv.
  - rewrite filter_app, length_app. cbn [filter].
    match goal with
    | |- context [if ?b then _ else _] => destruct b eqn:Ep
    end; simpl.
    + unfold openConflictFor in Ep. simpl in Ep.
      rewrite !andb_true_iff in Ep. destruct Ep as (((E1 & E2) & E3) & _).
      apply String.eqb_eq in E1, E2, E3. subst et eid fn.
      rewrite (filter_nil_of_find _ _ E). simpl. lia.
    + rewrite Nat.add_0_r. apply Hinv.
Qed.

(** The open conflict of the key after a disagreement is recorded:
    there is exactly one, the one found before with the incoming entry
    merged in, or the new one with its two seed entries. *)
Lemma upsertedConflicts_open_key detectedAt internalAt id entityType
      entityId fieldName source newValue currentValue l :
  (length (filter (openConflictFor entityType entityId fieldName) l)
   <= 1)%nat ->
  exists c',
    filter (openConflictFor entityType entityId fieldName)
           (upsertedConflicts detectedAt internalAt id entityType entityId
                              fieldName source newValue currentValue l)
    = [c'] /\
    mc_conflictingSources c'
    = match find (openConflictFor entityType entityId fieldName) l with
      | Some ex =>
          upsertEntry (mkEntry source newValue detectedAt)
                      (mc_conflictingSources ex)
      | None =>
          [mkEntry "internal" currentValue internalAt;
           mkEntry source newValue detectedAt]
      end.
Proof.
  intros Hl. unfold upsertedConflicts.
  destruct (find (openConflictFor entityType entityId fieldName) l)
    as [ex |] eqn:E.
  - rewrite filter_updateRows by (intros r; reflexivity).
    rewrite (filter_single_of_find _ _ ex E Hl). simpl.
    rewrite String.eqb_refl. eexists. split; reflexivity.
  - rewrite filter_app, (filter_nil_of_find _ _ E). simpl.
    unfold openConflictFor at 1. simpl. rewrite !String.eqb_refl. simpl.
    eexists. split; reflexivity.
Qed.

Lemma replaceFirst_spec e l :
  match replaceFirst e l with
  | Some l' =>
      existsb (fromSource (ce_source e)) l = true /\
      map ce_source l' = map ce_source l /\
      filter (fromSource (ce_source e)) l'
      = e :: tl (filter (fromSource (ce_source e)) l)
  | None =>
      existsb (fromSource (ce_source e)) l = false /\
      filter (fromSource (ce_source e)) l = []
  end.
Proof.
  induction l as [| s l IH]; simpl; [auto |].
  unfold fromSource in *.
  destruct (String.eqb (ce_source s) (ce_source e)) eqn:E; simpl.
  - rewrite String.eqb_refl. apply String.eqb_eq in E. simpl.
    repeat split; congruence.
  - destruct (replaceFirst e l) as [l' |]; simpl.
    + destruct IH as (H1 & H2 & H3). rewrite E.
      repeat split; congruence.
    + exact IH.
Qed.

(** The incoming entry replaces the first entry of its source, keeping
    the source names in place, or is appended when the source has no
    entry. *)
Lemma upsertEntry_names e l :
  map ce_source (upsertEntry e l)
  = if existsb (fromSource (ce_source e)) l
    then map ce_source l
    else map ce_source l ++ [ce_source e].
Proof.
  unfold upsertEntry. pose proof (replaceFirst_spec e l) as H.
  destruct (replaceFirst e l) as [l' |].
  - destruct H as (-> & H & _). exact H.
  - destruct H as (-> & _). apply map_app.
Qed.

Lemma upsertEntry_fromSource e l :
  filter (fromSource (ce_source e)) (upsertEntry e l)
  = e :: tl (filter (fromSource (ce_source e)) l).
Proof.
  unfold upsertEntry. pose proof (replaceFirst_spec e l) as H.
  destruct (replaceFirst e l) as [l' |].
  - destruct H as (_ & _ & H). exact H.
  - destruct H as (_ & H). rewrite filter_app, H. simpl.
    unfold fromSource. now rewrite String.eqb_refl.
Qed.

Lemma upsertEntry_single e l :
  (length (filter (fromSource (ce_source e)) l) <= 1)%nat ->
  filter (fromSource (ce_source e)) (upsertEntry e l) = [e].
Proof.
  intros H. rewrite upsertEntry_fromSource.
  destruct (filter (fromSource (ce_source e)) l) as [| x [| y r]];
    simpl in *; try reflexivity. lia.
Qed.

(** A call that reconciles against room [r] and disagrees with it
    records the disagreement, and later calls for the key reconcile
    against [r] again. *)
Lemma mapRoom_records env hotelSourceId roomSourceId source roomData options
      hotelMapping w r internal incoming :
  find (hotelKey source hotelSourceId) (hotelMappings w) = Some hotelMapping ->
  canonicalRoom source roomSourceId hotelMapping roomData w r ->
  disagree r roomData internal incoming ->
  let w' :=
    exec (mapRoom env hotelSourceId roomSourceId source roomData options) w in
  hotelMappings w' = hotelMappings w /\
  (exists detectedAt internalAt id,
      mappingConflicts w'
      = upsertedConflicts detectedAt internalAt id "room" (room_id r)
                          "maxOccupancy" source (JNumber incoming)
                          (JNumber internal) (mappingConflicts w)) /\
  (forall roomData',
      canonicalRoom source roomSourceId hotelMapping roomData' w' r).
Proof.
  intros Hh Hc Hd w'.
  destruct (mapRoom_effect env hotelSourceId roomSourceId source roomData
              options hotelMapping w Hh) as (found & w1 & w2 & H1 & H2 & H3).
  destruct (upsertMapping_effect env hotelMapping roomSourceId source
              roomData (confidenceOf options) (mappingTypeOf options)
              (isPrimaryOf options) w)
    as (found' & w1' & H1' & (KH & KC) & E).
  rewrite H1 in H1'. injection H1' as <- <-.
  destruct (afterMapping_effect env source roomData found w1)
    as (w2' & H2' & (KH2 & KM & KR) & C).
  rewrite H2 in H2'. injection H2' as <-.
  subst w'. unfold exec. rewrite H3. simpl.
  split; [congruence |].
  unfold canonicalRoom in *.
  destruct (find (sameMappingKey source roomSourceId (hm_id hotelMapping))
                 (roomMappings w)) as [m |] eqn:Em.
  - destruct E as (ER & ERooms & Efound).
    assert (Ef : snd found = Some r).
    { rewrite Efound. simpl. exact Hc. }
    rewrite Ef in C. destruct C as (Cd & _).
    split.
    + do 3 eexists. rewrite (Cd _ _ Hd), KC. reflexivity.
    + intros roomData'. rewrite KM, ER.
      rewrite (find_updateRows rm_id _ _ _ m
                 (fun r0 => sameMappingKey_refreshMapping _ _ _ _ _ _ _ _ _ r0)
                 Em).
      simpl. rewrite KR, ERooms. exact Hc.
  - destruct Hc as (Hname & Hid).
    destruct E as (r0 & id & now & ER & Efound & ERooms).
    rewrite Hname in ERooms. destruct ERooms as (-> & ERooms).
    assert (Ef : snd found = Some r) by (rewrite Efound; reflexivity).
    rewrite Ef in C. destruct C as (Cd & _).
    split.
    + do 3 eexists. rewrite (Cd _ _ Hd), KC. reflexivity.
    + intros roomData'. rewrite KM, ER.
      rewrite find_filter_head, filter_app, (filter_nil_of_find _ _ Em).
      simpl. unfold sameMappingKey at 1. simpl. rewrite !String.eqb_refl.
      simpl. rewrite KR, ERooms. exact Hid.
Qed.

Lemma length_filter_updateRows_le {R} (id_of : R -> Id) id (data : R -> R)
      p l :
  (forall r, p (data r) = true -> p r = true) ->
  (length (filter p (updateRows id_of id data l)) <= length (filter p l))%nat.
Proof.
  intros Hp. unfold updateRows. induction l as [| r l IH]; simpl; [lia |].
  destruct (String.eqb (id_of r) id).
  - destruct (p (data r)) eqn:E.
    + rewrite (Hp r E). simpl. lia.
    + destruct (p r); simpl; lia.
  - destruct (p r); simpl; lia.
Qed.

(** The conflict table after [resolveConflict]: as before (also when
    the call throws), or with the rows of the identifier marked
    resolved. *)
Lemma resolveConflict_conflicts_cases env conflictId resolutionStrategy
      sourceToApply w :
  exists res w',
    resolveConflict env conflictId resolutionStrategy sourceToApply w
    = (res, w') /\
    (mappingConflicts w' = mappingConflicts w \/
     exists now,
       mappingConflicts w'
       = updateRows mc_id conflictId (markResolved resolutionStrategy now)
                    (mappingConflicts w)).
Proof.
  unfold resolveConflict, bind at 1, transaction, bind at 1, findFirst.
  destruct (find _ (mappingConflicts w)) as [conflict |] eqn:E;
    [| do 2 eexists; split; [reflexivity | left; reflexivity]].
  assert (Hend : forall w0,
             mappingConflicts w0 = mappingConflicts w ->
             (now <- newDate env ;;
              update mappingConflicts set_mappingConflicts mc_id conflictId
                     (markResolved resolutionStrategy now)) w0
             = (Ok (markResolved resolutionStrategy
                                 (clock env (clockReads w0)) conflict),
                mkWorld (hotelMappings w0) (roomMappings w0) (rooms w0)
                        (roomContentEnrichments w0)
                        (updateRows mc_id conflictId
                           (markResolved resolutionStrategy
                                         (clock env (clockReads w0)))
                           (mappingConflicts w))
                        (idsIssued w0) (S (clockReads w0)) (warnings w0)
                        (emitted w0))).
  { intros w0 Hw0. rewrite <- Hw0. apply markResolved_run.
    rewrite Hw0. exact E. }
  destruct (isApplySource resolutionStrategy && truthy sourceToApply)%bool.
  - destruct (find _ (mc_conflictingSources conflict)) as [entry |];
      [| do 2 eexists; split; [reflexivity | left; reflexivity]].
    destruct (String.eqb (mc_entityType conflict) "room").
    + unfold bind at 1, updateRoomField.
      destruct (find _ (rooms w)) as [r |];
        [| do 2 eexists; split; [reflexivity | left; reflexivity]].
      destruct (assignRoomField _ _ r);
        [| do 2 eexists; split; [reflexivity | left; reflexivity]].
      erewrite Hend by reflexivity.
      do 2 eexists; split; [reflexivity | right; eexists; reflexivity].
    + unfold bind at 1, ret.
      erewrite Hend by reflexivity.
      do 2 eexists; split; [reflexivity | right; eexists; reflexivity].
  - unfold bind at 1, ret.
    erewrite Hend by reflexivity.
    do 2 eexists; split; [reflexivity | right; eexists; reflexivity].
Qed.

Lemma replaceFirst_first e l1 x l2 :
  ce_source x = ce_source e ->
  (forall y, In y l1 -> ce_source y <> ce_source e) ->
  replaceFirst e (l1 ++ x :: l2) = Some (l1 ++ e :: l2).
Proof.
  intros Hx. induction l1 as [| s l1 IH]; intros Hl1; simpl.
  - rewrite Hx, String.eqb_refl. reflexivity.
  - assert (Hs : String.eqb (ce_source s) (ce_source e) = false)
      by (apply String.eqb_neq; apply Hl1; now left).
    rewrite Hs, IH; [reflexivity |].
    intros y Hy. apply Hl1. now right.
Qed.

Lemma replaceFirst_absent e l :
  (forall y, In y l -> ce_source y <> ce_source e) ->
  replaceFirst e l = None.
Proof.
  induction l as [| s l IH]; intros Hl; simpl; [reflexivity |].
  assert (Hs : String.eqb (ce_source s) (ce_source e) = false)
    by (apply String.eqb_neq; apply Hl; now left).
  rewrite Hs, IH; [reflexivity |].
  intros y Hy. apply Hl. now right.
Qed.

(** The entry of the incoming source is replaced where it stands, or
    appended; every other entry stays as it is, in place. *)
Lemma upsertEntry_replaces e l1 x l2 :
  ce_source x = ce_source e ->
  (forall y, In y l1 -> ce_source y <> ce_source e) ->
  upsertEntry e (l1 ++ x :: l2) = l1 ++ e :: l2.
Proof.
  intros Hx Hl1. unfold upsertEntry.
  now rewrite (replaceFirst_first e l1 x l2 Hx Hl1).
Qed.

Lemma upsertEntry_appends e l :
  (forall y, In y l -> ce_source y <> ce_source e) ->
  upsertEntry e l = l ++ [e].
Proof.
  intros Hl. unfold upsertEntry. now rewrite (replaceFirst_absent e l Hl).
Qed.

Lemma no_entry_before source l1 x l2 :
  ce_source x = source ->
  (length (filter (fromSource source) (l1 ++ x :: l2)) <= 1)%nat ->
  (forall y, In y l1 -> ce_source y <> source) /\
  (forall y, In y l2 -> ce_source y <> source).
Proof.
  intros Hx Hlen. rewrite filter_app, length_app in Hlen.
  cbn [filter] in Hlen. unfold fromSource at 2 in Hlen.
  rewrite Hx, String.eqb_refl in Hlen. cbn [length] in Hlen.
  split; intros y Hy Hs.
  - assert (Hin : In y (filter (fromSource source) l1)).
    { apply filter_In. split; [exact Hy |].
      unfold fromSource. rewrite Hs. apply String.eqb_refl. }
    destruct (filter (fromSource source) l1); [destruct Hin |].
    simpl in Hlen. lia.
  - assert (Hin : In y (filter (fromSource source) l2)).
    { apply filter_In. split; [exact Hy |].
      unfold fromSource. rewrite Hs. apply String.eqb_refl. }
    destruct (filter (fromSource source) l2); [destruct Hin |].
    simpl in Hlen. lia.
Qed.

(** C2 (as amended).
    (1) [mapRoom] and [resolveConflict] keep the invariant that every
    (entityType, entityId, fieldName) has at most one open conflict.
    (2) Recording a disagreement always succeeds.  Without an open
    conflict of the key it appends one conflict, open, whose entries are
    the "internal" entry with the canonical value followed by the
    incoming entry.  With an open conflict of the key it rewrites the
    rows with the identifier of the first such conflict, changing
    nothing but the list of entries, and leaves every other row as it
    is.
    (3) In the list of entries the incoming entry takes the place of the
    first entry of its source, or is appended when the source has no
    entry; every other entry is kept as it is, in place.
    (4) Two calls for the same key from a source other than "internal",
    both reconciling against room [r], whose occupancy is present and
    not zero, and both with an incoming occupancy that is present, not
    zero and different from it, leave exactly one open occupancy
    conflict for [r] (given at most one open conflict for the room and
    at most one entry of the source in it beforehand).  Its entries are
    those of the conflict that was open before, untouched and in place,
    except that the entry of the source holds the value of the second
    call, where the old entry stood or at the end; for a conflict that is
    new they are the "internal" entry with the canonical value and the
    entry of the source with the value of the second call. *)
Theorem conflict_merge :
  (forall env hotelSourceId roomSourceId source roomData options w,
      oneOpenConflictPerKey (mappingConflicts w) ->
      oneOpenConflictPerKey
        (mappingConflicts
           (exec (mapRoom env hotelSourceId roomSourceId source roomData
                          options) w))) /\
  (forall env conflictId resolutionStrategy sourceToApply w,
      oneOpenConflictPerKey (mappingConflicts w) ->
      oneOpenConflictPerKey
        (mappingConflicts
           (exec (resolveConflict env conflictId resolutionStrategy
                                  sourceToApply) w))) /\
  (forall env entityType entityId fieldName source newValue currentValue w,
      let call :=
        upsertConflict env entityType entityId fieldName source newValue
                       currentValue in
      let incomingEntry := mkEntry source newValue (clock env (clockReads w)) in
      result call w = Ok tt /\
      match find (openConflictFor entityType entityId fieldName)
                 (mappingConflicts w) with
      | None =>
          mappingConflicts (exec call w)
          = mappingConflicts w
            ++ [mkConflict (newId env (idsIssued w)) entityType entityId
                           fieldName
                           [mkEntry "internal" currentValue
                                    (clock env (S (clockReads w)));
                            incomingEntry]
                           open None None]
      | Some ex =>
          mappingConflicts (exec call w)
          = map (fun c =>
                   if String.eqb (mc_id c) (mc_id ex)
                   then mkConflict (mc_id c) (mc_entityType c)
                                   (mc_entityId c) (mc_fieldName c)
                                   (upsertEntry incomingEntry
                                      (mc_conflictingSources ex))
                                   (mc_status c) (mc_resolution c)
                                   (mc_resolvedAt c)
                   else c)
                (mappingConflicts w)
      end) /\
  ((forall e l1 x l2,
       ce_source x = ce_source e ->
       (forall y, In y l1 -> ce_source y <> ce_source e) ->
       upsertEntry e (l1 ++ x :: l2) = l1 ++ e :: l2) /\
   (forall e l,
       (forall y, In y l -> ce_source y <> ce_source e) ->
       upsertEntry e l = l ++ [e])) /\
  (forall env hotelSourceId roomSourceId source first second options1
          options2 w hotelMapping r internal incoming1 incoming2,
      find (hotelKey source hotelSourceId) (hotelMappings w)
      = Some hotelMapping ->
      canonicalRoom source roomSourceId hotelMapping first w r ->
      source <> "internal" ->
      disagree r first internal incoming1 ->
      disagree r second internal incoming2 ->
      (length (filter (occupancyConflictOf r) (mappingConflicts w)) <= 1)%nat ->
      (forall ex,
          find (occupancyConflictOf r) (mappingConflicts w) = Some ex ->
          (length (filter (fromSource source) (mc_conflictingSources ex))
           <= 1)%nat) ->
      let w2 :=
        exec (mapRoom env hotelSourceId roomSourceId source second options2)
             (exec (mapRoom env hotelSourceId roomSourceId source first
                            options1) w) in
      exists c' detectedAt,
        let latest := mkEntry source (JNumber incoming2) detectedAt in
        filter (occupancyConflictOf r) (mappingConflicts w2) = [c'] /\
        filter (fromSource source) (mc_conflictingSources c') = [latest] /\
        match find (occupancyConflictOf r) (mappingConflicts w) with
        | None =>
            exists internalAt,
              mc_conflictingSources c'
              = [mkEntry "internal" (JNumber internal) internalAt; latest]
        | Some ex =>
            (forall l1 x l2,
                mc_conflictingSources ex = l1 ++ x :: l2 ->
                ce_source x = source ->
                mc_conflictingSources c' = l1 ++ latest :: l2) /\
            ((forall y, In y (mc_conflictingSources ex) ->
                        ce_source y <> source) ->
             mc_conflictingSources c' = mc_conflictingSources ex ++ [latest])
        end).
Proof.
  split; [| split; [| split; [| split]]].
  - intros env hotelSourceId roomSourceId source roomData options w Hinv.
    destruct (mapRoom_conflicts_cases env hotelSourceId roomSourceId source
                roomData options w) as [E | E].
    + rewrite E. exact Hinv.
    + destruct E as (hm & m & r & c & v & t0 & t1 & id & _ & _ & _ & _ & _ & E).
      rewrite E. now apply upsertedConflicts_invariant.
  - intros env conflictId resolutionStrategy sourceToApply w Hinv.
    destruct (resolveConflict_conflicts_cases env conflictId
                resolutionStrategy sourceToApply w)
      as (res & w' & Hw & [E | (now & E)]);
      unfold exec; rewrite Hw; simpl.
    + rewrite E. exact Hinv.
    + rewrite E. intros et eid fn.
      eapply Nat.le_trans; [| apply (Hinv et eid fn)].
      apply length_filter_updateRows_le.
      intros r Hr. unfold openConflictFor in Hr. simpl in Hr.
      rewrite andb_false_r in Hr. discriminate.
  - intros env entityType entityId fieldName source newValue currentValue w
           call incomingEntry.
    destruct (upsertConflict_effect env entityType entityId fieldName
                source newValue currentValue w) as (w' & H & _ & C).
    unfold result, exec, call. rewrite H. cbn [fst snd].
    split; [reflexivity |]. rewrite C. unfold upsertedConflicts.
    destruct (find (openConflictFor entityType entityId fieldName)
                   (mappingConflicts w)); reflexivity.
  - split; [exact upsertEntry_replaces | exact upsertEntry_appends].
  - intros env hotelSourceId roomSourceId source first second options1
           options2 w hm r c v1 v2 Hh Hcan Hne Hd1 Hd2 Hl Hdup w2.
    destruct (mapRoom_records env hotelSourceId roomSourceId source first
                options1 hm w r c v1 Hh Hcan Hd1)
      as (KH1 & (t0 & t1 & id & C1) & Can1).
    set (w1 := exec (mapRoom env hotelSourceId roomSourceId source first
                             options1) w) in *.
    assert (Hh1 : find (hotelKey source hotelSourceId) (hotelMappings w1)
                  = Some hm) by (rewrite KH1; exact Hh).
    destruct (mapRoom_records env hotelSourceId roomSourceId source second
                options2 hm w1 r c v2 Hh1 (Can1 second) Hd2)
      as (_ & (t0' & t1' & id' & C2) & _).
    fold w2 in C2.
    destruct (upsertedConflicts_open_key t0 t1 id "room" (room_id r)
                "maxOccupancy" source (JNumber v1) (JNumber c)
                (mappingConflicts w) Hl) as (c1 & F1 & S1).
    rewrite <- C1 in F1.
    assert (Hs1 : (length (filter (fromSource source)
                                  (mc_conflictingSources c1)) <= 1)%nat).
    { rewrite S1.
      destruct (find (openConflictFor "room" (room_id r) "maxOccupancy")
                     (mappingConflicts w)) as [ex |] eqn:Ex.
      - rewrite (upsertEntry_single (mkEntry source (JNumber v1) t0));
          [simpl; lia |].
        simpl. apply Hdup. exact Ex.
      - assert (Hi : String.eqb "internal" source = false)
          by (apply String.eqb_neq; congruence).
        cbn [filter]. unfold fromSource. cbn [ce_source].
        rewrite Hi, String.eqb_refl. simpl. lia. }
    assert (Hl1 : (length (filter (openConflictFor "room" (room_id r)
                                     "maxOccupancy")
                                  (mappingConflicts w1)) <= 1)%nat).
    { unfold occupancyConflictOf in F1. rewrite F1. simpl. lia. }
    destruct (upsertedConflicts_open_key t0' t1' id' "room" (room_id r)
                "maxOccupancy" source (JNumber v2) (JNumber c)
                (mappingConflicts w1) Hl1) as (c2 & F2 & S2).
    rewrite <- C2 in F2.
    rewrite (find_of_filter_single _ _ c1 F1) in S2.
    exists c2, t0'. cbv zeta. split; [exact F2 |]. split.
    { rewrite S2.
      apply (upsertEntry_single (mkEntry source (JNumber v2) t0')).
      exact Hs1. }
    rewrite S2, S1. unfold occupancyConflictOf in *.
    destruct (find (openConflictFor "room" (room_id r) "maxOccupancy")
                   (mappingConflicts w)) as [ex |] eqn:Ex.
    + split.
      * intros l1 x l2 Hex Hx. rewrite Hex.
        pose proof (Hdup ex eq_refl) as Hone. rewrite Hex in Hone.
        destruct (no_entry_before source l1 x l2 Hx Hone) as (Hl1' & _).
        rewrite (upsertEntry_replaces (mkEntry source (JNumber v1) t0)
                   l1 x l2 Hx Hl1').
        apply upsertEntry_replaces; [reflexivity | exact Hl1'].
      * intros Hnone.
        rewrite (upsertEntry_appends (mkEntry source (JNumber v1) t0)
                   (mc_conflictingSources ex) Hnone).
        apply upsertEntry_replaces; [reflexivity | exact Hnone].
    + exists t1.
      apply (upsertEntry_replaces (mkEntry source (JNumber v2) t0')
               [mkEntry "internal" (JNumber c) t1]
               (mkEntry source (JNumber v1) t0) []); [reflexivity |].
      intros y [<- | []]. simpl. congruence.
Qed.

Lemma conflict_merge_witness :
  let w2 :=
    exec (mapRoom sampleService "h_src_1" "r_src_1" "provider_b"
                  (incoming 6) noOptions)
         (exec (mapRoom sampleService "h_src_1" "r_src_1" "provider_b"
                        (incoming 5) noOptions) mergeWorld) in
  exists c' detectedAt,
    filter (occupancyConflictOf room1) (mappingConflicts w2) = [c'] /\
    mc_conflictingSources c'
    = [mkEntry "internal" (JNumber 2) 10;
       mkEntry "provider_b" (JNumber 6) detectedAt;
       mkEntry "provider_c" (JNumber 3) 12].
Proof.
  assert (Hne : "provider_b" <> "internal") by discriminate.
  assert (Hd1 : disagree room1 (incoming 5) 2 5)
    by (repeat split; discriminate).
  assert (Hd2 : disagree room1 (incoming 6) 2 6)
    by (repeat split; discriminate).
  assert (Hl : (length (filter (occupancyConflictOf room1)
                               (mappingConflicts mergeWorld)) <= 1)%nat)
    by (simpl; lia).
  assert (Hdup : forall ex,
             find (occupancyConflictOf room1) (mappingConflicts mergeWorld)
             = Some ex ->
             (length (filter (fromSource "provider_b")
                             (mc_conflictingSources ex)) <= 1)%nat)
    by (intros ex H; injection H as <-; simpl; lia).
  destruct (proj2 (proj2 (proj2 (proj2 conflict_merge))) sampleService
              "h_src_1" "r_src_1" "provider_b" (incoming 5) (incoming 6)
              noOptions noOptions mergeWorld hotel1 room1 2 5 6 eq_refl
              eq_refl Hne Hd1 Hd2 Hl Hdup)
    as (c' & detectedAt & F & _ & H).
  exists c', detectedAt. split; [exact F |].
  exact (proj1 H [mkEntry "internal" (JNumber 2) 10]
               (mkEntry "provider_b" (JNumber 4) 11)
               [mkEntry "provider_c" (JNumber 3) 12] eq_refl eq_refl).
Defined.

(** C2, the claim as stated fails.  For a supplier named "internal" the
    first call seeds the conflict with two entries of that name, the
    second replaces the first of them, which held the canonical value,
    and the stale value of the first call stays.  And for any supplier, a
    second call whose value agrees with the room records nothing, so the
    open conflict keeps the value of the first call, not the latest. *)
Lemma conflict_merge_stale_entries :
  let entries w :=
    map (fun c => (mc_status c,
                   map (fun e => (ce_source e, ce_value e))
                       (mc_conflictingSources c)))
        (mappingConflicts w) in
  let twice source first second w :=
    exec (mapRoom sampleService "h_src_1" "r_src_1" source
                  (incoming second) noOptions)
         (exec (mapRoom sampleService "h_src_1" "r_src_1" source
                        (incoming first) noOptions) w) in
  (entries (twice "internal" 4 5 internalSourceWorld)
   = [(open, [("internal", JNumber 5); ("internal", JNumber 4)])] /\
   forall c' detectedAt,
     filter (occupancyConflictOf room1)
            (mappingConflicts (twice "internal" 4 5 internalSourceWorld))
     = [c'] ->
     filter (fromSource "internal") (mc_conflictingSources c')
     <> [mkEntry "internal" (JNumber 5) detectedAt]) /\
  (entries (twice "provider_b" 4 2 freshWorld)
   = [(open, [("internal", JNumber 2); ("provider_b", JNumber 4)])] /\
   forall c' detectedAt,
     filter (occupancyConflictOf room1)
            (mappingConflicts (twice "provider_b" 4 2 freshWorld))
     = [c'] ->
     filter (fromSource "provider_b") (mc_conflictingSources c')
     <> [mkEntry "provider_b" (JNumber 2) detectedAt]).
Proof.
  vm_compute. split; (split; [reflexivity |]);
    intros c' detectedAt H; injection H as <-; discriminate.
Qed.

End ServiceProofs.

(* ================================================================== *)
(** ** Further properties of the feed parser                            *)
(* ================================================================== *)

Module ParserExtras.
Import Js Stays FeedParser ParserSpec ExtraSpec ParserProofs.
Local Open Scope list_scope.

(** *** The normalizer tables *)

Lemma map_string_app f a b :
  map_string f (a ++ b)%string = (map_string f a ++ map_string f b)%string.
Proof. induction a; simpl; congruence. Qed.

Lemma filter_string_app p a b :
  filter_string p (a ++ b)%string
  = (filter_string p a ++ filter_string p b)%string.
Proof.
  induction a as [| c a IH]; simpl; [reflexivity |].
  destruct (p c); simpl; congruence.
Qed.

Lemma prefix_app n b : String.prefix n (n ++ b)%string = true.
Proof.
  induction n as [| c n IH]; simpl; [destruct b; reflexivity |].
  destruct (ascii_dec c c); [exact IH | congruence].
Qed.

Lemma includes_prefix hay n : String.prefix n hay = true -> includes hay n = true.
Proof. intros H. destruct hay; simpl in *; rewrite H; reflexivity. Qed.

Lemma includes_app a n b : includes (a ++ n ++ b)%string n = true.
Proof.
  induction a as [| c a IH].
  - change (includes (n ++ b)%string n = true).
    apply includes_prefix. apply prefix_app.
  - cbn [String.append includes]. rewrite IH. apply orb_true_r.
Qed.

(** A needle that starts with [c] occurs only in a string that holds
    [c]. *)
Lemma includes_first_char hay c r :
  includes hay (String c r) = true ->
  allChars (fun x => negb (Ascii.eqb x c)) hay = false.
Proof.
  induction hay as [| x hay IH]; simpl; [discriminate |].
  destruct (ascii_dec c x) as [-> | Hne].
  - rewrite Ascii.eqb_refl. reflexivity.
  - intros H. simpl in H. rewrite IH; [apply andb_false_r | exact H].
Qed.

Lemma lower_char_not_letter x :
  isLetter x = false -> lower_char x = x.
Proof.
  unfold isLetter, lower_char. intros H. apply orb_false_iff in H.
  destruct H as [H _]. now rewrite H.
Qed.

Lemma letterless_misses_letter s c :
  allChars (fun x => negb (isLetter x)) s = true ->
  isLetter c = true ->
  allChars (fun x => negb (Ascii.eqb x c)) (toLowerCase s) = true.
Proof.
  intros Hs Hc. unfold toLowerCase.
  induction s as [| x s IH]; simpl in *; [reflexivity |].
  apply andb_true_iff in Hs. destruct Hs as [Hx Hs].
  apply negb_true_iff in Hx. rewrite (lower_char_not_letter x Hx).
  rewrite (IH Hs), andb_true_r. apply negb_true_iff.
  apply Ascii.eqb_neq. intros ->. congruence.
Qed.

Lemma letterless_excludes s c r :
  allChars (fun x => negb (isLetter x)) s = true ->
  isLetter c = true ->
  includes (toLowerCase s) (String c r) = false.
Proof.
  intros Hs Hc. destruct (includes _ _) eqn:E; [| reflexivity].
  apply includes_first_char in E.
  now rewrite (letterless_misses_letter s c Hs Hc) in E.
Qed.

(** X1. For ASCII text: a bed description that holds the word "king",
    in any letter case and whatever else it holds, is a king bed; a
    description without any letter is a single bed. *)
Theorem normalizeBedType_keyword_and_default :
  (forall before word after,
      isAscii (before ++ word ++ after)%string = true ->
      toLowerCase word = "king" ->
      normalizeBedType (before ++ word ++ after)%string = king) /\
  (forall rawType,
      isAscii rawType = true ->
      allChars (fun x => negb (isLetter x)) rawType = true ->
      normalizeBedType rawType = single).
Proof.
  split.
  - intros before word after _ H. unfold normalizeBedType, toLowerCase in *.
    rewrite !map_string_app, H, includes_app. reflexivity.
  - intros rawType _ H. unfold normalizeBedType.
    rewrite !(letterless_excludes rawType _ _ H) by reflexivity.
    reflexivity.
Qed.

Lemma normalizeBedType_keyword_and_default_witness :
  normalizeBedType ("Queen or " ++ "KiNg" ++ " bed")%string = king /\
  normalizeBedType "--2--" = single.
Proof.
  destruct normalizeBedType_keyword_and_default as (H1 & H2).
  split; [apply H1 | apply H2]; reflexivity.
Defined.

Lemma upper_lower_char c : upper_char (lower_char c) = upper_char c.
Proof. destruct c as [[] [] [] [] [] [] [] []]; reflexivity. Qed.

Lemma upper_upper_char c : upper_char (upper_char c) = upper_char c.
Proof. destruct c as [[] [] [] [] [] [] [] []]; reflexivity. Qed.

Lemma upper_not_alnum c :
  isAlnum c = false ->
  (is_upper (upper_char c) || is_digit (upper_char c))%bool = false.
Proof. destruct c as [[] [] [] [] [] [] [] []]; vm_compute; congruence. Qed.

Lemma map_string_map_string f g s :
  (forall c, f (g c) = f c) -> map_string f (map_string g s) = map_string f s.
Proof. intros H. induction s; simpl; congruence. Qed.

Lemma normalized_nothing s :
  allChars (fun x => negb (isAlnum x)) s = true ->
  filter_string (fun c => (is_upper c || is_digit c)%bool) (toUpperCase s)
  = EmptyString.
Proof.
  unfold toUpperCase. induction s as [| c s IH]; simpl; [reflexivity |].
  intros H. apply andb_true_iff in H. destruct H as [Hc Hs].
  apply negb_true_iff in Hc. rewrite (upper_not_alnum c Hc). now apply IH.
Qed.

(** X2. For ASCII text: [mapAmenity] does not depend on letter case
    nor on characters that are no letters or digits, wherever they
    stand; a code without any letter or digit is classified as wifi. *)
Theorem mapAmenity_ignores_case_and_punctuation :
  (forall rawCode,
      isAscii rawCode = true ->
      mapAmenity (toLowerCase rawCode) = mapAmenity rawCode /\
      mapAmenity (toUpperCase rawCode) = mapAmenity rawCode) /\
  (forall before c after,
      isAscii (before ++ String c after)%string = true ->
      isAlnum c = false ->
      mapAmenity (before ++ String c after)%string
      = mapAmenity (before ++ after)%string) /\
  (forall rawCode,
      isAscii rawCode = true ->
      allChars (fun x => negb (isAlnum x)) rawCode = true ->
      mapAmenity rawCode = wifi).
Proof.
  split; [| split].
  - intros rawCode _. unfold mapAmenity, toUpperCase, toLowerCase.
    rewrite (map_string_map_string upper_char lower_char _ upper_lower_char).
    rewrite (map_string_map_string upper_char upper_char _ upper_upper_char).
    split; reflexivity.
  - intros before c after _ H. unfold mapAmenity, toUpperCase.
    rewrite !map_string_app, !filter_string_app. simpl.
    now rewrite (upper_not_alnum c H).
  - intros rawCode _ H. unfold mapAmenity.
    rewrite (normalized_nothing rawCode H). reflexivity.
Qed.

Lemma mapAmenity_ignores_case_and_punctuation_witness :
  mapAmenity (toLowerCase "Swimming Pool") = mapAmenity "Swimming Pool" /\
  mapAmenity ("front" ++ String "-" "desk")%string
  = mapAmenity ("front" ++ "desk")%string /\
  mapAmenity "?!" = wifi.
Proof.
  destruct mapAmenity_ignores_case_and_punctuation as (H1 & H2 & H3).
  split; [apply (H1 "Swimming Pool"%string) | split; [apply H2 | apply H3]];
    reflexivity.
Defined.

(** *** What is delivered *)

Section Deliveries.
Variable env : ParserEnv.

Lemma delivered_onOpenTag tag st :
  delivered (onOpenTag env tag st) = delivered st.
Proof.
  destruct (isRoomTag (tag_name tag)) eqn:E.
  - now apply open_room_tag.
  - apply (evolves_onOpenTag env StaysRoom (fun _ _ => True) (fun r => r));
      auto.
Qed.

(** One event delivers nothing, or, when it closes a room tag, at most
    one room, which has a name. *)
Lemma delivered_step e st :
  exists more,
    delivered (step env st e) = delivered st ++ more /\
    forallb named more = true /\
    (length more <= length (filter isRoomClose [e]))%nat.
Proof.
  destruct e as [tag | s | tag]; simpl.
  - exists []. rewrite delivered_onOpenTag, app_nil_r. auto.
  - exists []. rewrite app_nil_r. split; [| auto].
    unfold onText. destruct (currentRoom st); reflexivity.
  - destruct (isRoomTag (tag_name tag)) eqn:E.
    + destruct (currentRoom st) as [r |] eqn:Er.
      * rewrite (close_room_tag tag st r E Er).
        destruct (truthy_string (name r)) eqn:En.
        -- eexists. split; [reflexivity |]. simpl. unfold named. simpl.
           rewrite En. auto.
        -- exists []. simpl. auto.
      * rewrite (onCloseTag_outside_room tag st Er). exists [].
        rewrite app_nil_r. simpl. auto.
    + exists []. rewrite app_nil_r. split; [| auto].
      apply (evolves_onCloseTag StaysRoom (fun _ _ => True) (fun r => r));
        auto.
Qed.

Lemma delivered_run events : forall st,
  exists more,
    delivered (run env st events) = delivered st ++ more /\
    forallb named more = true /\
    (length more <= length (filter isRoomClose events))%nat.
Proof.
  induction events as [| e events IH]; intros st.
  - exists []. simpl. rewrite app_nil_r. auto.
  - destruct (delivered_step e st) as (m1 & D1 & N1 & L1).
    destruct (IH (step env st e)) as (m2 & D2 & N2 & L2).
    exists (m1 ++ m2). cbn [run fold_left].
    change (fold_left (step env) events ?s) with (run env s events).
    rewrite D2, D1, <- app_assoc. split; [reflexivity |].
    rewrite forallb_app, N1, N2. split; [reflexivity |].
    rewrite length_app. simpl in *.
    destruct (isRoomClose e); simpl in *; lia.
Qed.

End Deliveries.

(** X3. Every room handed to [onRoomFound] has a non-empty name, for
    every stream of events. *)
Theorem delivered_rooms_have_names :
  forall env events, forallb named (parse env events) = true.
Proof.
  intros env events. unfold parse.
  destruct (delivered_run env events initialState) as (more & D & N & _).
  rewrite D. exact N.
Qed.

(** X4. Deliveries are made in order and never taken back: what was
    delivered stays a prefix of what is delivered later, and a run
    delivers at most one room for each closing room tag it holds. *)
Theorem deliveries_append_only :
  forall env st events,
    exists more,
      delivered (run env st events) = delivered st ++ more /\
      (length more <= length (filter isRoomClose events))%nat.
Proof.
  intros env st events.
  destruct (delivered_run env events st) as (more & D & _ & L).
  exists more. auto.
Qed.

(** *** Outside a room, and a room inside a room *)

Section Outside.
Variable env : ParserEnv.

Lemma outside_step e st :
  currentRoom st = None -> isRoomOpen e = false ->
  currentRoom (step env st e) = None /\
  delivered (step env st e) = delivered st.
Proof.
  intros H E. destruct e as [tag | s | tag]; simpl in *.
  - split; [| apply delivered_onOpenTag].
    unfold onOpenTag.
    set (st0 := set_textBuffer "" (set_currentTag (Some (tag_name tag)) st)).
    assert (K : currentRoom (openRoom tag (openHotel tag st0)) = None).
    { unfold openRoom, openHotel. rewrite E.
      destruct (isHotelTag _); exact H. }
    rewrite K. exact K.
  - unfold onText. rewrite H. auto.
  - rewrite (onCloseTag_outside_room tag st H). auto.
Qed.

Lemma outside_run events : forall st,
  currentRoom st = None -> forallb (fun e => negb (isRoomOpen e)) events = true ->
  currentRoom (run env st events) = None /\
  delivered (run env st events) = delivered st.
Proof.
  induction events as [| e events IH]; intros st H E; [auto |].
  simpl in E. apply andb_true_iff in E. destruct E as [Ee E].
  apply negb_true_iff in Ee.
  destruct (outside_step e st H Ee) as (H1 & D1).
  destruct (IH _ H1 E) as (H2 & D2).
  cbn [run fold_left].
  change (fold_left (step env) events ?s) with (run env s events).
  split; [exact H2 | congruence].
Qed.

Lemma close_room_tag_state tag st :
  isRoomTag (tag_name tag) = true -> currentRoom (onCloseTag tag st) = None.
Proof.
  intros H. destruct (currentRoom st) as [r |] eqn:Hr;
    [| now rewrite (onCloseTag_outside_room tag st Hr)].
  destruct tag as [n a]. simpl in H.
  assert (Hh : isHotelTag n = false)
    by (destruct (isRoomTag_cases n H) as [-> | ->]; reflexivity).
  assert (Hrt : isRateTag n = false)
    by (destruct (isRoomTag_cases n H) as [-> | ->]; reflexivity).
  unfold onCloseTag. rewrite Hr. cbn [tag_name]. rewrite Hh.
  destruct (currentRate st); rewrite ?Hrt;
    unfold closeRoomPart, closeRoom; cbn [tag_name]; rewrite H; reflexivity.
Qed.

Lemma insideRoom_not_open events :
  forallb insideRoom events = true ->
  forallb (fun e => negb (isRoomOpen e)) events = true.
Proof.
  intros H. apply forallb_forall. intros e He.
  pose proof (proj1 (forallb_forall _ _) H e He) as Hi.
  destruct e; simpl in *; auto.
Qed.

End Outside.

(** X5. A room element nested in a room element: when the inner room
    opens, what the outer room had gathered is discarded; after the inner
    room closes no room is under construction, and nothing that follows,
    the end tag of the outer room included, delivers anything.  At most
    the inner room is delivered. *)
Theorem nested_room_outer_lost :
  forall env st (outerOpen innerOpen innerClose outerClose : SaxesTag)
         (before body after : list SaxEvent),
    isRoomTag (tag_name outerOpen) = true ->
    isRoomTag (tag_name innerOpen) = true ->
    isRoomTag (tag_name innerClose) = true ->
    isRoomTag (tag_name outerClose) = true ->
    forallb insideRoom before = true ->
    forallb insideRoom body = true ->
    forallb insideRoom after = true ->
    let s_in := run env st (opentag outerOpen :: before ++ [opentag innerOpen]) in
    let s_out := run env s_in (body ++ [closetag innerClose]) in
    currentRoom s_in = Some (newRoom innerOpen) /\
    currentRoom s_out = None /\
    delivered (run env s_out (after ++ [closetag outerClose])) = delivered s_out /\
    exists more,
      delivered s_out = delivered st ++ more /\ (length more <= 1)%nat.
Proof.
  intros env st outerOpen innerOpen innerClose outerClose before body after
         Hoo Hio Hic Hoc Hbefore Hbody Hafter s_in s_out.
  assert (Hin : currentRoom s_in = Some (newRoom innerOpen) /\
                delivered s_in = delivered st).
  { subst s_in. cbn [run fold_left step].
    change (fold_left (step env) ?l ?s) with (run env s l).
    rewrite run_app. cbn [run fold_left step].
    destruct (open_room_tag env innerOpen
                (run env (onOpenTag env outerOpen st) before) Hio) as (R & D).
    split; [exact R |]. rewrite D.
    destruct (growsRates_run env before (onOpenTag env outerOpen st) Hbefore)
      as (D1 & _).
    rewrite D1. apply delivered_onOpenTag. }
  destruct Hin as (Rin & Din).
  destruct (growsRates_run env body s_in Hbody) as (Db & Gb).
  destruct (Gb _ Rin) as (room & Rb & _).
  assert (Hout : currentRoom s_out = None /\
                 delivered s_out
                 = delivered st
                   ++ (if truthy_string (name room)
                       then [(room, currentSourceId (run env s_in body),
                              currentHotelId (run env s_in body))]
                       else [])).
  { subst s_out. rewrite run_app. cbn [run fold_left step].
    split; [now apply close_room_tag_state |].
    rewrite (close_room_tag innerClose _ room Hic Rb). congruence. }
  destruct Hout as (Rout & Dout).
  split; [exact Rin |]. split; [exact Rout |]. split.
  - apply outside_run; [exact Rout |].
    rewrite forallb_app. rewrite (insideRoom_not_open after Hafter).
    reflexivity.
  - eexists. split; [exact Dout |].
    destruct (truthy_string (name room)); simpl; lia.
Qed.

Lemma nested_room_outer_lost_witness :
  let s_in :=
    run sampleEnv initialState
        (opentag (mkTag "Room" [("name", "Outer")])
         :: [text "x"] ++ [opentag (mkTag "Room" [("name", "Inner")])]) in
  let s_out := run sampleEnv s_in ([] ++ [closetag (mkTag "Room" [])]) in
  currentRoom s_in = Some (newRoom (mkTag "Room" [("name", "Inner")])) /\
  currentRoom s_out = None /\
  delivered (run sampleEnv s_out ([] ++ [closetag (mkTag "Room" [])]))
  = delivered s_out /\
  exists more,
    delivered s_out = delivered initialState ++ more /\ (length more <= 1)%nat.
Proof.
  apply (nested_room_outer_lost sampleEnv initialState
           (mkTag "Room" [("name", "Outer")])
           (mkTag "Room" [("name", "Inner")]) (mkTag "Room" [])
           (mkTag "Room" []) [text "x"] [] []); reflexivity.
Defined.

(** *** The ids of the context *)

Section Context.
Variable env : ParserEnv.

Lemma sourceId_nested tag st :
  truthy (currentSourceId st) = true ->
  currentSourceId
    (openRate env tag
       (openAmenity tag (openPhoto tag (openTypeRoom tag (openBed tag st)))))
  = currentSourceId st.
Proof.
  intros H.
  assert (K1 : currentSourceId (openBed tag st) = currentSourceId st)
    by (unfold openBed; destruct (String.eqb _ _); reflexivity).
  assert (K2 : forall s0, truthy (currentSourceId s0) = true ->
                          currentSourceId (openTypeRoom tag s0)
                          = currentSourceId s0).
  { intros s0 H0. unfold openTypeRoom.
    destruct (String.eqb _ _); [| reflexivity].
    simpl. rewrite H0, andb_false_r. reflexivity. }
  assert (K3 : forall s0, currentSourceId (openPhoto tag s0)
                          = currentSourceId s0).
  { intros s0. unfold openPhoto. destruct (_ || _)%bool; [| reflexivity].
    destruct (or_else _ _) as [u |]; [| reflexivity].
    destruct (truthy_string u); reflexivity. }
  assert (K4 : forall s0, currentSourceId (openAmenity tag s0)
                          = currentSourceId s0)
    by (intros s0; unfold openAmenity; destruct (String.eqb _ _); reflexivity).
  assert (K5 : forall s0, currentSourceId (openRate env tag s0)
                          = currentSourceId s0)
    by (intros s0; unfold openRate; destruct (isRateTag _); reflexivity).
  rewrite K5, K4, K3, K2, K1; [reflexivity | now rewrite K1].
Qed.

Lemma sourceId_step e st :
  insideRoom e = true -> truthy (currentSourceId st) = true ->
  currentSourceId (step env st e) = currentSourceId st.
Proof.
  intros Hi H. destruct e as [tag | s | tag]; simpl in *.
  - apply negb_true_iff in Hi. unfold onOpenTag.
    set (st0 := set_textBuffer "" (set_currentTag (Some (tag_name tag)) st)).
    assert (K : currentSourceId (openRoom tag (openHotel tag st0))
                = currentSourceId st).
    { unfold openRoom, openHotel. rewrite Hi.
      destruct (isHotelTag _); reflexivity. }
    destruct (currentRoom (openRoom tag (openHotel tag st0))); [| exact K].
    rewrite sourceId_nested; [exact K | now rewrite K].
  - unfold onText. destruct (currentRoom st); reflexivity.
  - apply negb_true_iff in Hi. unfold onCloseTag.
    destruct (currentRoom st); [| reflexivity].
    assert (K : forall c s0, currentSourceId (closeRoomPart tag c s0)
                             = currentSourceId s0).
    { intros c s0. unfold closeRoomPart, closeRoom. rewrite Hi. reflexivity. }
    destruct (isHotelTag (tag_name tag)); simpl;
      (destruct (currentRate st);
       [destruct (isRateTag (tag_name tag)); [reflexivity | now rewrite K]
       | now rewrite K]).
Qed.

Lemma hotelId_nested tag st :
  currentHotelId
    (openRate env tag
       (openAmenity tag (openPhoto tag (openTypeRoom tag (openBed tag st)))))
  = currentHotelId st.
Proof.
  unfold openRate, openAmenity, openPhoto, openTypeRoom, openBed.
  repeat match goal with
         | |- context [if ?b then _ else _] => destruct b; simpl
         | |- context [match ?o with Some _ => _ | None => _ end] =>
             destruct o; simpl
         end; reflexivity.
Qed.

Lemma hotelId_step e st :
  isHotelEvent e = false ->
  currentHotelId (step env st e) = currentHotelId st.
Proof.
  intros Hh. destruct e as [tag | s | tag]; simpl in *.
  - unfold onOpenTag.
    set (st0 := set_textBuffer "" (set_currentTag (Some (tag_name tag)) st)).
    assert (K : currentHotelId (openRoom tag (openHotel tag st0))
                = currentHotelId st).
    { unfold openRoom, openHotel. rewrite Hh.
      destruct (isRoomTag _); reflexivity. }
    destruct (currentRoom (openRoom tag (openHotel tag st0))); [| exact K].
    now rewrite hotelId_nested.
  - unfold onText. destruct (currentRoom st); reflexivity.
  - unfold onCloseTag. destruct (currentRoom st) as [r0 |]; [| reflexivity].
    rewrite Hh.
    assert (K : forall c s0, currentHotelId (closeRoomPart tag c s0)
                             = currentHotelId s0).
    { intros c s0. unfold closeRoomPart, closeRoom.
      destruct (isRoomTag _); [| reflexivity]. simpl.
      destruct (currentRoom s0) as [r |]; simpl; [| reflexivity].
      destruct (truthy_string _); reflexivity. }
    destruct (currentRate st);
      [destruct (isRateTag (tag_name tag)); [reflexivity | now rewrite K]
      | now rewrite K].
Qed.

End Context.

(** X6. The source id captured when a room opens takes precedence:
    once it is non-empty, no event inside the room changes it.  The hotel
    id changes only at a hotel wrapper tag. *)
Theorem context_ids_stable :
  (forall env st events,
      forallb insideRoom events = true ->
      truthy (currentSourceId st) = true ->
      currentSourceId (run env st events) = currentSourceId st) /\
  (forall env st events,
      forallb (fun e => negb (isHotelEvent e)) events = true ->
      currentHotelId (run env st events) = currentHotelId st).
Proof.
  split.
  - intros env st events. revert st.
    induction events as [| e events IH]; intros st Hi H; [reflexivity |].
    simpl in Hi. apply andb_true_iff in Hi. destruct Hi as [He Hi].
    cbn [run fold_left].
    change (fold_left (step env) events ?s) with (run env s events).
    pose proof (sourceId_step env e st He H) as K.
    rewrite IH; [exact K | exact Hi | now rewrite K].
  - intros env st events. revert st.
    induction events as [| e events IH]; intros st Hi; [reflexivity |].
    simpl in Hi. apply andb_true_iff in Hi. destruct Hi as [He Hi].
    apply negb_true_iff in He.
    cbn [run fold_left].
    change (fold_left (step env) events ?s) with (run env s events).
    rewrite IH by exact Hi. now apply hotelId_step.
Qed.

Lemma context_ids_stable_witness :
  let st := run sampleEnv initialState
                [opentag (mkTag "GuestRoom" [("RoomTypeCode", "DK123")])] in
  currentSourceId
    (run sampleEnv st
         [opentag (mkTag "TypeRoom" [("name", "Suite"); ("code", "OTHER")])])
  = Some "DK123".
Proof.
  apply (proj1 context_ids_stable sampleEnv
           (run sampleEnv initialState
                [opentag (mkTag "GuestRoom" [("RoomTypeCode", "DK123")])])
           [opentag (mkTag "TypeRoom" [("name", "Suite"); ("code", "OTHER")])]);
    reflexivity.
Defined.

(** *** Amounts *)

Lemma isAmountTag_cases n :
  isAmountTag n = true -> n = "Amount" \/ n = "Total".
Proof.
  unfold isAmountTag. intros H. apply orb_true_iff in H.
  destruct H as [H | H]; apply String.eqb_eq in H; auto.
Qed.

(** X7. An [Amount] or [Total] element with text content, inside a room
    with an open rate, sets the rate's total amount to the trimmed text;
    a non-empty [currency] attribute becomes the currency of all five
    amounts, and without one the currencies stay.  The other amounts and
    the room are left as they are. *)
Theorem amount_sets_total_and_currencies :
  forall env st room rate n attrs chunks,
    currentRoom st = Some room ->
    currentRate st = Some rate ->
    isAmountTag n = true ->
    let st' := run env st (element n attrs (map text chunks)) in
    currentRoom st' = Some room /\
    exists rate',
      currentRate st' = Some rate' /\
      money rate'
      = (if truthy (lookup "currency" attrs)
         then
           let c := or_string (lookup "currency" attrs) "" in
           ((trim (textOf chunks), c), (base_amount rate, c),
            (tax_amount rate, c), (fee_amount rate, c),
            (due_at_accommodation_amount rate, c))
         else
           ((trim (textOf chunks), total_currency rate),
            (base_amount rate, base_currency rate),
            (tax_amount rate, tax_currency rate),
            (fee_amount rate, fee_currency rate),
            (due_at_accommodation_amount rate,
             due_at_accommodation_currency rate))).
Proof.
  intros env st room rate n attrs chunks Hr Hrate Hn st'. subst st'.
  unfold element, run. cbn [fold_left step].
  change (fold_left (step env) ?l ?s) with (run env s l).
  rewrite run_app.
  destruct (isAmountTag_cases n Hn) as [-> | ->].
  - assert (Hopen : onOpenTag env (mkTag "Amount" attrs) st
                    = set_textBuffer "" (set_currentTag (Some "Amount") st))
      by (unfold onOpenTag; simpl; rewrite Hr; reflexivity).
    rewrite Hopen. rewrite (run_texts env chunks _ room) by exact Hr.
    cbn [run fold_left step]. unfold onCloseTag. simpl. rewrite Hr, Hrate.
    simpl. rewrite Hr. simpl.
    split; [destruct room; reflexivity |].
    eexists. split; [reflexivity |].
    unfold closeRateField, attr. simpl.
    destruct (lookup "currency" attrs) as [c |]; simpl; try reflexivity.
    destruct (truthy_string c); reflexivity.
  - assert (Hopen : onOpenTag env (mkTag "Total" attrs) st
                    = set_textBuffer "" (set_currentTag (Some "Total") st))
      by (unfold onOpenTag; simpl; rewrite Hr; reflexivity).
    rewrite Hopen. rewrite (run_texts env chunks _ room) by exact Hr.
    cbn [run fold_left step]. unfold onCloseTag. simpl. rewrite Hr, Hrate.
    simpl. rewrite Hr. simpl.
    split; [destruct room; reflexivity |].
    eexists. split; [reflexivity |].
    unfold closeRateField, attr. simpl.
    destruct (lookup "currency" attrs) as [c |]; simpl; try reflexivity.
    destruct (truthy_string c); reflexivity.
Qed.

Lemma amount_sets_total_and_currencies_witness :
  let st :=
    run sampleEnv initialState
        [opentag (mkTag "GuestRoom" [("name", "Standard")]);
         opentag (mkTag "RatePlan" [("id", "rate_123")])] in
  let st' :=
    run sampleEnv st
        (element "Total" [("currency", "GBP")] (map text [" 150"; ".00 "])) in
  exists room rate',
    currentRoom st' = Some room /\
    currentRate st' = Some rate' /\
    money rate'
    = (("150.00", "GBP"), (None, "GBP"), (None, "GBP"), (None, "GBP"),
       (None, "GBP")).
Proof.
  destruct (amount_sets_total_and_currencies sampleEnv
              (run sampleEnv initialState
                   [opentag (mkTag "GuestRoom" [("name", "Standard")]);
                    opentag (mkTag "RatePlan" [("id", "rate_123")])])
              (newRoom (mkTag "GuestRoom" [("name", "Standard")]))
              (defaultRate sampleEnv 0 (mkTag "RatePlan" [("id", "rate_123")]))
              "Total" [("currency", "GBP")] [" 150"; ".00 "]
              eq_refl eq_refl eq_refl) as (H1 & rate' & H2 & H3).
  exists (newRoom (mkTag "GuestRoom" [("name", "Standard")])), rate'.
  split; [exact H1 |]. split; [exact H2 | exact H3].
Defined.

End ParserExtras.

(* ================================================================== *)
(** ** Further properties of the room mapping service                   *)
(* ================================================================== *)

Module ServiceExtras.
Import Js Stays MappingService ServiceSpec ServiceQueries ExtraSpec
       ServiceProofs.
Import ParserSpec.
Local Open Scope list_scope.
Local Open Scope service_scope.

Lemma extends_self {A} (l : list A) : extends l l.
Proof. exists []. symmetry. apply app_nil_r. Qed.

Lemma extends_more {A} (l more : list A) : extends l (l ++ more).
Proof. exists more. reflexivity. Qed.

Lemma map_updateRows {R B} (id_of : R -> Id) id (data : R -> R)
      (f : R -> B) l :
  (forall r, f (data r) = f r) ->
  map f (updateRows id_of id data l) = map f l.
Proof.
  intros H. unfold updateRows. rewrite map_map. apply map_ext.
  intros r. destruct (String.eqb (id_of r) id); auto.
Qed.

Lemma ids_upsertedConflicts detectedAt internalAt id entityType entityId
      fieldName source newValue currentValue l :
  extends (map mc_id l)
          (map mc_id (upsertedConflicts detectedAt internalAt id entityType
                        entityId fieldName source newValue currentValue l)).
Proof.
  unfold upsertedConflicts. destruct (find _ l).
  - rewrite map_updateRows by reflexivity. apply extends_self.
  - rewrite map_app. apply extends_more.
Qed.

(** *** What [mapRoom] writes *)

(** X8. [mapRoom] never fails, never writes to the hotel mappings, never
    changes or removes a room (rooms are only added at the end), and
    removes no mapping and no conflict row. *)
Theorem mapRoom_never_fails_nor_deletes :
  forall env hotelSourceId roomSourceId source roomData options w,
    let call :=
      mapRoom env hotelSourceId roomSourceId source roomData options in
    result call w = Ok tt /\
    hotelMappings (exec call w) = hotelMappings w /\
    extends (rooms w) (rooms (exec call w)) /\
    extends (map rm_id (roomMappings w))
            (map rm_id (roomMappings (exec call w))) /\
    extends (map mc_id (mappingConflicts w))
            (map mc_id (mappingConflicts (exec call w))).
Proof.
  intros env hotelSourceId roomSourceId source roomData options w call.
  destruct (find (hotelKey source hotelSourceId) (hotelMappings w))
    as [hm |] eqn:Hh.
  - destruct (mapRoom_effect env hotelSourceId roomSourceId source roomData
                options hm w Hh) as (found & w1 & w2 & H1 & H2 & H3).
    destruct (upsertMapping_effect env hm roomSourceId source roomData
                (confidenceOf options) (mappingTypeOf options)
                (isPrimaryOf options) w)
      as (found' & w1' & H1' & (KH & KC) & E).
    rewrite H1 in H1'. injection H1' as <- <-.
    destruct (afterMapping_effect env source roomData found w1)
      as (w2' & H2' & (KH2 & KM & KR) & C).
    rewrite H2 in H2'. injection H2' as <-.
    unfold result, exec, call. rewrite H3. simpl.
    split; [reflexivity |]. split; [congruence |].
    rewrite KR, KM.
    assert (Hconf : extends (map mc_id (mappingConflicts w))
                            (map mc_id (mappingConflicts w2))).
    { destruct (snd found) as [r |];
        [| rewrite C, KC; apply extends_self].
      destruct C as (Cd & Ca).
      destruct (disagree_dec r roomData) as [(c & v & Hd) | Hn].
      - rewrite (Cd c v Hd), KC. apply ids_upsertedConflicts.
      - rewrite (Ca Hn), KC. apply extends_self. }
    destruct (find (sameMappingKey source roomSourceId (hm_id hm))
                   (roomMappings w)) as [m |].
    + destruct E as (ER & ERooms & _). rewrite ER, ERooms.
      rewrite map_updateRows by reflexivity.
      split; [apply extends_self |]. split; [apply extends_self | exact Hconf].
    + destruct E as (r & id & now & ER & _ & ERooms). rewrite ER, map_app.
      split; [| split; [apply extends_more | exact Hconf]].
      destruct (find _ (rooms w)).
      * destruct ERooms as (_ & ->). apply extends_self.
      * destruct ERooms as (_ & ->). apply extends_more.
  - destruct (mapRoom_without_hotel env hotelSourceId roomSourceId source
                roomData options w Hh)
      as (wx & Hx & (K1 & K2 & K3) & (_ & K4)).
    unfold result, exec, call. rewrite Hx. simpl.
    rewrite K1, K2, K3, K4.
    repeat split; try reflexivity; apply extends_self.
Qed.

Lemma describe_parts a :
  describe a
  = match class a, view a with
    | Some c, Some v =>
        if String.eqb c ""
        then (if String.eqb v "" then None else Some v)
        else (if String.eqb v "" then Some c
              else Some (c ++ ", " ++ v)%string)
    | Some c, None => if String.eqb c "" then None else Some c
    | None, Some v => if String.eqb v "" then None else Some v
    | None, None => None
    end.
Proof.
  unfold describe.
  destruct (class a) as [[| c0 c] |], (view a) as [[| v0 v] |];
    reflexivity.
Qed.

(** X9. The first ingestion of a room the hotel does not know yet (no
    mapping for the key, no room of that name) adds one room.  The room
    has the incoming name; its description is the class and the view
    joined by ", " when both are strings that are not empty, the one of
    them that is not empty otherwise, and null when neither is; its
    occupancy is the incoming one, or 2 when that is missing, zero or
    not a number.  The call adds the mapping to that room and records no
    conflict. *)
Theorem mapRoom_first_ingestion :
  forall env hotelSourceId roomSourceId source roomData options w
         hotelMapping,
    find (hotelKey source hotelSourceId) (hotelMappings w)
    = Some hotelMapping ->
    find (sameMappingKey source roomSourceId (hm_id hotelMapping))
         (roomMappings w) = None ->
    find (roomByName hotelMapping roomData) (rooms w) = None ->
    let w' :=
      exec (mapRoom env hotelSourceId roomSourceId source roomData options)
           w in
    let description :=
      match class (attributes roomData), view (attributes roomData) with
      | Some c, Some v =>
          if String.eqb c ""
          then (if String.eqb v "" then None else Some v)
          else (if String.eqb v "" then Some c
                else Some (c ++ ", " ++ v)%string)
      | Some c, None => if String.eqb c "" then None else Some c
      | None, Some v => if String.eqb v "" then None else Some v
      | None, None => None
      end in
    let occupancy :=
      match max_occupancy roomData with
      | Some (Int z) => if Z.eqb z 0 then 2 else z
      | Some NaN => 2
      | None => 2
      end in
    let created :=
      mkRoomRow (newId env (idsIssued w)) (hm_hotelId hotelMapping)
                (name roomData) description (Some occupancy) in
    rooms w' = rooms w ++ [created] /\
    (exists id now,
        roomMappings w'
        = roomMappings w
          ++ [mkRoomMapping id (room_id created) (hm_id hotelMapping) source
                            roomSourceId roomData (confidenceOf options)
                            (mappingTypeOf options) (isPrimaryOf options) now
                            (calculateQualityScore roomData)]) /\
    mappingConflicts w' = mappingConflicts w.
Proof.
  intros env hotelSourceId roomSourceId source roomData options w hm
         Hh Hm Hr w' description occupancy created.
  assert (Hc : created
               = mkRoomRow (newId env (idsIssued w)) (hm_hotelId hm)
                           (name roomData) (describe (attributes roomData))
                           (Some (occupancyOrDefault
                                    (max_occupancy roomData)))).
  { unfold created, description, occupancy.
    rewrite (describe_parts (attributes roomData)).
    unfold occupancyOrDefault.
    destruct (max_occupancy roomData) as [[| z] |]; reflexivity. }
  destruct (mapRoom_effect env hotelSourceId roomSourceId source roomData
              options hm w Hh) as (found & w1 & w2 & H1 & H2 & H3).
  destruct (upsertMapping_effect env hm roomSourceId source roomData
              (confidenceOf options) (mappingTypeOf options)
              (isPrimaryOf options) w)
    as (found' & w1' & H1' & (KH & KC) & E).
  rewrite H1 in H1'. injection H1' as <- <-.
  destruct (afterMapping_effect env source roomData found w1)
    as (w2' & H2' & (KH2 & KM & KR) & C).
  rewrite H2 in H2'. injection H2' as <-.
  subst w'. unfold exec. rewrite H3. simpl.
  rewrite Hm in E. destruct E as (r & id & now & ER & Efound & ERooms).
  unfold roomByName in Hr. rewrite Hr in ERooms.
  destruct ERooms as (Er & ERooms). rewrite <- Hc in Er. subst r.
  split; [rewrite KR; exact ERooms |].
  split; [exists id, now; rewrite KM; exact ER |].
  rewrite Efound in C. simpl in C. destruct C as (_ & Ca).
  rewrite Ca; [exact KC |].
  intros c v (A1 & A2 & A3 & A4 & A5). unfold created, occupancy in A1.
  simpl in A1. rewrite A2 in A1.
  apply Z.eqb_neq in A4. rewrite A4 in A1. congruence.
Qed.

Lemma mapRoom_first_ingestion_witness :
  let w := mkWorld [hotel1] [] [] [] [] 0 0 [] [] in
  rooms (exec (mapRoom sampleService "h_src_1" "r_src_1" "provider_b"
                       oceanSuite noOptions) w)
  = [mkRoomRow "a_new" "h_1" "Ocean Suite" (Some "Deluxe, Ocean") (Some 4)] /\
  rooms (exec (mapRoom sampleService "h_src_1" "r_src_2" "provider_b"
                       plainRoom noOptions) w)
  = [mkRoomRow "a_new" "h_1" "Plain Room" (Some "Standard") (Some 2)].
Proof.
  destruct (mapRoom_first_ingestion sampleService "h_src_1" "r_src_1"
              "provider_b" oceanSuite noOptions
              (mkWorld [hotel1] [] [] [] [] 0 0 [] []) hotel1
              eq_refl eq_refl eq_refl) as (H1 & _ & _).
  destruct (mapRoom_first_ingestion sampleService "h_src_1" "r_src_2"
              "provider_b" plainRoom noOptions
              (mkWorld [hotel1] [] [] [] [] 0 0 [] []) hotel1
              eq_refl eq_refl eq_refl) as (H2 & _ & _).
  split; [exact H1 | exact H2].
Defined.

(** X10. [mapRoom] keeps the mapping table free of duplicates: when
    every (source, sourceId, hotelMappingId) has at most one row before
    the call, so it has after. *)
Theorem mapRoom_keeps_mappings_unique :
  forall env hotelSourceId roomSourceId source roomData options w,
    oneMappingPerKey (roomMappings w) ->
    oneMappingPerKey
      (roomMappings
         (exec (mapRoom env hotelSourceId roomSourceId source roomData
                        options) w)).
Proof.
  intros env hotelSourceId roomSourceId source roomData options w Hinv.
  destruct (find (hotelKey source hotelSourceId) (hotelMappings w))
    as [hm |] eqn:Hh.
  - destruct (mapRoom_effect env hotelSourceId roomSourceId source roomData
                options hm w Hh) as (found & w1 & w2 & H1 & H2 & H3).
    destruct (upsertMapping_effect env hm roomSourceId source roomData
                (confidenceOf options) (mappingTypeOf options)
                (isPrimaryOf options) w)
      as (found' & w1' & H1' & _ & E).
    rewrite H1 in H1'. injection H1' as <- <-.
    destruct (afterMapping_effect env source roomData found w1)
      as (w2' & H2' & (_ & KM & _) & _).
    rewrite H2 in H2'. injection H2' as <-.
    unfold exec. rewrite H3. simpl. rewrite KM.
    intros s0 rs0 hm0.
    destruct (find (sameMappingKey source roomSourceId (hm_id hm))
                   (roomMappings w)) as [m |] eqn:Em.
    + destruct E as (ER & _ & _). rewrite ER.
      rewrite filter_updateRows
        by (intros r; apply sameMappingKey_refreshMapping).
      rewrite length_updateRows. apply Hinv.
    + destruct E as (r & id & now & ER & _ & _). rewrite ER.
      rewrite filter_app, length_app. cbn [filter].
      match goal with
      | |- context [if ?b then _ else _] => destruct b eqn:Ep
      end; simpl.
      * unfold sameMappingKey in Ep. simpl in Ep.
        rewrite !andb_true_iff in Ep. destruct Ep as ((E1 & E2) & E3).
        apply String.eqb_eq in E1, E2, E3. subst s0 rs0 hm0.
        rewrite (filter_nil_of_find _ _ Em). simpl. lia.
      * rewrite Nat.add_0_r. apply Hinv.
  - destruct (mapRoom_without_hotel env hotelSourceId roomSourceId source
                roomData options w Hh) as (wx & Hx & (_ & K2 & _) & _).
    unfold exec. rewrite Hx. simpl. rewrite K2. exact Hinv.
Qed.

Lemma mapRoom_keeps_mappings_unique_witness :
  oneMappingPerKey
    (roomMappings
       (exec (mapRoom sampleService "h_src_1" "r_src_1" "provider_b"
                      (incoming 4) noOptions) freshWorld)).
Proof.
  apply mapRoom_keeps_mappings_unique. intros s0 rs0 hm0. simpl. lia.
Defined.

(** *** Content enrichment *)

Lemma upsertRoomEnrichment_rows env roomId source fieldName content quality w :
  exists w',
    upsertRoomEnrichment env roomId source fieldName content quality w
    = (Ok tt, w') /\
    keepsMappings w w' /\ keepsConflicts w w' /\ emitted w' = emitted w /\
    roomContentEnrichments w'
    = upsertedEnrichments (clock env (clockReads w)) (newId env (idsIssued w))
                          roomId source fieldName content quality
                          (roomContentEnrichments w).
Proof.
  unfold upsertRoomEnrichment, upsertedEnrichments, enrichmentKey,
         bind at 1, findFirst.
  destruct (find _ (roomContentEnrichments w)) as [ex |] eqn:E.
  - unfold bind at 1, newDate.
    match goal with
    | |- context [update ?t ?s ?i ?k ?d] =>
        match goal with
        | |- context [bind _ _ ?w0] =>
            destruct (update_found t s i d _ w0 ex E) as (y & Hy & _)
        end
    end.
    eexists. rewrite (bind_ok _ _ _ _ _ Hy). unfold ret.
    split; [reflexivity |]. repeat split; reflexivity.
  - unfold create, freshId, bind, ret. eexists.
    split; [reflexivity |]. repeat split; reflexivity.
Qed.

Lemma enrichmentKey_refreshEnrichment roomId source fieldName content quality
      now r :
  enrichmentKey roomId source fieldName (refreshEnrichment content quality now r)
  = enrichmentKey roomId source fieldName r.
Proof. reflexivity. Qed.

Lemma find_app_none {R} (p : R -> bool) l x :
  find p l = None -> p x = true -> find p (l ++ [x]) = Some x.
Proof.
  intros H Hx. induction l as [| r l IH]; simpl in *; [now rewrite Hx |].
  destruct (p r); [discriminate | auto].
Qed.

Lemma enrichmentKey_self id roomId source fieldName content quality at_ :
  enrichmentKey roomId source fieldName
    (mkEnrichment id roomId source fieldName content quality at_) = true.
Proof. unfold enrichmentKey. simpl. now rewrite !String.eqb_refl. Qed.

Lemma enrichmentKey_eq roomId source fieldName e roomId' source' fieldName' :
  enrichmentKey roomId source fieldName e = true ->
  enrichmentKey roomId' source' fieldName' e = true ->
  roomId' = roomId /\ source' = source /\ fieldName' = fieldName.
Proof.
  unfold enrichmentKey. rewrite !andb_true_iff.
  intros ((A1 & A2) & A3) ((B1 & B2) & B3).
  apply String.eqb_eq in A1, A2, A3, B1, B2, B3. repeat split; congruence.
Qed.

Lemma upsertedEnrichments_lookup now id roomId source fieldName content
      quality l :
  exists e,
    find (enrichmentKey roomId source fieldName)
         (upsertedEnrichments now id roomId source fieldName content quality l)
    = Some e /\
    en_content e = content /\ en_quality e = quality /\
    length (filter (enrichmentKey roomId source fieldName)
              (upsertedEnrichments now id roomId source fieldName content
                                   quality l))
    = Nat.max 1 (length (filter (enrichmentKey roomId source fieldName) l)).
Proof.
  unfold upsertedEnrichments.
  destruct (find (enrichmentKey roomId source fieldName) l) as [ex |] eqn:E.
  - exists (refreshEnrichment content quality now ex).
    split; [apply find_updateRows; [reflexivity | exact E] |].
    split; [reflexivity |]. split; [reflexivity |].
    rewrite filter_updateRows by reflexivity. rewrite length_updateRows.
    rewrite find_filter_head in E.
    destruct (filter (enrichmentKey roomId source fieldName) l);
      [discriminate | simpl; lia].
  - exists (mkEnrichment id roomId source fieldName content quality None).
    split; [apply find_app_none; [exact E | apply enrichmentKey_self] |].
    split; [reflexivity |]. split; [reflexivity |].
    rewrite filter_app, length_app, (filter_nil_of_find _ _ E).
    cbn [filter]. rewrite enrichmentKey_self. reflexivity.
Qed.

Lemma upsertedEnrichments_invariant now id roomId source fieldName content
      quality l :
  oneEnrichmentPerKey l ->
  oneEnrichmentPerKey
    (upsertedEnrichments now id roomId source fieldName content quality l).
Proof.
  intros H r0 s0 f0. unfold upsertedEnrichments.
  destruct (find (enrichmentKey roomId source fieldName) l) as [ex |] eqn:E.
  - rewrite filter_updateRows by reflexivity. rewrite length_updateRows.
    apply H.
  - rewrite filter_app, length_app. cbn [filter].
    destruct (enrichmentKey r0 s0 f0 _) eqn:Ek; simpl.
    + destruct (enrichmentKey_eq _ _ _ _ _ _ _
                  (enrichmentKey_self id roomId source fieldName content
                                      quality None) Ek) as (-> & -> & ->).
      rewrite (filter_nil_of_find _ _ E). simpl. lia.
    + rewrite Nat.add_0_r. apply H.
Qed.

(** X11. After [upsertRoomEnrichment] the lookup by (roomId, source,
    fieldName) finds a row holding the content and quality just given;
    a row is added only when the key had none, so the number of rows of
    the key is kept, or becomes one. *)
Theorem upsertRoomEnrichment_round_trip :
  forall env roomId source fieldName content quality w,
    let call :=
      upsertRoomEnrichment env roomId source fieldName content quality in
    result call w = Ok tt /\
    exists e,
      find (enrichmentKey roomId source fieldName)
           (roomContentEnrichments (exec call w)) = Some e /\
      en_content e = content /\ en_quality e = quality /\
      length (filter (enrichmentKey roomId source fieldName)
                     (roomContentEnrichments (exec call w)))
      = Nat.max 1 (length (filter (enrichmentKey roomId source fieldName)
                                  (roomContentEnrichments w))).
Proof.
  intros env roomId source fieldName content quality w call.
  destruct (upsertRoomEnrichment_rows env roomId source fieldName content
              quality w) as (w' & Hw & _ & _ & _ & Rows).
  unfold result, exec, call. rewrite Hw. simpl. split; [reflexivity |].
  rewrite Rows. apply upsertedEnrichments_lookup.
Qed.

Lemma extends_chain {A} (a b c : list A) :
  extends a b -> extends b c -> extends a c.
Proof.
  intros [m1 ->] [m2 ->]. exists (m1 ++ m2). symmetry. apply app_assoc.
Qed.

Lemma ids_upsertedEnrichments now id roomId source fieldName content quality
      l :
  let l' :=
    upsertedEnrichments now id roomId source fieldName content quality l in
  extends (map en_id l) (map en_id l') /\
  (length l' <= S (length l))%nat.
Proof.
  unfold upsertedEnrichments.
  destruct (find (enrichmentKey roomId source fieldName) l); simpl.
  - rewrite map_updateRows by reflexivity. rewrite length_updateRows.
    split; [apply extends_self | lia].
  - rewrite map_app, length_app. simpl. split; [apply extends_more | lia].
Qed.

Lemma enrichItems_effect env roomId items :
  forall w,
  exists w',
    enrichItems env roomId items w = (Ok tt, w') /\
    keepsMappings w w' /\ keepsConflicts w w' /\ emitted w' = emitted w /\
    (oneEnrichmentPerKey (roomContentEnrichments w) ->
     oneEnrichmentPerKey (roomContentEnrichments w')) /\
    extends (map en_id (roomContentEnrichments w))
            (map en_id (roomContentEnrichments w')) /\
    (length (roomContentEnrichments w')
     <= length (roomContentEnrichments w) + length items)%nat.
Proof.
  induction items as [| item rest IH]; intros w.
  - exists w. simpl. split; [reflexivity |].
    split; [repeat split |]. split; [repeat split |].
    split; [reflexivity |]. split; [auto |].
    split; [apply extends_self | lia].
  - destruct (upsertRoomEnrichment_rows env roomId (item_source item)
                (item_fieldName item) (item_content item)
                (match item_quality item with
                 | Some q => q
                 | None => "pending"
                 end) w)
      as (w1 & H1 & (A1 & A2 & A3) & (B1 & B2) & E1 & Rows).
    destruct (IH w1)
      as (w2 & H2 & (C1 & C2 & C3) & (D1 & D2) & E2 & Inv & Ids & Len).
    exists w2. cbn [enrichItems]. rewrite (bind_ok _ _ _ _ _ H1).
    split; [exact H2 |].
    split; [repeat split; congruence |].
    split; [repeat split; congruence |].
    split; [congruence |].
    pose proof (ids_upsertedEnrichments (clock env (clockReads w))
                  (newId env (idsIssued w)) roomId (item_source item)
                  (item_fieldName item) (item_content item)
                  (match item_quality item with
                   | Some q => q
                   | None => "pending"
                   end) (roomContentEnrichments w)) as (I1 & I2).
    rewrite <- Rows in I1, I2.
    split; [| split].
    + intros Hu. apply Inv. rewrite Rows.
      now apply upsertedEnrichments_invariant.
    + exact (extends_chain _ _ _ I1 Ids).
    + simpl. lia.
Qed.

Lemma enrichItems_app env roomId a b :
  forall w,
    enrichItems env roomId (a ++ b) w
    = (enrichItems env roomId a ;; enrichItems env roomId b) w.
Proof.
  induction a as [| item rest IH]; intros w; [reflexivity |].
  cbn [app enrichItems]. unfold bind.
  destruct (upsertRoomEnrichment _ _ _ _ _ _ w) as [[[] | e] w1];
    [| reflexivity].
  rewrite IH. reflexivity.
Qed.

(** X12. [enrichRoomContent] always succeeds; it writes to the
    enrichment table only, removes no row and adds at most one row per
    item; and it keeps the table free of duplicates of a (roomId, source,
    fieldName). *)
Theorem enrichRoomContent_frame_and_uniqueness :
  forall env roomId items w,
    oneEnrichmentPerKey (roomContentEnrichments w) ->
    let call := enrichRoomContent env roomId items in
    result call w = Ok tt /\
    oneEnrichmentPerKey (roomContentEnrichments (exec call w)) /\
    extends (map en_id (roomContentEnrichments w))
            (map en_id (roomContentEnrichments (exec call w))) /\
    (length (roomContentEnrichments (exec call w))
     <= length (roomContentEnrichments w) + length items)%nat /\
    keepsMappings w (exec call w) /\ keepsConflicts w (exec call w) /\
    emitted (exec call w) = emitted w.
Proof.
  intros env roomId items w Hu call.
  destruct (enrichItems_effect env roomId items w)
    as (w' & H & KM & KC & E & Inv & Ids & Len).
  unfold result, exec, call, enrichRoomContent.
  rewrite (transaction_ok _ _ _ _ H). simpl. auto 10.
Qed.

Lemma enrichRoomContent_frame_and_uniqueness_witness :
  let w := mkWorld [hotel1] [] [room1] [] [] 0 0 [] [] in
  let call :=
    enrichRoomContent sampleService "r_1"
      [mkItem "images" (OtherContent "a") "provider_b" None;
       mkItem "images" (OtherContent "b") "provider_b" (Some "approved")] in
  result call w = Ok tt /\
  oneEnrichmentPerKey (roomContentEnrichments (exec call w)) /\
  (length (roomContentEnrichments (exec call w)) <= 2)%nat.
Proof.
  destruct (enrichRoomContent_frame_and_uniqueness sampleService "r_1"
              [mkItem "images" (OtherContent "a") "provider_b" None;
               mkItem "images" (OtherContent "b") "provider_b"
                      (Some "approved")]
              (mkWorld [hotel1] [] [room1] [] [] 0 0 [] []))
    as (H1 & H2 & _ & H4 & _).
  - intros r0 s0 f0. simpl. lia.
  - split; [exact H1 |]. split; [exact H2 | exact H4].
Defined.

(** X13. In [enrichRoomContent] the last item wins: after the call the
    lookup by the key of the last item finds a row with that item's
    content, and with its quality, or "pending" when the item gives
    none. *)
Theorem enrichRoomContent_last_item_wins :
  forall env roomId items item w,
    let call := enrichRoomContent env roomId (items ++ [item]) in
    result call w = Ok tt /\
    exists e,
      find (enrichmentKey roomId (item_source item) (item_fieldName item))
           (roomContentEnrichments (exec call w)) = Some e /\
      en_content e = item_content item /\
      en_quality e = qualityOf item.
Proof.
  intros env roomId items item w call.
  destruct (enrichItems_effect env roomId items w) as (w1 & H1 & _).
  destruct (upsertRoomEnrichment_rows env roomId (item_source item)
              (item_fieldName item) (item_content item) (qualityOf item) w1)
    as (w2 & H2 & _ & _ & _ & Rows).
  assert (H : enrichItems env roomId (items ++ [item]) w = (Ok tt, w2)).
  { rewrite enrichItems_app, (bind_ok _ _ _ _ _ H1). cbn [enrichItems].
    unfold qualityOf in H2. rewrite (bind_ok _ _ _ _ _ H2). reflexivity. }
  unfold result, exec, call, enrichRoomContent.
  rewrite (transaction_ok _ _ _ _ H). simpl. split; [reflexivity |].
  rewrite Rows.
  destruct (upsertedEnrichments_lookup (clock env (clockReads w1))
              (newId env (idsIssued w1)) roomId (item_source item)
              (item_fieldName item) (item_content item) (qualityOf item)
              (roomContentEnrichments w1)) as (e & F & C & Q0 & _).
  exists e. auto.
Qed.

(** *** The unified view of a room *)

Lemma find_filter {R} (p q : R -> bool) l :
  find p (filter q l) = find (fun x => (q x && p x)%bool) l.
Proof.
  induction l as [| r l IH]; simpl; [reflexivity |].
  destruct (q r); simpl; [destruct (p r); auto | auto].
Qed.

Lemma find_ext_in {R} (p q : R -> bool) l :
  (forall x, In x l -> p x = q x) -> find p l = find q l.
Proof.
  induction l as [| r l IH]; intros H; simpl; [reflexivity |].
  rewrite (H r (or_introl eq_refl)). destruct (q r); [reflexivity |].
  apply IH. intros x Hx. apply H. now right.
Qed.

Lemma getUnifiedRoomData_found rowPhotos roomId w r :
  find (byRoomId roomId) (rooms w) = Some r ->
  exists u,
    getUnifiedRoomData rowPhotos roomId w = Some u /\
    unified_room u = r /\
    unified_photos u
    = match find (approvedImagesOf roomId) (roomContentEnrichments w) with
      | Some e => Some (en_content e)
      | None => rowPhotos r
      end.
Proof.
  intros H. unfold getUnifiedRoomData. unfold byRoomId in H. rewrite H.
  apply find_some in H. destruct H as (_ & Hid). apply String.eqb_eq in Hid.
  eexists. split; [reflexivity |]. split; [reflexivity |].
  cbn [unified_photos]. rewrite find_filter, Hid. reflexivity.
Qed.

Lemma approvedImagesOf_key roomId source e :
  approvedImagesOf roomId e = true ->
  en_source e = source ->
  enrichmentKey roomId source "images" e = true.
Proof.
  unfold approvedImagesOf, isApprovedImages, enrichmentKey.
  rewrite !andb_true_iff. intros (A1 & A2 & _) <-.
  now rewrite A1, A2, String.eqb_refl.
Qed.

Lemma approved_first_updated roomId source content now idx l :
  (forall e, In e l -> approvedImagesOf roomId e = true ->
             en_source e = source) ->
  forall ex,
    find (enrichmentKey roomId source "images") l = Some ex ->
    en_id ex = idx ->
    exists e',
      find (approvedImagesOf roomId)
           (updateRows en_id idx (refreshEnrichment content "approved" now) l)
      = Some e' /\ en_content e' = content.
Proof.
  induction l as [| a l IH]; intros Hsrc ex Hfind Hidx; [discriminate |].
  cbn [find] in Hfind. cbn [updateRows map find].
  destruct (enrichmentKey roomId source "images" a) eqn:Ka.
  - injection Hfind as <-. rewrite Hidx, String.eqb_refl.
    assert (Ha : approvedImagesOf roomId
                   (refreshEnrichment content "approved" now a) = true).
    { unfold enrichmentKey in Ka. rewrite !andb_true_iff in Ka.
      destruct Ka as ((K1 & _) & K3).
      unfold approvedImagesOf, isApprovedImages. simpl.
      now rewrite K1, K3. }
    rewrite Ha. eexists. split; reflexivity.
  - destruct (approvedImagesOf roomId
                (if String.eqb (en_id a) idx
                 then refreshEnrichment content "approved" now a else a))
      eqn:Pa.
    + destruct (String.eqb (en_id a) idx).
      * eexists. split; reflexivity.
      * exfalso.
        rewrite (approvedImagesOf_key roomId source a Pa
                   (Hsrc a (or_introl eq_refl) Pa)) in Ka.
        discriminate.
    + apply (IH (fun e He => Hsrc e (or_intror He)) ex Hfind Hidx).
Qed.

Lemma approved_first_upserted now id roomId source content l :
  (forall e, In e l -> approvedImagesOf roomId e = true ->
             en_source e = source) ->
  exists e',
    find (approvedImagesOf roomId)
         (upsertedEnrichments now id roomId source "images" content
                              "approved" l) = Some e' /\
    en_content e' = content.
Proof.
  intros Hsrc. unfold upsertedEnrichments.
  destruct (find (enrichmentKey roomId source "images") l) as [ex |] eqn:E.
  - exact (approved_first_updated roomId source content now (en_id ex) l
             Hsrc ex E eq_refl).
  - assert (Hn : find (approvedImagesOf roomId) l = None).
    { destruct (find (approvedImagesOf roomId) l) as [e |] eqn:F;
        [| reflexivity].
      apply find_some in F. destruct F as (Hin & Pa).
      pose proof (approvedImagesOf_key roomId source e Pa (Hsrc e Hin Pa))
        as K.
      rewrite (find_none _ _ E e Hin) in K. discriminate. }
    exists (mkEnrichment id roomId source "images" content "approved" None).
    split; [| reflexivity].
    apply find_app_none; [exact Hn |].
    unfold approvedImagesOf, isApprovedImages. simpl.
    now rewrite String.eqb_refl.
Qed.

(** X15. Approving images through [enrichRoomContent] makes the unified
    view serve them: for a room that exists and has no approved images
    of another source, after the images of a source are stored with
    quality "approved", [getUnifiedRoomData] returns the room with
    exactly that content as photos. *)
Theorem approved_images_are_served :
  forall env roomId source content r w,
    find (byRoomId roomId) (rooms w) = Some r ->
    (forall e, In e (roomContentEnrichments w) ->
               approvedImagesOf roomId e = true -> en_source e = source) ->
    let w' :=
      exec (enrichRoomContent env roomId
              [mkItem "images" content source (Some "approved")]) w in
    forall rowPhotos,
    exists u,
      getUnifiedRoomData rowPhotos roomId w' = Some u /\
      unified_room u = r /\
      unified_photos u = Some content.
Proof.
  intros env roomId source content r w Hr Hsrc w' rowPhotos.
  destruct (upsertRoomEnrichment_rows env roomId source "images" content
              "approved" w) as (w1 & H1 & (_ & _ & KR) & _ & _ & Rows).
  assert (Hw : w' = w1).
  { unfold w', exec, enrichRoomContent.
    erewrite transaction_ok; [reflexivity |].
    cbn [enrichItems item_source item_fieldName item_content item_quality].
    rewrite (bind_ok _ _ _ _ _ H1). reflexivity. }
  rewrite Hw. rewrite <- KR in Hr.
  destruct (getUnifiedRoomData_found rowPhotos roomId w1 r Hr)
    as (u & G & Ur & Ph).
  exists u. split; [exact G |]. split; [exact Ur |].
  rewrite Ph, Rows.
  destruct (approved_first_upserted (clock env (clockReads w))
              (newId env (idsIssued w)) roomId source content
              (roomContentEnrichments w) Hsrc) as (e' & F & C).
  rewrite F. now rewrite C.
Qed.

Lemma approved_images_are_served_witness :
  let w := mkWorld [hotel1] [] [room1] [] [] 0 0 [] [] in
  let w' :=
    exec (enrichRoomContent sampleService "r_1"
            [mkItem "images" (OtherContent "best.jpg") "editor"
                    (Some "approved")]) w in
  exists u,
    getUnifiedRoomData (fun _ => Some (OtherContent "own.jpg")) "r_1" w'
    = Some u /\
    unified_room u = room1 /\
    unified_photos u = Some (OtherContent "best.jpg").
Proof.
  apply (approved_images_are_served sampleService "r_1" "editor"
           (OtherContent "best.jpg") room1
           (mkWorld [hotel1] [] [room1] [] [] 0 0 [] [])).
  - reflexivity.
  - simpl. intros e [].
Defined.

(** *** Enrichment by [mapRoom] *)

Lemma upsertMapping_enrichments env hotelMapping roomSourceId source roomData
      confidence mappingType isPrimary w found w1 :
  upsertMapping env hotelMapping roomSourceId source roomData confidence
                mappingType isPrimary w = (Ok found, w1) ->
  roomContentEnrichments w1 = roomContentEnrichments w.
Proof.
  unfold upsertMapping, bind at 1, findFirst.
  destruct (find _ (roomMappings w)) as [m |] eqn:E.
  - unfold bind at 1. unfold bind at 1, newDate.
    match goal with
    | |- context [update ?t ?s ?i ?k ?d] =>
        match goal with
        | |- context [bind _ _ ?w0] =>
            destruct (update_found t s i d _ w0 m E) as (y & Hy & _)
        end
    end.
    rewrite (bind_ok _ _ _ _ _ Hy). unfold ret.
    intros H. injection H as _ <-. reflexivity.
  - unfold bind at 1.
    destruct (find _ (rooms w)) as [r0 |];
      unfold create, freshId, newDate, bind, ret;
      intros H; injection H as _ <-; reflexivity.
Qed.

Lemma detect_enrichments env internalRoom source incomingData w :
  exists w',
    detectAndRecordConflicts env internalRoom source incomingData w
    = (Ok tt, w') /\
    roomContentEnrichments w' = roomContentEnrichments w.
Proof.
  destruct (disagree_dec internalRoom incomingData) as [(c & v & Hd) | Hn].
  - rewrite (detect_disagree _ _ _ _ _ _ _ Hd).
    unfold upsertConflict, bind at 1, findFirst.
    destruct (find _ (mappingConflicts w)) as [ex |] eqn:E.
    + unfold bind at 1, newDate.
      match goal with
      | |- context [update ?t ?s ?i ?k ?d] =>
          match goal with
          | |- context [bind _ _ ?w0] =>
              destruct (update_found t s i d _ w0 ex E) as (y & Hy & _)
          end
      end.
      eexists. rewrite (bind_ok _ _ _ _ _ Hy). unfold ret.
      split; reflexivity.
    + unfold create, freshId, newDate, bind, ret. eexists.
      split; reflexivity.
  - exists w. rewrite (detect_agree _ _ _ _ _ Hn). split; reflexivity.
Qed.

Lemma afterMapping_enrichments env source roomData found w1 :
  exists w2 imagesAt imagesId amenitiesAt amenitiesId,
    afterMapping env source roomData found w1 = (Ok tt, w2) /\
    roomContentEnrichments w2
    = enrichedBy (fst found) source roomData imagesAt imagesId amenitiesAt
                 amenitiesId (roomContentEnrichments w1).
Proof.
  unfold afterMapping, enrichedBy.
  assert (Hdetect :
    exists wa,
      (match snd found with
       | Some currentRoom =>
           detectAndRecordConflicts env currentRoom source roomData
       | None => ret tt
       end) w1 = (Ok tt, wa) /\
      roomContentEnrichments wa = roomContentEnrichments w1).
  { destruct (snd found) as [r |]; [apply detect_enrichments |].
    exists w1. split; reflexivity. }
  destruct Hdetect as (wa & Ha & Ea).
  rewrite (bind_ok _ _ _ _ _ Ha).
  assert (Hphotos :
    exists wb imagesAt imagesId,
      (if nonEmpty (photos roomData)
       then upsertRoomEnrichment env (fst found) source "images"
              (PhotosContent (photos roomData)) "pending"
       else ret tt) wa = (Ok tt, wb) /\
      roomContentEnrichments wb
      = if nonEmpty (photos roomData)
        then upsertedEnrichments imagesAt imagesId (fst found) source
               "images" (PhotosContent (photos roomData)) "pending"
               (roomContentEnrichments wa)
        else roomContentEnrichments wa).
  { destruct (nonEmpty (photos roomData)).
    - destruct (upsertRoomEnrichment_rows env (fst found) source "images"
                  (PhotosContent (photos roomData)) "pending" wa)
        as (wb & Hb & _ & _ & _ & Rows).
      exists wb. do 2 eexists. split; [exact Hb | exact Rows].
    - exists wa, 0, ""%string. split; reflexivity. }
  destruct Hphotos as (wb & imagesAt & imagesId & Hb & Eb).
  rewrite (bind_ok _ _ _ _ _ Hb). rewrite Ea in Eb.
  destruct (nonEmpty (amenities roomData)).
  - destruct (upsertRoomEnrichment_rows env (fst found) source "amenities"
                (AmenitiesContent (amenities roomData)) "pending" wb)
      as (wc & Hc & _ & _ & _ & Rows).
    exists wc, imagesAt, imagesId. do 2 eexists.
    split; [exact Hc |]. rewrite Rows, Eb. reflexivity.
  - exists wb, imagesAt, imagesId, 0, ""%string.
    split; [reflexivity | exact Eb].
Qed.

Lemma mapRoom_enrichments env hotelSourceId roomSourceId source roomData
      options hotelMapping w :
  find (hotelKey source hotelSourceId) (hotelMappings w) = Some hotelMapping ->
  exists found w1 imagesAt imagesId amenitiesAt amenitiesId,
    upsertMapping env hotelMapping roomSourceId source roomData
                  (confidenceOf options) (mappingTypeOf options)
                  (isPrimaryOf options) w = (Ok found, w1) /\
    roomContentEnrichments
      (exec (mapRoom env hotelSourceId roomSourceId source roomData options)
            w)
    = enrichedBy (fst found) source roomData imagesAt imagesId amenitiesAt
                 amenitiesId (roomContentEnrichments w).
Proof.
  intros Hh.
  destruct (mapRoom_effect env hotelSourceId roomSourceId source roomData
              options hotelMapping w Hh) as (found & w1 & w2 & H1 & H2 & H3).
  destruct (afterMapping_enrichments env source roomData found w1)
    as (w2' & ia & ii & aa & ai & H2' & Rows).
  rewrite H2 in H2'. injection H2' as <-.
  exists found, w1, ia, ii, aa, ai. split; [exact H1 |].
  unfold exec. rewrite H3. simpl. rewrite Rows.
  now rewrite (upsertMapping_enrichments _ _ _ _ _ _ _ _ _ _ _ H1).
Qed.

Lemma in_upsertedEnrichments now id roomId source fieldName content quality
      l e :
  In e (upsertedEnrichments now id roomId source fieldName content quality l) ->
  (In e l /\
   forall ex, find (enrichmentKey roomId source fieldName) l = Some ex ->
              String.eqb (en_id e) (en_id ex) = false) \/
  en_quality e = quality.
Proof.
  unfold upsertedEnrichments.
  destruct (find (enrichmentKey roomId source fieldName) l) as [ex |] eqn:E.
  - unfold updateRows. rewrite in_map_iff. intros (x & Hx & Hin).
    destruct (String.eqb (en_id x) (en_id ex)) eqn:I.
    + right. now subst e.
    + left. subst e. split; [exact Hin |].
      intros ex' Hex. injection Hex as <-. exact I.
  - rewrite in_app_iff. intros [Hin | [<- | []]].
    + left. split; [exact Hin | discriminate].
    + right. reflexivity.
Qed.

Lemma pending_not_approved roomId e :
  en_quality e = "pending" -> approvedImagesOf roomId e = false.
Proof.
  intros H. unfold approvedImagesOf, isApprovedImages. rewrite H. simpl.
  now rewrite !andb_false_r.
Qed.

Lemma pending_keeps_unapproved now id roomId0 roomId source fieldName content
      l :
  (forall e, In e l -> approvedImagesOf roomId0 e = false) ->
  forall e,
    In e (upsertedEnrichments now id roomId source fieldName content
                              "pending" l) ->
    approvedImagesOf roomId0 e = false.
Proof.
  intros H e He. apply in_upsertedEnrichments in He.
  destruct He as [(Hin & _) | Hq]; [now apply H |].
  now apply pending_not_approved.
Qed.

Lemma pending_images_demote now id roomId source content l :
  oneEnrichmentPerKey l ->
  (forall e, In e l -> approvedImagesOf roomId e = true ->
             en_source e = source) ->
  forall e,
    In e (upsertedEnrichments now id roomId source "images" content
                              "pending" l) ->
    approvedImagesOf roomId e = false.
Proof.
  intros Hu Hsrc e He. apply in_upsertedEnrichments in He.
  destruct He as [(Hin & Hid) | Hq]; [| now apply pending_not_approved].
  destruct (approvedImagesOf roomId e) eqn:Pa; [| reflexivity].
  exfalso.
  pose proof (approvedImagesOf_key roomId source e Pa (Hsrc e Hin Pa)) as K.
  destruct (find (enrichmentKey roomId source "images") l) as [ex |] eqn:E.
  - pose proof (filter_single_of_find _ _ _ E (Hu roomId source "images"))
      as F.
    assert (Hf : In e (filter (enrichmentKey roomId source "images") l))
      by (apply filter_In; auto).
    rewrite F in Hf. destruct Hf as [<- | []].
    specialize (Hid ex eq_refl). now rewrite String.eqb_refl in Hid.
  - rewrite (find_none _ _ E e Hin) in K. discriminate.
Qed.

Lemma find_none_of_all {R} (p : R -> bool) l :
  (forall x, In x l -> p x = false) -> find p l = None.
Proof.
  intros H. destruct (find p l) as [x |] eqn:E; [| reflexivity].
  apply find_some in E. destruct E as (Hin & Hp).
  rewrite (H x Hin) in Hp. discriminate.
Qed.

(** X16. Re-ingesting a room with photos takes approved images of
    that source out of the unified view: when the mapping of the key
    exists, the enrichment table has one row per key and the approved
    images of the room all come from the ingested source, then after
    [mapRoom] with a non-empty photo list no images row of the room is
    approved (the row is rewritten with the default quality "pending"),
    and [getUnifiedRoomData] falls back to the photos of the room row
    itself. *)
Theorem reingestion_demotes_approved_images :
  forall env hotelSourceId roomSourceId source roomData options w
         hotelMapping m r,
    find (hotelKey source hotelSourceId) (hotelMappings w)
    = Some hotelMapping ->
    find (sameMappingKey source roomSourceId (hm_id hotelMapping))
         (roomMappings w) = Some m ->
    find (byRoomId (rm_roomId m)) (rooms w) = Some r ->
    nonEmpty (photos roomData) = true ->
    oneEnrichmentPerKey (roomContentEnrichments w) ->
    (forall e, In e (roomContentEnrichments w) ->
               approvedImagesOf (rm_roomId m) e = true ->
               en_source e = source) ->
    let w' :=
      exec (mapRoom env hotelSourceId roomSourceId source roomData options)
           w in
    (forall e, In e (roomContentEnrichments w') ->
               approvedImagesOf (rm_roomId m) e = false) /\
    forall rowPhotos,
    exists u,
      getUnifiedRoomData rowPhotos (rm_roomId m) w' = Some u /\
      unified_room u = r /\
      unified_photos u = rowPhotos r.
Proof.
  intros env hotelSourceId roomSourceId source roomData options w hm m r
         Hh Hm Hr Hp Hu Hsrc w'.
  destruct (mapRoom_enrichments env hotelSourceId roomSourceId source
              roomData options hm w Hh)
    as (found & w1 & ia & ii & aa & ai & H1 & Rows).
  destruct (upsertMapping_effect env hm roomSourceId source roomData
              (confidenceOf options) (mappingTypeOf options)
              (isPrimaryOf options) w)
    as (found' & w1' & H1' & _ & E).
  rewrite H1 in H1'. injection H1' as <- <-.
  rewrite Hm in E. destruct E as (_ & ERooms & Efound).
  destruct (mapRoom_effect env hotelSourceId roomSourceId source roomData
              options hm w Hh) as (found2 & w1b & w2 & H1b & H2 & H3).
  rewrite H1 in H1b. injection H1b as <- <-.
  destruct (afterMapping_effect env source roomData found w1)
    as (w2' & H2' & (_ & _ & KR) & _).
  rewrite H2 in H2'. injection H2' as <-.
  assert (Hrooms : rooms w' = rooms w).
  { unfold w', exec. rewrite H3. simpl. congruence. }
  assert (Hall : forall e, In e (roomContentEnrichments w') ->
                           approvedImagesOf (rm_roomId m) e = false).
  { fold w' in Rows. rewrite Rows. unfold enrichedBy. rewrite Hp, Efound.
    cbn [fst].
    pose proof (pending_images_demote ia ii (rm_roomId m) source
                  (PhotosContent (photos roomData))
                  (roomContentEnrichments w) Hu Hsrc) as D.
    destruct (nonEmpty (amenities roomData)); [| exact D].
    now apply pending_keeps_unapproved. }
  split; [exact Hall |]. intros rowPhotos.
  rewrite <- Hrooms in Hr.
  destruct (getUnifiedRoomData_found rowPhotos (rm_roomId m) w' r Hr)
    as (u & G & Ur & Ph).
  exists u. split; [exact G |]. split; [exact Ur |].
  rewrite Ph, (find_none_of_all _ _ Hall). reflexivity.
Qed.

Lemma reingestion_demotes_approved_images_witness :
  let rowPhotos := fun _ : Room => Some (OtherContent "own.jpg") in
  let w :=
    mkWorld [hotel1] [verifiedMapping] [room1]
            [mkEnrichment "e_1" "r_1" "provider_b" "images"
                          (OtherContent "best.jpg") "approved" None]
            [] 0 0 [] [] in
  let w' :=
    exec (mapRoom sampleService "h_src_1" "r_src_1" "provider_b"
                  nameAndPhotos noOptions) w in
  option_map unified_photos (getUnifiedRoomData rowPhotos "r_1" w)
  = Some (Some (OtherContent "best.jpg")) /\
  exists u,
    getUnifiedRoomData rowPhotos "r_1" w' = Some u /\
    unified_room u = room1 /\
    unified_photos u = Some (OtherContent "own.jpg").
Proof.
  split; [reflexivity |].
  destruct (reingestion_demotes_approved_images sampleService "h_src_1"
              "r_src_1" "provider_b" nameAndPhotos noOptions
              (mkWorld [hotel1] [verifiedMapping] [room1]
                       [mkEnrichment "e_1" "r_1" "provider_b" "images"
                                     (OtherContent "best.jpg") "approved"
                                     None]
                       [] 0 0 [] [])
              hotel1 verifiedMapping room1)
    as (_ & H); try reflexivity.
  - intros r0 s0 f0. cbn [roomContentEnrichments filter].
    destruct (enrichmentKey r0 s0 f0 _); simpl; lia.
  - intros e [<- | []] _. reflexivity.
  - exact (H (fun _ : Room => Some (OtherContent "own.jpg"))).
Defined.

(** *** [bulkRecalculateQualityScores] *)

Lemma set_roomMappings_same w : set_roomMappings (roomMappings w) w = w.
Proof. destruct w; reflexivity. Qed.

Lemma find_id_present {R} (id_of : R -> Id) id (l : list R) :
  In id (map id_of l) ->
  exists y, find (fun r => String.eqb (id_of r) id) l = Some y.
Proof.
  intros H. apply in_map_iff in H. destruct H as (x & Hx & Hin).
  destruct (find (fun r => String.eqb (id_of r) id) l) as [y |] eqn:E;
    [now exists y |].
  apply (find_none _ _ E) in Hin. rewrite Hx, String.eqb_refl in Hin.
  discriminate.
Qed.

Lemma recalculate_effect ms :
  forall n w,
    (forall m, In m ms -> In (rm_id m) (map rm_id (roomMappings w))) ->
    exists w',
      recalculate ms n w = (Ok (n + length (filter stale ms))%nat, w') /\
      map scoreless (roomMappings w') = map scoreless (roomMappings w) /\
      w' = set_roomMappings (roomMappings w') w.
Proof.
  induction ms as [| m rest IH]; intros n w Hids.
  - exists w. simpl. rewrite Nat.add_0_r.
    split; [reflexivity |]. split; [reflexivity |].
    symmetry. apply set_roomMappings_same.
  - cbn [recalculate filter]. unfold stale at 1.
    destruct (Z.eqb (calculateQualityScore (rm_sourceData m))
                    (rm_qualityScore m)) eqn:Efresh; cbn [negb].
    + apply IH. intros m' Hm'. apply Hids. now right.
    + destruct (find_id_present rm_id (rm_id m) (roomMappings w)
                  (Hids m (or_introl eq_refl))) as (y & Hy).
      unfold bind at 1, update at 1. rewrite Hy.
      match goal with
      | |- context [recalculate rest _ ?w1] =>
          destruct (IH (S n) w1) as (w' & Hrun & Hcols & Hw')
      end.
      { intros m' Hm'. cbn [set_roomMappings roomMappings].
        rewrite map_updateRows by reflexivity. apply Hids. now right. }
      exists w'. rewrite Hrun. cbn [length].
      split; [f_equal; f_equal; lia |].
      split.
      * rewrite Hcols. cbn [set_roomMappings roomMappings].
        apply map_updateRows. reflexivity.
      * rewrite Hw' at 1. reflexivity.
Qed.

Lemma updateRows_absent {R} (id_of : R -> Id) id (data : R -> R) l :
  ~ In id (map id_of l) -> updateRows id_of id data l = l.
Proof.
  intros H. unfold updateRows. rewrite <- (map_id l) at 2.
  apply map_ext_in. intros r Hr.
  destruct (String.eqb (id_of r) id) eqn:E; [| reflexivity].
  exfalso. apply H. apply String.eqb_eq in E. rewrite <- E.
  now apply in_map.
Qed.

Lemma updateRows_unique {R} (id_of : R -> Id) (data : R -> R) pre m rest :
  NoDup (map id_of (pre ++ m :: rest)) ->
  updateRows id_of (id_of m) data (pre ++ m :: rest) = pre ++ data m :: rest.
Proof.
  intros H. rewrite map_app in H. cbn [map] in H.
  apply NoDup_remove_2 in H. rewrite in_app_iff in H.
  unfold updateRows. rewrite map_app. cbn [map].
  rewrite String.eqb_refl.
  fold (updateRows id_of (id_of m) data pre).
  fold (updateRows id_of (id_of m) data rest).
  rewrite !updateRows_absent by tauto. reflexivity.
Qed.

Lemma rescored_fresh m : stale m = false -> rescored m = m.
Proof.
  unfold stale, rescored. rewrite negb_false_iff, Z.eqb_eq. intros ->.
  destruct m; reflexivity.
Qed.

Lemma recalculate_unique ms :
  forall pre n w,
    roomMappings w = pre ++ ms ->
    NoDup (map rm_id (pre ++ ms)) ->
    recalculate ms n w
    = (Ok (n + length (filter stale ms))%nat,
       set_roomMappings (pre ++ map rescored ms) w).
Proof.
  induction ms as [| m rest IH]; intros pre n w Hw Hnd.
  - simpl. rewrite Nat.add_0_r, <- Hw, set_roomMappings_same. reflexivity.
  - cbn [recalculate filter map]. destruct (stale m) eqn:Es.
    + unfold stale in Es. rewrite negb_true_iff in Es. rewrite Es.
      destruct (find_id_present rm_id (rm_id m) (roomMappings w)) as (y & Hy).
      { rewrite Hw, map_app, in_app_iff. right. now left. }
      unfold bind at 1, update at 1. rewrite Hy, Hw.
      rewrite (updateRows_unique rm_id _ pre m rest Hnd).
      fold (rescored m).
      rewrite (IH (pre ++ [rescored m]) (S n)).
      * rewrite <- app_assoc. cbn [length app]. f_equal.
        f_equal. lia.
      * cbn [set_roomMappings roomMappings]. now rewrite <- app_assoc.
      * rewrite <- app_assoc. cbn [app].
        rewrite map_app in *. exact Hnd.
    + pose proof Es as Es'. unfold stale in Es'.
      rewrite negb_false_iff in Es'. rewrite Es'.
      rewrite (rescored_fresh m Es).
      rewrite (IH (pre ++ [m]) n w).
      * now rewrite <- app_assoc.
      * now rewrite <- app_assoc.
      * now rewrite <- app_assoc.
Qed.

Lemma stale_rescored m : stale (rescored m) = false.
Proof. unfold stale, rescored. simpl. now rewrite Z.eqb_refl. Qed.

Lemma rescored_twice l : map rescored (map rescored l) = map rescored l.
Proof.
  rewrite map_map. apply map_ext. intros m.
  apply rescored_fresh, stale_rescored.
Qed.

Lemma none_stale_rescored l : filter stale (map rescored l) = [].
Proof.
  induction l as [| m l IH]; simpl; [reflexivity |].
  now rewrite stale_rescored.
Qed.

(** X17. [bulkRecalculateQualityScores] never fails; it returns the
    number of rows read at the start whose stored score differs from the
    score of their snapshot; and it changes nothing but the score column
    of the room mappings. *)
Theorem bulkRecalculate_counts_stale_rows :
  forall w,
    let w' := exec bulkRecalculateQualityScores w in
    result bulkRecalculateQualityScores w
    = Ok (length (filter stale (roomMappings w))) /\
    map scoreless (roomMappings w') = map scoreless (roomMappings w) /\
    w' = set_roomMappings (roomMappings w') w.
Proof.
  intros w w'.
  destruct (recalculate_effect (roomMappings w) 0 w) as (w1 & H & Hc & Hw).
  { intros m Hm. now apply in_map. }
  unfold w', result, exec, bulkRecalculateQualityScores. rewrite H. simpl.
  auto.
Qed.

(** X18. With unique mapping identifiers, after
    [bulkRecalculateQualityScores] every mapping carries the score of
    its own snapshot, and every other column and row is as before. *)
Theorem bulkRecalculate_rescoring :
  forall w,
    NoDup (map rm_id (roomMappings w)) ->
    exec bulkRecalculateQualityScores w
    = set_roomMappings (map rescored (roomMappings w)) w.
Proof.
  intros w Hnd. unfold exec, bulkRecalculateQualityScores.
  now rewrite (recalculate_unique (roomMappings w) [] 0 w eq_refl Hnd).
Qed.

Lemma bulkRecalculate_rescoring_witness :
  map (fun m => (rm_id m, rm_qualityScore m))
      (roomMappings (exec bulkRecalculateQualityScores scoredWorld))
  = [("rm_1", 30); ("rm_2", 100)].
Proof.
  rewrite (bulkRecalculate_rescoring scoredWorld); [reflexivity |].
  repeat constructor; simpl; intuition discriminate.
Defined.

(** X19. With unique mapping identifiers a second
    [bulkRecalculateQualityScores] finds nothing to do: it returns 0 and
    leaves the store as the first run left it. *)
Theorem bulkRecalculate_idempotent :
  forall w,
    NoDup (map rm_id (roomMappings w)) ->
    let w1 := exec bulkRecalculateQualityScores w in
    bulkRecalculateQualityScores w1 = (Ok 0%nat, w1).
Proof.
  intros w Hnd w1.
  assert (H1 : w1 = set_roomMappings (map rescored (roomMappings w)) w).
  { unfold w1, exec, bulkRecalculateQualityScores.
    now rewrite (recalculate_unique (roomMappings w) [] 0 w eq_refl Hnd). }
  assert (Hnd1 : NoDup (map rm_id (roomMappings w1))).
  { rewrite H1. cbn [set_roomMappings roomMappings].
    rewrite map_map. exact Hnd. }
  unfold bulkRecalculateQualityScores.
  rewrite (recalculate_unique (roomMappings w1) [] 0 w1 eq_refl Hnd1).
  rewrite H1. cbn [set_roomMappings roomMappings app].
  now rewrite none_stale_rescored, rescored_twice.
Qed.

Lemma bulkRecalculate_idempotent_witness :
  let w1 := exec bulkRecalculateQualityScores scoredWorld in
  bulkRecalculateQualityScores w1 = (Ok 0%nat, w1).
Proof.
  apply (bulkRecalculate_idempotent scoredWorld).
  repeat constructor; simpl; intuition discriminate.
Defined.

(** *** [resolveConflict] *)

Lemma map_id_roomsWithField id fieldName value l :
  map room_id (roomsWithField id fieldName value l) = map room_id l.
Proof.
  unfold roomsWithField. apply map_updateRows. intros r.
  destruct (assignRoomField fieldName value r) as [r' |] eqn:E;
    [| reflexivity].
  exact (assignRoomField_id _ _ _ _ E).
Qed.

Lemma bind_ext {A B} (m : M A) (k1 k2 : A -> M B) w :
  (forall a w1, k1 a w1 = k2 a w1) -> bind m k1 w = bind m k2 w.
Proof.
  intros H. unfold bind. destruct (m w) as [[a | e] w1]; [apply H | reflexivity].
Qed.

(** With listeners that all return, the service with listeners is the
    service of [MappingService]. *)
Lemma resolveConflict_quiet_listeners env listeners conflictId
      resolutionStrategy sourceToApply w :
  (forall c, Subscribers.callListeners listeners c = None) ->
  Subscribers.resolveConflict env listeners conflictId resolutionStrategy
                              sourceToApply w
  = resolveConflict env conflictId resolutionStrategy sourceToApply w.
Proof.
  intros Hquiet. unfold Subscribers.resolveConflict, resolveConflict.
  apply bind_ext. intros c w1. unfold Subscribers.emit, emit.
  now rewrite Hquiet.
Qed.

Lemma resolveConflict_with_listeners env listeners conflictId
      resolutionStrategy sourceToApply w :
  match find (byConflictId conflictId) (mappingConflicts w) with
  | None =>
      Subscribers.resolveConflict env listeners conflictId resolutionStrategy
                                  sourceToApply w
      = (Throw (JsError "Conflict not found"), w)
  | Some conflict =>
      (exists e,
          Subscribers.resolveConflict env listeners conflictId
                                      resolutionStrategy sourceToApply w
          = (Throw e, w)) \/
      (exists rooms',
          map room_id rooms' = map room_id (rooms w) /\
          Subscribers.resolveConflict env listeners conflictId
                                      resolutionStrategy sourceToApply w
          = (match Subscribers.callListeners listeners
                     (markResolved resolutionStrategy
                                   (clock env (clockReads w)) conflict) with
             | None => Ok tt
             | Some e => Throw e
             end,
             resolvedWorld env resolutionStrategy conflictId conflict
                           (set_rooms rooms' w)))
  end.
Proof.
  assert (Hemit : forall c w0,
             Subscribers.emit listeners c w0
             = (match Subscribers.callListeners listeners c with
                | None => Ok tt
                | Some e => Throw e
                end,
                mkWorld (hotelMappings w0) (roomMappings w0) (rooms w0)
                        (roomContentEnrichments w0) (mappingConflicts w0)
                        (idsIssued w0) (clockReads w0) (warnings w0)
                        (emitted w0 ++ [c]))).
  { intros c w0. unfold Subscribers.emit.
    destruct (Subscribers.callListeners listeners c); reflexivity. }
  destruct (find (byConflictId conflictId) (mappingConflicts w))
    as [conflict |] eqn:E.
  - pose proof E as E'. unfold byConflictId in E'.
    destruct (isApplySource resolutionStrategy && truthy sourceToApply)%bool
      eqn:Hs.
    + destruct (find (fun s => String.eqb (ce_source s)
                                          (or_string sourceToApply ""))
                     (mc_conflictingSources conflict)) as [entry |] eqn:Ef.
      * destruct (String.eqb (mc_entityType conflict) "room") eqn:Et.
        -- destruct (find (fun r => String.eqb (room_id r)
                                               (mc_entityId conflict))
                          (rooms w)) as [r |] eqn:Er.
           ++ destruct (assignRoomField (mc_fieldName conflict)
                                        (ce_value entry) r) as [r' |] eqn:Ea.
              ** right.
                 exists (roomsWithField (mc_entityId conflict)
                                        (mc_fieldName conflict)
                                        (ce_value entry) (rooms w)).
                 split; [apply map_id_roomsWithField |].
                 unfold Subscribers.resolveConflict, bind at 1, transaction,
                   bind at 1, findFirst.
                 rewrite E'. cbn beta iota. rewrite Hs, Ef, Et.
                 unfold bind at 1, updateRoomField. rewrite Er, Ea.
                 erewrite (markResolved_run env conflictId resolutionStrategy
                             conflict) by exact E.
                 rewrite Hemit. reflexivity.
              ** left. eexists.
                 unfold Subscribers.resolveConflict, bind at 1, transaction,
                   bind at 1, findFirst.
                 rewrite E'. cbn beta iota. rewrite Hs, Ef, Et.
                 unfold bind at 1, updateRoomField. rewrite Er, Ea.
                 cbn. now rewrite world_eta.
           ++ left. eexists.
              unfold Subscribers.resolveConflict, bind at 1, transaction,
                bind at 1, findFirst.
              rewrite E'. cbn beta iota. rewrite Hs, Ef, Et.
              unfold bind at 1, updateRoomField. rewrite Er.
              cbn. now rewrite world_eta.
        -- right. exists (rooms w). split; [reflexivity |].
           unfold Subscribers.resolveConflict, bind at 1, transaction,
             bind at 1, findFirst.
           rewrite E'. cbn beta iota. rewrite Hs, Ef, Et.
           unfold bind at 1, ret.
           erewrite (markResolved_run env conflictId resolutionStrategy
                       conflict) by exact E.
           rewrite Hemit. reflexivity.
      * left. eexists.
        unfold Subscribers.resolveConflict, bind at 1, transaction,
          bind at 1, findFirst.
        rewrite E'. cbn beta iota. rewrite Hs, Ef.
        cbn. now rewrite world_eta.
    + right. exists (rooms w). split; [reflexivity |].
      unfold Subscribers.resolveConflict, bind at 1, transaction,
        bind at 1, findFirst.
      rewrite E'. cbn beta iota. rewrite Hs.
      unfold bind at 1, ret.
      erewrite (markResolved_run env conflictId resolutionStrategy
                  conflict) by exact E.
      rewrite Hemit. reflexivity.
  - unfold Subscribers.resolveConflict, bind at 1, transaction, bind at 1,
      findFirst.
    unfold byConflictId in E. rewrite E. cbn. now rewrite world_eta.
Qed.

(** X20. [resolveConflict] fails before the commit or after it.  For
    an identifier no conflict has it fails with "Conflict not found".  A
    failure inside the transaction leaves the store exactly as before:
    no table is written, the clock is not read and no listener is
    called.  Otherwise the transaction commits: the rows of the conflict
    table with the identifier are marked resolved, the room identifiers
    are as before, no other table is written, and the first of the
    resolved rows is emitted once.  The call then succeeds when every
    listener returns; the first exception of a listener is the failure
    of the call, and the conflict stays resolved. *)
Theorem resolveConflict_fails_before_or_after_commit :
  forall env listeners conflictId resolutionStrategy sourceToApply w,
    let call :=
      Subscribers.resolveConflict env listeners conflictId resolutionStrategy
                                  sourceToApply in
    match find (byConflictId conflictId) (mappingConflicts w) with
    | None => call w = (Throw (JsError "Conflict not found"), w)
    | Some conflict =>
        let resolvedConflict :=
          markResolved resolutionStrategy (clock env (clockReads w))
                       conflict in
        (exists e, call w = (Throw e, w)) \/
        (exists rooms',
            map room_id rooms' = map room_id (rooms w) /\
            call w
            = (match Subscribers.callListeners listeners resolvedConflict with
               | None => Ok tt
               | Some e => Throw e
               end,
               mkWorld (hotelMappings w) (roomMappings w) rooms'
                       (roomContentEnrichments w)
                       (updateRows mc_id conflictId
                          (markResolved resolutionStrategy
                                        (clock env (clockReads w)))
                          (mappingConflicts w))
                       (idsIssued w) (S (clockReads w)) (warnings w)
                       (emitted w ++ [resolvedConflict])))
    end.
Proof.
  intros env listeners conflictId resolutionStrategy sourceToApply w call.
  exact (resolveConflict_with_listeners env listeners conflictId
           resolutionStrategy sourceToApply w).
Qed.

Lemma resolveConflict_fails_before_or_after_commit_witness :
  let listener : Subscribers.Listener :=
    fun _ => Some (JsError "socket closed") in
  let call :=
    Subscribers.resolveConflict sampleService [listener] "conf_1"
                                keep_internal None in
  result call conflictWorld = Throw (JsError "socket closed") /\
  map mc_status (mappingConflicts (exec call conflictWorld)) = [resolved] /\
  length (emitted (exec call conflictWorld)) = 1%nat.
Proof.
  pose proof (resolveConflict_fails_before_or_after_commit sampleService
                [fun _ => Some (JsError "socket closed")] "conf_1"
                keep_internal None conflictWorld) as H.
  cbn [find byConflictId conflictWorld mappingConflicts conflict1 mc_id
       String.eqb Ascii.eqb Bool.eqb] in H.
  cbv zeta in H. destruct H as [(e & H) | (rooms' & _ & H)].
  - vm_compute in H. discriminate H.
  - cbv zeta. repeat split; reflexivity.
Defined.

(** X21. [resolveConflict] does not look at the status of the
    conflict: resolving a conflict that is already resolved succeeds
    again, overwrites the resolution and its time with those of the
    second call, and emits the event a second time. *)
Theorem resolveConflict_again :
  forall env conflictId first second conflict w,
    find (byConflictId conflictId) (mappingConflicts w) = Some conflict ->
    let w1 := exec (resolveConflict env conflictId first None) w in
    let call := resolveConflict env conflictId second None in
    result call w1 = Ok tt /\
    find (byConflictId conflictId) (mappingConflicts (exec call w1))
    = Some (markResolved second (clock env (S (clockReads w))) conflict) /\
    emitted (exec call w1)
    = emitted w
      ++ [markResolved first (clock env (clockReads w)) conflict;
          markResolved second (clock env (S (clockReads w))) conflict].
Proof.
  intros env conflictId first second conflict w H w1 call.
  assert (Hs : forall s, (isApplySource s && truthy None)%bool = false)
    by (intros s; apply andb_false_r).
  assert (H1 : w1 = resolvedWorld env first conflictId conflict w).
  { unfold w1, exec. now rewrite (resolveConflict_plain _ _ _ _ _ _ H (Hs _)). }
  assert (H2 : find (byConflictId conflictId) (mappingConflicts w1)
               = Some (markResolved first (clock env (clockReads w))
                                    conflict)).
  { rewrite H1. cbn [resolvedWorld mappingConflicts].
    now apply find_byConflictId_resolved. }
  unfold result, exec, call.
  rewrite (resolveConflict_plain _ _ _ _ _ _ H2 (Hs _)).
  cbn [fst snd]. split; [reflexivity |].
  rewrite H1. cbn [resolvedWorld mappingConflicts emitted clockReads].
  split.
  - rewrite (find_byConflictId_resolved conflictId second _ _ _
               (find_byConflictId_resolved conflictId first _ _ _ H)).
    reflexivity.
  - rewrite <- app_assoc. reflexivity.
Qed.

Lemma resolveConflict_again_witness :
  let w1 :=
    exec (resolveConflict sampleService "conf_1" keep_internal None)
         conflictWorld in
  let call := resolveConflict sampleService "conf_1" apply_source None in
  result call w1 = Ok tt /\
  map (fun c => (mc_resolution c, mc_resolvedAt c))
      (mappingConflicts (exec call w1))
  = [(Some apply_source, Some 1001)] /\
  length (emitted (exec call w1)) = 2%nat.
Proof.
  destruct (resolveConflict_again sampleService "conf_1" keep_internal
              apply_source conflict1 conflictWorld eq_refl)
    as (H1 & _ & _).
  split; [exact H1 |]. split; reflexivity.
Defined.

(** *** Resolution followed by ingestion *)

Lemma markResolved_not_open entityType entityId fieldName strategy now c :
  openConflictFor entityType entityId fieldName (markResolved strategy now c)
  = false.
Proof. unfold openConflictFor. simpl. apply andb_false_r. Qed.

Lemma no_open_after_resolving entityType entityId fieldName strategy now l c :
  (length (filter (openConflictFor entityType entityId fieldName) l)
   <= 1)%nat ->
  find (openConflictFor entityType entityId fieldName) l = Some c ->
  find (openConflictFor entityType entityId fieldName)
       (updateRows mc_id (mc_id c) (markResolved strategy now) l) = None.
Proof.
  intros Hu Hc. apply find_none_of_all. intros x Hx.
  unfold updateRows in Hx. apply in_map_iff in Hx.
  destruct Hx as (x0 & <- & Hin).
  destruct (String.eqb (mc_id x0) (mc_id c)) eqn:I;
    [apply markResolved_not_open |].
  destruct (openConflictFor entityType entityId fieldName x0) eqn:O;
    [| reflexivity].
  exfalso. pose proof (filter_single_of_find _ _ _ Hc Hu) as F.
  assert (Hf : In x0 (filter (openConflictFor entityType entityId fieldName)
                             l)) by (apply filter_In; auto).
  rewrite F in Hf. destruct Hf as [<- | []].
  now rewrite String.eqb_refl in I.
Qed.

(** X22. Dismissing a conflict is not remembered.  When the open
    occupancy conflict of a mapped room is resolved with keep_internal
    the room has no open conflict left, and the next [mapRoom] of data
    that still disagrees with the room records the disagreement again,
    as a new open conflict appended to the table and seeded with the
    internal and the incoming value. *)
Theorem dismissed_conflict_reappears :
  forall env hotelSourceId roomSourceId source roomData options sourceToApply
         w hotelMapping m r c internal incoming,
    find (hotelKey source hotelSourceId) (hotelMappings w)
    = Some hotelMapping ->
    find (sameMappingKey source roomSourceId (hm_id hotelMapping))
         (roomMappings w) = Some m ->
    find (byRoomId (rm_roomId m)) (rooms w) = Some r ->
    disagree r roomData internal incoming ->
    find (occupancyConflictOf r) (mappingConflicts w) = Some c ->
    (length (filter (occupancyConflictOf r) (mappingConflicts w)) <= 1)%nat ->
    let w1 :=
      exec (resolveConflict env (mc_id c) keep_internal sourceToApply) w in
    let w2 :=
      exec (mapRoom env hotelSourceId roomSourceId source roomData options)
           w1 in
    find (occupancyConflictOf r) (mappingConflicts w1) = None /\
    exists detectedAt internalAt id,
      mappingConflicts w2
      = mappingConflicts w1
        ++ [mkConflict id "room" (room_id r) "maxOccupancy"
                       [mkEntry "internal" (JNumber internal) internalAt;
                        mkEntry source (JNumber incoming) detectedAt]
                       open None None].
Proof.
  intros env hotelSourceId roomSourceId source roomData options sourceToApply
         w hm m r c internal incoming Hh Hm Hr Hd Hc Hu w1 w2.
  destruct (find_by_id mc_id _ _ _ Hc) as (y & Hy & _).
  change (find (byConflictId (mc_id c)) (mappingConflicts w) = Some y) in Hy.
  assert (H1 : w1 = resolvedWorld env keep_internal (mc_id c) y w).
  { unfold w1, exec.
    now rewrite (resolveConflict_plain env (mc_id c) keep_internal
                   sourceToApply y w Hy eq_refl). }
  assert (Hnone : find (occupancyConflictOf r) (mappingConflicts w1) = None).
  { rewrite H1. cbn [resolvedWorld mappingConflicts].
    now apply no_open_after_resolving. }
  split; [exact Hnone |].
  assert (Hh1 : find (hotelKey source hotelSourceId) (hotelMappings w1)
                = Some hm) by (rewrite H1; exact Hh).
  assert (Hcan : canonicalRoom source roomSourceId hm roomData w1 r).
  { unfold canonicalRoom. rewrite H1.
    cbn [resolvedWorld roomMappings rooms]. rewrite Hm. exact Hr. }
  destruct (mapRoom_records env hotelSourceId roomSourceId source roomData
              options hm w1 r internal incoming Hh1 Hcan Hd)
    as (_ & (detectedAt & internalAt & id & Hup) & _).
  exists detectedAt, internalAt, id. fold w2 in Hup. rewrite Hup.
  unfold upsertedConflicts. unfold occupancyConflictOf in Hnone.
  now rewrite Hnone.
Qed.

Lemma dismissed_conflict_reappears_witness :
  let w :=
    mkWorld [hotel1] [verifiedMapping] [room1] [] [conflict1] 0 0 [] [] in
  let w1 := exec (resolveConflict sampleService "conf_1" keep_internal None)
                 w in
  let w2 :=
    exec (mapRoom sampleService "h_src_1" "r_src_1" "provider_b" (incoming 4)
                  noOptions) w1 in
  map mc_status (mappingConflicts w1) = [resolved] /\
  map mc_status (mappingConflicts w2) = [resolved; open].
Proof.
  destruct (dismissed_conflict_reappears sampleService "h_src_1" "r_src_1"
              "provider_b" (incoming 4) noOptions None
              (mkWorld [hotel1] [verifiedMapping] [room1] [] [conflict1]
                       0 0 [] [])
              hotel1 verifiedMapping room1 conflict1 2 4)
    as (_ & detectedAt & internalAt & id & H); try reflexivity.
  - unfold disagree. simpl. repeat split; try reflexivity; lia.
  - cbv zeta. split; [reflexivity |].
    change (mc_id conflict1) with "conf_1"%string in H.
    rewrite H, map_app. reflexivity.
Defined.

Lemma resolveConflict_applied env conflictId sourceToApply conflict entry r
      r' w :
  find (byConflictId conflictId) (mappingConflicts w) = Some conflict ->
  sourceToApply <> ""%string ->
  find (fromSource sourceToApply) (mc_conflictingSources conflict)
  = Some entry ->
  mc_entityType conflict = "room"%string ->
  find (byRoomId (mc_entityId conflict)) (rooms w) = Some r ->
  assignRoomField (mc_fieldName conflict) (ce_value entry) r = Some r' ->
  resolveConflict env conflictId apply_source (Some sourceToApply) w
  = (Ok tt,
     resolvedWorld env apply_source conflictId conflict
       (set_rooms
          (roomsWithField (mc_entityId conflict) (mc_fieldName conflict)
                          (ce_value entry) (rooms w)) w)).
Proof.
  intros H Hne He Htype Hr Ha.
  assert (Ht : truthy_string sourceToApply = true).
  { unfold truthy_string. apply negb_true_iff. now apply String.eqb_neq. }
  pose proof H as H'. unfold byConflictId in H'.
  unfold resolveConflict, bind at 1, transaction, bind at 1, findFirst.
  rewrite H'. simpl. rewrite Ht.
  unfold fromSource in He. rewrite He, Htype. simpl.
  unfold bind at 1, updateRoomField.
  unfold byRoomId in Hr. rewrite Hr, Ha.
  erewrite (markResolved_run env conflictId apply_source conflict)
    by exact H.
  reflexivity.
Qed.

Lemma mapRoom_agreeing env hotelSourceId roomSourceId source roomData options
      hotelMapping m r w :
  find (hotelKey source hotelSourceId) (hotelMappings w) = Some hotelMapping ->
  find (sameMappingKey source roomSourceId (hm_id hotelMapping))
       (roomMappings w) = Some m ->
  find (byRoomId (rm_roomId m)) (rooms w) = Some r ->
  (forall internal incoming, ~ disagree r roomData internal incoming) ->
  let w' :=
    exec (mapRoom env hotelSourceId roomSourceId source roomData options) w in
  mappingConflicts w' = mappingConflicts w /\ rooms w' = rooms w.
Proof.
  intros Hh Hm Hr Hn w'.
  destruct (mapRoom_effect env hotelSourceId roomSourceId source roomData
              options hotelMapping w Hh)
    as (found & w1 & w2 & H1 & H2 & H3).
  destruct (upsertMapping_effect env hotelMapping roomSourceId source roomData
              (confidenceOf options) (mappingTypeOf options)
              (isPrimaryOf options) w)
    as (found' & w1' & H1' & (_ & KC) & E).
  rewrite H1 in H1'. injection H1' as <- <-.
  destruct (afterMapping_effect env source roomData found w1)
    as (w2' & H2' & (_ & _ & KR) & C).
  rewrite H2 in H2'. injection H2' as <-.
  rewrite Hm in E. destruct E as (_ & ERooms & Efound).
  unfold byRoomId in Hr. rewrite Hr in Efound. rewrite Efound in C.
  cbn [snd] in C. destruct C as (_ & Ca).
  unfold w', exec. rewrite H3. cbn [snd].
  split; [rewrite (Ca Hn); exact KC | congruence].
Qed.

(** X23. Applying a source settles the matter for that value.  When a
    conflict on the occupancy of a mapped room is resolved with
    apply_source for a source whose entry holds the number v, the room
    has occupancy v afterwards, and a following [mapRoom] of data with
    that same occupancy records no conflict and leaves the rooms as they
    are. *)
Theorem applied_value_raises_no_conflict :
  forall env hotelSourceId roomSourceId source roomData options conflictId w
         hotelMapping m r conflict entry v,
    find (hotelKey source hotelSourceId) (hotelMappings w)
    = Some hotelMapping ->
    find (sameMappingKey source roomSourceId (hm_id hotelMapping))
         (roomMappings w) = Some m ->
    find (byRoomId (rm_roomId m)) (rooms w) = Some r ->
    find (byConflictId conflictId) (mappingConflicts w) = Some conflict ->
    mc_entityType conflict = "room"%string ->
    mc_entityId conflict = rm_roomId m ->
    mc_fieldName conflict = "maxOccupancy"%string ->
    source <> ""%string ->
    find (fromSource source) (mc_conflictingSources conflict) = Some entry ->
    ce_value entry = JNumber v ->
    max_occupancy roomData = Some (Int v) ->
    let w1 :=
      exec (resolveConflict env conflictId apply_source (Some source)) w in
    let w2 :=
      exec (mapRoom env hotelSourceId roomSourceId source roomData options)
           w1 in
    find (byRoomId (rm_roomId m)) (rooms w1)
    = Some (mkRoomRow (room_id r) (room_hotelId r) (room_name r)
                      (room_description r) (Some v)) /\
    mappingConflicts w2 = mappingConflicts w1 /\
    rooms w2 = rooms w1.
Proof.
  intros env hotelSourceId roomSourceId source roomData options conflictId w
         hm m r conflict entry v Hh Hm Hr Hc Ht Hid Hf Hne He Hv Ho w1 w2.
  set (r' := mkRoomRow (room_id r) (room_hotelId r) (room_name r)
                       (room_description r) (Some v)).
  assert (Ha : assignRoomField (mc_fieldName conflict) (ce_value entry) r
               = Some r') by (rewrite Hf, Hv; reflexivity).
  rewrite <- Hid in Hr.
  assert (H1 : w1 = resolvedWorld env apply_source conflictId conflict
                      (set_rooms
                         (roomsWithField (mc_entityId conflict)
                                         (mc_fieldName conflict)
                                         (ce_value entry) (rooms w)) w)).
  { unfold w1, exec.
    now rewrite (resolveConflict_applied _ _ _ _ _ _ _ _ Hc Hne He Ht Hr Ha). }
  assert (Hr1 : find (byRoomId (rm_roomId m)) (rooms w1) = Some r').
  { rewrite H1, <- Hid. cbn [resolvedWorld rooms set_rooms].
    eapply find_roomsWithField; eassumption. }
  split; [exact Hr1 |].
  apply (mapRoom_agreeing env hotelSourceId roomSourceId source roomData
           options hm m r' w1).
  - rewrite H1. exact Hh.
  - rewrite H1. exact Hm.
  - exact Hr1.
  - intros i j (A1 & A2 & _ & _ & A5). apply A5.
    rewrite Ho in A2. simpl in A1. congruence.
Qed.

Lemma applied_value_raises_no_conflict_witness :
  let w :=
    mkWorld [hotel1] [verifiedMapping] [room1] [] [conflict1] 0 0 [] [] in
  let w1 :=
    exec (resolveConflict sampleService "conf_1" apply_source
                          (Some "provider_b")) w in
  let w2 :=
    exec (mapRoom sampleService "h_src_1" "r_src_1" "provider_b" (incoming 4)
                  noOptions) w1 in
  map room_maxOccupancy (rooms w2) = [Some 4] /\
  map mc_status (mappingConflicts w2) = [resolved].
Proof.
  destruct (applied_value_raises_no_conflict sampleService "h_src_1"
              "r_src_1" "provider_b" (incoming 4) noOptions "conf_1"
              (mkWorld [hotel1] [verifiedMapping] [room1] [] [conflict1]
                       0 0 [] [])
              hotel1 verifiedMapping room1 conflict1
              (mkEntry "provider_b" (JNumber 4) 11) 4)
    as (_ & H2 & H3); try reflexivity.
  - discriminate.
  - cbv zeta. rewrite H3, H2. split; reflexivity.
Defined.

End ServiceExtras.

(* ================================================================== *)
(** ** Properties of the HTTP surface                                   *)
(* ================================================================== *)

Module ApiExtras.
Import Js Stays MappingService ServiceSpec ServiceQueries Api ExtraSpec
       ServiceProofs ServiceExtras.
Local Open Scope list_scope.
Local Open Scope Z_scope.

(** *** The rate limiter *)

Lemma getRecord_setRecord ip r m : getRecord ip (setRecord ip r m) = Some r.
Proof.
  induction m as [| [k r0] m IH]; simpl.
  - now rewrite String.eqb_refl.
  - destruct (String.eqb k ip) eqn:E; simpl; now rewrite E.
Qed.

Lemma getRecord_setRecord_other ip ip' r m :
  ip' <> ip -> getRecord ip' (setRecord ip r m) = getRecord ip' m.
Proof.
  intros Hne. induction m as [| [k r0] m IH]; simpl.
  - apply String.eqb_neq in Hne. rewrite String.eqb_sym in Hne.
    now rewrite Hne.
  - destruct (String.eqb k ip) eqn:E; simpl.
    + apply String.eqb_eq in E. subst k.
      apply String.eqb_neq in Hne. rewrite String.eqb_sym in Hne.
      now rewrite Hne.
    + now rewrite IH.
Qed.

(** X24. The rate limiter keeps clients apart: a request changes the
    record of its own address only. *)
Theorem rateLimiter_isolation :
  forall req now requestCounts ip,
    ip <> clientIp req ->
    getRecord ip (snd (rateLimiter req now requestCounts))
    = getRecord ip requestCounts.
Proof.
  intros req now m ip Hne. unfold rateLimiter.
  destruct (Z.leb rateLimitMax _); simpl;
    now apply getRecord_setRecord_other.
Qed.

Lemma rateLimiter_isolation_witness :
  getRecord "10.0.0.2" (snd (rateLimiter devRequest 5 [])) = None.
Proof.
  apply (rateLimiter_isolation devRequest 5 [] "10.0.0.2"). discriminate.
Defined.

Lemma rateLimiter_within_window req now m c t0 :
  getRecord (clientIp req) m = Some (mkRateRecord c t0) ->
  now - t0 <= rateLimitWindowMs ->
  rateLimiter req now m
  = if Z.leb rateLimitMax c
    then (Answer TooManyRequests429,
          setRecord (clientIp req) (mkRateRecord c t0) m)
    else (Next, setRecord (clientIp req) (mkRateRecord (c + 1) t0) m).
Proof.
  intros Hg Hw. unfold rateLimiter. rewrite Hg. cbn [startTime count].
  assert (E : Z.ltb rateLimitWindowMs (now - t0) = false)
    by (apply Z.ltb_ge; exact Hw).
  rewrite E. reflexivity.
Qed.

Lemma serve_within_window req ts :
  forall m c t0,
    getRecord (clientIp req) m = Some (mkRateRecord c t0) ->
    (forall t, In t ts -> t - t0 <= rateLimitWindowMs) ->
    fst (serve req ts m)
    = repeat Next (Nat.min (length ts) (Z.to_nat (rateLimitMax - c)))
      ++ repeat (Answer TooManyRequests429)
                (length ts - Z.to_nat (rateLimitMax - c)).
Proof.
  induction ts as [| t ts IH]; intros m c t0 Hg Hw; [reflexivity |].
  cbn [serve].
  rewrite (rateLimiter_within_window req t m c t0 Hg
             (Hw t (or_introl eq_refl))).
  destruct (Z.leb rateLimitMax c) eqn:E.
  - apply Z.leb_le in E.
    specialize (IH (setRecord (clientIp req) (mkRateRecord c t0) m) c t0
                   (getRecord_setRecord _ _ _)
                   (fun t' Ht' => Hw t' (or_intror Ht'))).
    destruct (serve req ts _) as [vs m2]. cbn [fst] in *. rewrite IH.
    replace (Z.to_nat (rateLimitMax - c)) with 0%nat by lia.
    rewrite !Nat.min_0_r, !Nat.sub_0_r. reflexivity.
  - apply Z.leb_gt in E.
    specialize (IH (setRecord (clientIp req) (mkRateRecord (c + 1) t0) m)
                   (c + 1) t0 (getRecord_setRecord _ _ _)
                   (fun t' Ht' => Hw t' (or_intror Ht'))).
    destruct (serve req ts _) as [vs m2]. cbn [fst] in *. rewrite IH.
    replace (Z.to_nat (rateLimitMax - c))
      with (S (Z.to_nat (rateLimitMax - (c + 1)))) by lia.
    reflexivity.
Qed.

(** X25. A burst is cut at the limit: of the requests a client not yet
    known to the limiter sends within fifteen minutes of its first one,
    the first hundred are passed on and every later one is answered with
    429, whatever key it carries. *)
Theorem rateLimiter_burst :
  forall req t0 ts requestCounts,
    getRecord (clientIp req) requestCounts = None ->
    (forall t, In t ts -> t - t0 <= rateLimitWindowMs) ->
    fst (serve req (t0 :: ts) requestCounts)
    = repeat Next (Nat.min (S (length ts)) 100)
      ++ repeat (Answer TooManyRequests429) (S (length ts) - 100).
Proof.
  intros req t0 ts m Hg Hw. cbn [serve].
  assert (H0 : rateLimiter req t0 m
               = (Next, setRecord (clientIp req) (mkRateRecord 1 t0) m)).
  { unfold rateLimiter. rewrite Hg. cbn [startTime count].
    rewrite Z.sub_diag. reflexivity. }
  rewrite H0.
  pose proof (serve_within_window req ts
                (setRecord (clientIp req) (mkRateRecord 1 t0) m) 1 t0
                (getRecord_setRecord _ _ _) Hw) as H.
  destruct (serve req ts _) as [vs m2]. cbn [fst] in *. rewrite H.
  reflexivity.
Qed.

Lemma rateLimiter_burst_witness :
  fst (serve anonymousRequest [0; 1; 900000] [])
  = [Next; Next; Next].
Proof.
  rewrite (rateLimiter_burst anonymousRequest 0 [1; 900000] []).
  - reflexivity.
  - reflexivity.
  - intros t [<- | [<- | []]]; unfold rateLimitWindowMs; lia.
Defined.

(** X26. The window is reset only when strictly more than fifteen
    minutes have passed since it started: then the request is passed on
    and starts a new window with count 1; a client at the limit is still
    refused exactly fifteen minutes after the start of its window, and
    its record is not changed. *)
Theorem rateLimiter_window_expiry :
  forall req now requestCounts c t0,
    getRecord (clientIp req) requestCounts = Some (mkRateRecord c t0) ->
    (rateLimitWindowMs < now - t0 ->
     rateLimiter req now requestCounts
     = (Next,
        setRecord (clientIp req) (mkRateRecord 1 now) requestCounts)) /\
    (now - t0 = rateLimitWindowMs -> rateLimitMax <= c ->
     rateLimiter req now requestCounts
     = (Answer TooManyRequests429,
        setRecord (clientIp req) (mkRateRecord c t0) requestCounts)).
Proof.
  intros req now m c t0 Hg. split.
  - intros Hw. unfold rateLimiter. rewrite Hg. cbn [startTime count].
    apply Z.ltb_lt in Hw. rewrite Hw. reflexivity.
  - intros Hw Hc.
    rewrite (rateLimiter_within_window req now m c t0 Hg) by lia.
    apply Z.leb_le in Hc. now rewrite Hc.
Qed.

Lemma rateLimiter_window_expiry_witness :
  let m := [("10.0.0.1"%string, mkRateRecord 100 0)] in
  rateLimiter devRequest 900001 m
  = (Next, [("10.0.0.1"%string, mkRateRecord 1 900001)]) /\
  rateLimiter devRequest 900000 m = (Answer TooManyRequests429, m).
Proof.
  destruct (rateLimiter_window_expiry devRequest 900001
              [("10.0.0.1"%string, mkRateRecord 100 0)] 100 0 eq_refl)
    as (H1 & _).
  destruct (rateLimiter_window_expiry devRequest 900000
              [("10.0.0.1"%string, mkRateRecord 100 0)] 100 0 eq_refl)
    as (_ & H2).
  split.
  - apply H1. reflexivity.
  - apply H2; [reflexivity | unfold rateLimitMax; lia].
Defined.

(** *** Authentication *)

Lemma or_string_truthy a d :
  truthy_string d = true -> truthy_string (or_string a d) = true.
Proof.
  intros Hd. unfold or_string. destruct a as [s |]; [| exact Hd].
  destruct (truthy_string s) eqn:E; [exact E | exact Hd].
Qed.

(** X27. The authentication middleware lets a request through exactly
    when its x-api-key header equals the configured key, the configured
    key being "dev_secret_key" when the environment variable is unset
    or empty; a request without the header is refused. *)
Theorem authenticate_accepts_exactly_valid_key :
  forall envKey req,
    (authenticate envKey req = Next <->
     req_apiKey req = Some (or_string envKey "dev_secret_key")) /\
    (authenticate envKey req <> Next ->
     authenticate envKey req = Answer Unauthorized401) /\
    (truthy envKey = false ->
     or_string envKey "dev_secret_key" = "dev_secret_key"%string).
Proof.
  intros envKey req. unfold authenticate. split; [| split].
  - destruct (req_apiKey req) as [apiKey |]; [| split; discriminate].
    destruct (String.eqb_spec apiKey (or_string envKey "dev_secret_key"))
      as [-> | Hne].
    + rewrite (or_string_truthy envKey "dev_secret_key" eq_refl). simpl.
      split; reflexivity.
    + rewrite andb_false_r. split; [discriminate |].
      intros H. injection H as H. contradiction.
  - destruct (req_apiKey req) as [apiKey |]; [| reflexivity].
    destruct (truthy_string apiKey && _)%bool; [contradiction | reflexivity].
  - unfold or_string, truthy. destruct envKey as [s |]; [| reflexivity].
    now intros ->.
Qed.

Lemma authenticate_accepts_exactly_valid_key_witness :
  authenticate (Some ""%string) devRequest = Next /\
  authenticate None anonymousRequest = Answer Unauthorized401.
Proof.
  destruct (authenticate_accepts_exactly_valid_key (Some ""%string)
              devRequest) as (H1 & _ & _).
  destruct (authenticate_accepts_exactly_valid_key None anonymousRequest)
    as (_ & H2 & _).
  split.
  - apply H1. reflexivity.
  - apply H2. discriminate.
Defined.

(** *** The resolve route *)

Lemma postResolve_outcome env listeners conflictId strategy source w :
  let answer := postResolve env listeners conflictId strategy source w in
  fst answer = Ok200 \/
  snd answer = w \/
  exists resolutionStrategy conflict rooms' e,
    parseStrategy strategy = Some resolutionStrategy /\
    find (byConflictId conflictId) (mappingConflicts w) = Some conflict /\
    map room_id rooms' = map room_id (rooms w) /\
    Subscribers.callListeners listeners
      (markResolved resolutionStrategy (clock env (clockReads w)) conflict)
    = Some e /\
    answer
    = (ServerError500 e,
       resolvedWorld env resolutionStrategy conflictId conflict
                     (set_rooms rooms' w)).
Proof.
  cbv zeta. unfold postResolve.
  destruct (parseStrategy strategy) as [s |] eqn:Ep;
    [| right; left; reflexivity].
  pose proof (resolveConflict_with_listeners env listeners conflictId s
                source w) as H.
  destruct (find (byConflictId conflictId) (mappingConflicts w))
    as [conflict |] eqn:Ef.
  - destruct H as [(e & ->) | (rooms' & Hids & ->)];
      [right; left; reflexivity |].
    destruct (Subscribers.callListeners listeners _) as [e |] eqn:El;
      [| left; reflexivity].
    right. right. exists s, conflict, rooms', e. auto.
  - rewrite H. right. left. reflexivity.
Qed.

(** X28. The resolve route answers 400 for a strategy that is neither
    keep_internal nor apply_source, without touching the store or
    looking the conflict up, and 500 with "Conflict not found" for a
    valid strategy and an unknown conflict, the store untouched.  An
    answer other than 200 does not always mean that nothing was done:
    either the store is exactly as it was, or the answer is the 500 of a
    listener's exception and the conflict has been resolved all the
    same.  When no listener throws, every answer other than 200 leaves
    the store as it was. *)
Theorem postResolve_errors :
  forall env listeners conflictId strategy source w,
    let answer := postResolve env listeners conflictId strategy source w in
    (strategy <> "keep_internal"%string ->
     strategy <> "apply_source"%string ->
     answer = (BadRequest400 "Invalid resolution strategy", w)) /\
    (parseStrategy strategy <> None ->
     find (byConflictId conflictId) (mappingConflicts w) = None ->
     answer = (ServerError500 (JsError "Conflict not found"), w)) /\
    (fst answer <> Ok200 ->
     snd answer = w \/
     exists resolutionStrategy conflict rooms' e,
       parseStrategy strategy = Some resolutionStrategy /\
       find (byConflictId conflictId) (mappingConflicts w) = Some conflict /\
       map room_id rooms' = map room_id (rooms w) /\
       Subscribers.callListeners listeners
         (markResolved resolutionStrategy (clock env (clockReads w))
                       conflict) = Some e /\
       answer
       = (ServerError500 e,
          resolvedWorld env resolutionStrategy conflictId conflict
                        (set_rooms rooms' w))) /\
    ((forall c, Subscribers.callListeners listeners c = None) ->
     fst answer <> Ok200 -> snd answer = w).
Proof.
  intros env listeners conflictId strategy source w answer.
  split; [| split; [| split]].
  - intros H1 H2. unfold answer, postResolve, parseStrategy.
    apply String.eqb_neq in H1, H2. now rewrite H1, H2.
  - intros Hs Hf. unfold answer, postResolve.
    destruct (parseStrategy strategy) as [s |]; [| contradiction].
    pose proof (resolveConflict_with_listeners env listeners conflictId s
                  source w) as H.
    rewrite Hf in H. now rewrite H.
  - intros Hne.
    destruct (postResolve_outcome env listeners conflictId strategy source w)
      as [H | H]; [contradiction | exact H].
  - intros Hquiet Hne.
    destruct (postResolve_outcome env listeners conflictId strategy source w)
      as [H | [H | (s & c & rooms' & e & _ & _ & _ & El & _)]];
      [contradiction | exact H |].
    rewrite Hquiet in El. discriminate.
Qed.

Lemma postResolve_errors_witness :
  let broken : Subscribers.Listener :=
    fun _ => Some (JsError "socket closed") in
  postResolve sampleService [broken] "conf_1" "dismiss" None conflictWorld
  = (BadRequest400 "Invalid resolution strategy", conflictWorld) /\
  postResolve sampleService [broken] "conf_9" "keep_internal" None
              conflictWorld
  = (ServerError500 (JsError "Conflict not found"), conflictWorld) /\
  snd (postResolve sampleService [] "conf_1" "apply_source"
                   (Some "provider_z") conflictWorld) = conflictWorld /\
  (fst (postResolve sampleService [broken] "conf_1" "keep_internal" None
                    conflictWorld)
   = ServerError500 (JsError "socket closed") /\
   map mc_status
       (mappingConflicts
          (snd (postResolve sampleService [broken] "conf_1" "keep_internal"
                            None conflictWorld))) = [resolved]).
Proof.
  cbv zeta.
  destruct (postResolve_errors sampleService
              [fun _ => Some (JsError "socket closed")] "conf_1" "dismiss"
              None conflictWorld) as (H1 & _).
  destruct (postResolve_errors sampleService
              [fun _ => Some (JsError "socket closed")] "conf_9"
              "keep_internal" None conflictWorld) as (_ & H2 & _).
  destruct (postResolve_errors sampleService [] "conf_1" "apply_source"
              (Some "provider_z"%string) conflictWorld) as (_ & _ & _ & H3).
  destruct (postResolve_errors sampleService
              [fun _ => Some (JsError "socket closed")] "conf_1"
              "keep_internal" None conflictWorld) as (_ & _ & H4 & _).
  split; [| split; [| split]].
  - apply H1; discriminate.
  - apply H2; [discriminate | reflexivity].
  - apply H3; [reflexivity | discriminate].
  - destruct H4 as [H4 | (s & c & rooms' & e & _ & _ & _ & _ & H4)].
    + vm_compute. discriminate.
    + vm_compute in H4. discriminate H4.
    + split; reflexivity.
Defined.

(** *** The router *)

(** X29. Behind the router the answers 429, 401 and 400 leave the
    datastore exactly as it was; so does a 500, unless it is the 500 of
    a listener's exception: then the conflict has been resolved all the
    same.  When no listener throws, every answer other than 200 leaves
    the datastore as it was.  In the limiter's map only the record of
    the caller's address changes. *)
Theorem handleResolve_failures_keep_store :
  forall env listeners envKey now req conflictId strategy source srv ip,
    let answer :=
      handleResolve env listeners envKey now req conflictId strategy source
                    srv in
    (fst answer = TooManyRequests429 \/ fst answer = Unauthorized401 \/
     (exists message, fst answer = BadRequest400 message) ->
     world (snd answer) = world srv) /\
    (forall e,
        fst answer = ServerError500 e ->
        world (snd answer) = world srv \/
        exists resolutionStrategy conflict rooms',
          find (byConflictId conflictId) (mappingConflicts (world srv))
          = Some conflict /\
          Subscribers.callListeners listeners
            (markResolved resolutionStrategy
                          (clock env (clockReads (world srv))) conflict)
          = Some e /\
          world (snd answer)
          = resolvedWorld env resolutionStrategy conflictId conflict
                          (set_rooms rooms' (world srv))) /\
    ((forall c, Subscribers.callListeners listeners c = None) ->
     fst answer <> Ok200 -> world (snd answer) = world srv) /\
    (ip <> clientIp req ->
     getRecord ip (requestCounts (snd answer))
     = getRecord ip (requestCounts srv)).
Proof.
  intros env listeners envKey now req conflictId strategy source srv ip
         answer.
  unfold answer, handleResolve.
  assert (Hiso : ip <> clientIp req ->
                 getRecord ip (snd (rateLimiter req now (requestCounts srv)))
                 = getRecord ip (requestCounts srv)).
  { intros Hne. unfold rateLimiter.
    destruct (Z.leb rateLimitMax _); simpl;
      now apply getRecord_setRecord_other. }
  destruct (rateLimiter req now (requestCounts srv)) as [[r |] counts].
  - cbn [fst snd world requestCounts] in *.
    repeat split; auto.
  - destruct (authenticate envKey req) as [r |].
    + cbn [fst snd world requestCounts] in *. repeat split; auto.
    + pose proof (postResolve_outcome env listeners conflictId strategy
                    source (world srv)) as H.
      cbv zeta in H.
      destruct (postResolve env listeners conflictId strategy source
                            (world srv)) as [r w'].
      cbn [fst snd world requestCounts] in *.
      split; [| split; [| split; [| exact Hiso]]].
      * intros Hr.
        destruct H as [H | [H | (s & c & rooms' & e & _ & _ & _ & _ & H)]];
          [| exact H |].
        -- subst r. destruct Hr as [Hr | [Hr | (m & Hr)]]; discriminate.
        -- injection H as -> _.
           destruct Hr as [Hr | [Hr | (m & Hr)]]; discriminate.
      * intros e0 Hr.
        destruct H as [H | [H | (s & c & rooms' & e & _ & Hf & _ & El & H)]].
        -- subst r. discriminate.
        -- left. exact H.
        -- right. injection H as -> ->. injection Hr as <-.
           exists s, c, rooms'. auto.
      * intros Hquiet Hne.
        destruct H as [H | [H | (s & c & rooms' & e & _ & _ & _ & El & _)]];
          [contradiction | exact H |].
        rewrite Hquiet in El. discriminate.
Qed.

Lemma handleResolve_failures_keep_store_witness :
  let broken : Subscribers.Listener :=
    fun _ => Some (JsError "socket closed") in
  let answer :=
    handleResolve sampleService [broken] None 5 anonymousRequest "conf_1"
                  "keep_internal" None (mkServer [] conflictWorld) in
  fst answer = Unauthorized401 /\
  world (snd answer) = conflictWorld /\
  getRecord "10.0.0.2" (requestCounts (snd answer)) = None.
Proof.
  destruct (handleResolve_failures_keep_store sampleService
              [fun _ => Some (JsError "socket closed")] None 5
              anonymousRequest "conf_1" "keep_internal" None
              (mkServer [] conflictWorld) "10.0.0.2") as (H1 & _ & _ & H2).
  cbv zeta. split; [reflexivity |]. split.
  - apply H1. right. left. reflexivity.
  - apply H2. discriminate.
Defined.

(** X30. The limiter runs before authentication: a request without a
    valid key is answered 401 and still counts against its address, and
    once the address is at the limit within its window a request with
    the valid key is answered 429 and never reaches the route. *)
Theorem unauthenticated_requests_use_quota :
  forall env listeners envKey now req conflictId strategy source srv c t0,
    getRecord (clientIp req) (requestCounts srv) = Some (mkRateRecord c t0) ->
    now - t0 <= rateLimitWindowMs ->
    let answer :=
      handleResolve env listeners envKey now req conflictId strategy source
                    srv in
    (c < rateLimitMax ->
     authenticate envKey req <> Next ->
     answer
     = (Unauthorized401,
        mkServer (setRecord (clientIp req) (mkRateRecord (c + 1) t0)
                            (requestCounts srv))
                 (world srv))) /\
    (rateLimitMax <= c ->
     answer
     = (TooManyRequests429,
        mkServer (setRecord (clientIp req) (mkRateRecord c t0)
                            (requestCounts srv))
                 (world srv))).
Proof.
  intros env listeners envKey now req conflictId strategy source srv c t0
         Hg Hw answer.
  unfold answer, handleResolve.
  rewrite (rateLimiter_within_window req now (requestCounts srv) c t0 Hg Hw).
  split.
  - intros Hc Ha. apply Z.leb_gt in Hc. rewrite Hc.
    unfold authenticate in *.
    destruct (req_apiKey req) as [apiKey |]; [| reflexivity].
    destruct (truthy_string apiKey && _)%bool; [contradiction | reflexivity].
  - intros Hc. apply Z.leb_le in Hc. now rewrite Hc.
Qed.

Lemma unauthenticated_requests_use_quota_witness :
  let srv := mkServer [("10.0.0.1"%string, mkRateRecord 99 0)] conflictWorld in
  let srv1 := mkServer [("10.0.0.1"%string, mkRateRecord 100 0)] conflictWorld in
  handleResolve sampleService [] None 5 anonymousRequest "conf_1"
                "keep_internal" None srv = (Unauthorized401, srv1) /\
  handleResolve sampleService [] None 6 devRequest "conf_1" "keep_internal"
                None srv1 = (TooManyRequests429, srv1).
Proof.
  destruct (unauthenticated_requests_use_quota sampleService [] None 5
              anonymousRequest "conf_1" "keep_internal" None
              (mkServer [("10.0.0.1"%string, mkRateRecord 99 0)]
                        conflictWorld) 99 0 eq_refl)
    as (H1 & _); [unfold rateLimitWindowMs; lia |].
  destruct (unauthenticated_requests_use_quota sampleService [] None 6
              devRequest "conf_1" "keep_internal" None
              (mkServer [("10.0.0.1"%string, mkRateRecord 100 0)]
                        conflictWorld) 100 0 eq_refl)
    as (_ & H2); [unfold rateLimitWindowMs; lia |].
  split.
  - apply H1; [unfold rateLimitMax; lia | discriminate].
  - apply H2. unfold rateLimitMax; lia.
Defined.

End ApiExtras.
